(** * Vendor reconciliation core: evidence extraction and balance verdict

    Shallow embedding of [src/services/conciliacao.service.js]:
    [normalizarTexto], [fornecedorExisteNaRazao], [extrairLinhasFornecedor],
    [parseValorMonetario] and [montarIndicadoresFornecedor], together with
    the fragment of the ECMAScript runtime these functions call.

    - A JavaScript string is the list of its UTF-16 code units ([list Z]).
    - A value that is either [null]/[undefined] or a string is an
      [option jsstring].
    - A Number is a binary64 float, [spec_float] at precision 53.
    - A plain object used as a dictionary is a [gmap] keyed by strings. *)

From Stdlib Require Import ZArith List Bool Lia QArith Qcanon.
From Stdlib Require Import Strings.String Strings.Ascii.
From Stdlib Require Import Floats.SpecFloat Floats.PrimFloat Floats.FloatOps.
From stdpp Require Import gmap list.

Open Scope Z_scope.

Abbreviation jsstring := (list Z).
Abbreviation jsval := (option (list Z)).

(** ** The runtime: strings *)

Module JS.

(** A string literal of the source, as code units (Latin-1 range). *)
Definition lit (s : string) : jsstring :=
  List.map (fun a => Z.of_N (N_of_ascii a)) (list_ascii_of_string s).

(** [!v] for a value that is null, undefined or a string. *)
Definition falsy (v : jsval) : bool :=
  match v with
  | None => true
  | Some [] => true
  | Some (_ :: _) => false
  end.

(** [String(v)] for a value already known to be truthy. *)
Definition to_string (v : jsval) : jsstring :=
  match v with
  | None => []
  | Some s => s
  end.

Definition in_range (lo hi c : Z) : bool := (lo <=? c) && (c <=? hi).

(** [\d] *)
Definition is_digit (c : Z) : bool := in_range 48 57 c.

(** [\w] without the unicode flag: [[A-Za-z0-9_]]. *)
Definition is_word (c : Z) : bool :=
  is_digit c || in_range 65 90 c || in_range 97 122 c || (c =? 95).

(** [\s], which is also the set removed by [trim]: WhiteSpace and
    LineTerminator of ECMA-262. *)
Definition is_space (c : Z) : bool :=
  in_range 9 13 c || (c =? 32) || (c =? 160) || (c =? 5760)
  || in_range 8192 8202 c || (c =? 8232) || (c =? 8233) || (c =? 8239)
  || (c =? 8287) || (c =? 12288) || (c =? 65279).

(** [[\u0300-\u036f]]: the combining diacritical marks. *)
Definition is_mark (c : Z) : bool := in_range 768 879 c.

(** [[\r\n]] *)
Definition is_crlf (c : Z) : bool := (c =? 13) || (c =? 10).

Definition SP : Z := 32.

(** [s.replace(/[p]/g, "")] *)
Definition remove_all (p : Z -> bool) (s : jsstring) : jsstring :=
  List.filter (fun c => negb (p c)) s.

(** [s.replace(/[p]+/g, " ")]: every maximal run of [p] becomes one
    space.  [in_run] tells that the previous code unit was in the run
    being replaced. *)
Fixpoint replace_runs_from (p : Z -> bool) (in_run : bool) (s : jsstring)
  : jsstring :=
  match s with
  | [] => []
  | c :: r =>
      if p c then
        if in_run then replace_runs_from p true r
        else SP :: replace_runs_from p true r
      else c :: replace_runs_from p false r
  end.

Definition replace_runs (p : Z -> bool) (s : jsstring) : jsstring :=
  replace_runs_from p false s.

(** [s.replace(/[p]/g, " ")] *)
Definition replace_each (p : Z -> bool) (s : jsstring) : jsstring :=
  List.map (fun c => if p c then SP else c) s.

Fixpoint trimStart (s : jsstring) : jsstring :=
  match s with
  | [] => []
  | c :: r => if is_space c then trimStart r else s
  end.

Definition trimEnd (s : jsstring) : jsstring :=
  List.rev (trimStart (List.rev s)).

Definition trim (s : jsstring) : jsstring := trimEnd (trimStart s).

(** [toLowerCase] on the Basic Latin block.  The service applies it
    only to strings over [[A-Za-z0-9_ ]] (lemma
    [pre_lower_alphabet] below), where this is the whole of the
    Unicode case mapping. *)
Definition lower (c : Z) : Z := if in_range 65 90 c then c + 32 else c.

Definition toLowerCase (s : jsstring) : jsstring := List.map lower s.

Fixpoint startsWith (s t : jsstring) : bool :=
  match t, s with
  | [], _ => true
  | _ :: _, [] => false
  | a :: t', b :: s' => (a =? b) && startsWith s' t'
  end.

(** [s.includes(t)] *)
Fixpoint includes (s t : jsstring) : bool :=
  startsWith s t ||
  match s with
  | [] => false
  | _ :: r => includes r t
  end.

(** Prepend a code unit to the first piece of a split. *)
Definition push_front (c : Z) (ps : list jsstring) : list jsstring :=
  match ps with
  | [] => [[c]]
  | h :: t => (c :: h) :: t
  end.

(** [s.split(sep)] for a separator of one code unit. *)
Fixpoint split_on (sep : Z) (s : jsstring) : list jsstring :=
  match s with
  | [] => [[]]
  | c :: r =>
      if c =? sep then [] :: split_on sep r
      else push_front c (split_on sep r)
  end.

(** [s.split(/\r?\n/)] *)
Fixpoint split_lines (s : jsstring) : list jsstring :=
  match s with
  | [] => [[]]
  | c :: r =>
      if c =? 10 then [] :: split_lines r
      else
        match r with
        | d :: r' =>
            if (c =? 13) && (d =? 10) then [] :: split_lines r'
            else push_front c (split_lines r)
        | [] => push_front c (split_lines r)
        end
  end.

End JS.

(** ** The runtime: Unicode canonical decomposition

    [String.prototype.normalize("NFD")] is table driven; the service is
    modelled over an arbitrary decomposition function. *)

Class UnicodeData := { nfd : jsstring -> jsstring }.

(** ** TextNormalizer *)

Section Normalizer.
Context `{UnicodeData}.

(** The string just before [.trim().toLowerCase()]. *)
Definition pre_trim (s : jsstring) : jsstring :=
  JS.replace_each (fun c => negb (JS.is_word c || JS.is_space c))
    (JS.replace_runs JS.is_space
       (JS.replace_runs JS.is_crlf
          (JS.remove_all JS.is_mark (nfd s)))).

Definition normalizarTexto (str : jsval) : jsstring :=
  if JS.falsy str then []
  else JS.toLowerCase (JS.trim (pre_trim (JS.to_string str))).

End Normalizer.

(** Canonical decomposition of the Latin-1 Supplement letters; every
    other code unit is left as it is.  Used to run the model on concrete
    inputs. *)
Definition nfd_latin1_unit (c : Z) : jsstring :=
  let base_mark (b m : Z) := [b; m] in
  if JS.in_range 192 197 c then base_mark 65 (nth (Z.to_nat (c - 192)) [768; 769; 770; 771; 776; 778] 0)
  else if c =? 199 then base_mark 67 807
  else if JS.in_range 200 203 c then base_mark 69 (nth (Z.to_nat (c - 200)) [768; 769; 770; 776] 0)
  else if JS.in_range 204 207 c then base_mark 73 (nth (Z.to_nat (c - 204)) [768; 769; 770; 776] 0)
  else if c =? 209 then base_mark 78 771
  else if JS.in_range 210 214 c then base_mark 79 (nth (Z.to_nat (c - 210)) [768; 769; 770; 771; 776] 0)
  else if JS.in_range 217 220 c then base_mark 85 (nth (Z.to_nat (c - 217)) [768; 769; 770; 776] 0)
  else if c =? 221 then base_mark 89 769
  else if JS.in_range 224 229 c then base_mark 97 (nth (Z.to_nat (c - 224)) [768; 769; 770; 771; 776; 778] 0)
  else if c =? 231 then base_mark 99 807
  else if JS.in_range 232 235 c then base_mark 101 (nth (Z.to_nat (c - 232)) [768; 769; 770; 776] 0)
  else if JS.in_range 236 239 c then base_mark 105 (nth (Z.to_nat (c - 236)) [768; 769; 770; 776] 0)
  else if c =? 241 then base_mark 110 771
  else if JS.in_range 242 246 c then base_mark 111 (nth (Z.to_nat (c - 242)) [768; 769; 770; 771; 776] 0)
  else if JS.in_range 249 252 c then base_mark 117 (nth (Z.to_nat (c - 249)) [768; 769; 770; 776] 0)
  else if c =? 253 then base_mark 121 769
  else if c =? 255 then base_mark 121 776
  else [c].

Definition nfd_latin1 (s : jsstring) : jsstring :=
  List.flat_map nfd_latin1_unit s.

#[export] Instance latin1 : UnicodeData := {| nfd := nfd_latin1 |}.

(** ** VendorMatcher and LineExtractor *)

Module Regex.
Import JS.

(** [(?:\.\d{3})*,\d{2}] matched at the head of [s], as the backtracking
    matcher runs it: the star takes a further group when there is one
    and the rest then matches, and otherwise gives way to [,\d{2}].
    The result is the number of code units consumed. *)
Fixpoint match_groups_tail (s : jsstring) : option nat :=
  let tail :=
    match s with
    | c :: d1 :: d2 :: _ =>
        if (c =? 44) && is_digit d1 && is_digit d2 then Some 3%nat else None
    | _ => None
    end in
  match s with
  | p :: a :: b :: c :: r =>
      if (p =? 46) && is_digit a && is_digit b && is_digit c then
        match match_groups_tail r with
        | Some n => Some (4 + n)%nat
        | None => tail
        end
      else tail
  | _ => tail
  end.

(** [\d{k}] followed by the rest of the pattern. *)
Definition match_with_digits (k : nat) (s : jsstring) : option nat :=
  let ds := List.firstn k s in
  if (length ds =? k)%nat && List.forallb is_digit ds then
    match match_groups_tail (List.skipn k s) with
    | Some n => Some (k + n)%nat
    | None => None
    end
  else None.

(** [\d{1,3}(?:\.\d{3})*,\d{2}] at the head of [s]; the greedy
    quantifier tries three digits, then two, then one. *)
Definition match_valor_at (s : jsstring) : option nat :=
  match match_with_digits 3 s with
  | Some n => Some n
  | None =>
      match match_with_digits 2 s with
      | Some n => Some n
      | None => match_with_digits 1 s
      end
  end.

(** The loop [while ((m = regexValor.exec(linha)) !== null) push(m[1])]
    with the global flag: the search resumes where the last match
    ended.  [skip] counts the code units still covered by the last
    match. *)
Fixpoint exec_all_from (skip : nat) (s : jsstring) : list jsstring :=
  match s with
  | [] => []
  | _ :: r =>
      match skip with
      | S k => exec_all_from k r
      | O =>
          match match_valor_at s with
          | Some n => List.firstn n s :: exec_all_from (n - 1) r
          | None => exec_all_from 0 r
          end
      end
  end.

Definition exec_all (s : jsstring) : list jsstring := exec_all_from 0 s.

End Regex.

Record LinhaFornecedor := {
  linhaOriginal : jsstring;
  linhaNormalizada : jsstring;
  scoreMatch : Q;
  numerosMonetarios : list jsstring;
  ultimoNumero : jsval
}.

(** The two score thresholds. *)
Definition LIMIAR_PRESENCA : Q := 7 # 10.
Definition LIMIAR_EXTRACAO : Q := 6 # 10.

Section Matcher.
Context `{UnicodeData}.

(** [alvo.split(" ").map(t => t.trim()).filter(t => t.length > 2)] *)
Definition tokensAlvo (alvo : jsstring) : list jsstring :=
  List.filter (fun t => (2 <? length t)%nat)
    (List.map JS.trim (JS.split_on JS.SP alvo)).

(** The inner loop: [for (token of tokensAlvo) if (linha.includes(token)) encontrados++]. *)
Definition encontrados (tokens : list jsstring) (linha : jsstring) : nat :=
  List.fold_left
    (fun n token => if JS.includes linha token then S n else n) tokens 0%nat.

(** [encontrados / tokensAlvo.length], for a non-empty token list.
    The quotient of two integers is kept exact; the comparisons with
    0.7 and 0.6 are those of the nearest doubles for every token
    count a string can hold (see [limiares_binary64]). *)
Definition score (tokens : list jsstring) (linha : jsstring) : Q :=
  Z.of_nat (encontrados tokens linha) # Pos.of_nat (length tokens).

(** [for (const linha of linhas) {... if (score >= 0.7) return true} return false] *)
Fixpoint alguma_linha_presente (tokens : list jsstring) (linhas : list jsstring)
  : bool :=
  match linhas with
  | [] => false
  | linha :: resto =>
      if Qle_bool LIMIAR_PRESENCA (score tokens linha) then true
      else alguma_linha_presente tokens resto
  end.

Definition fornecedorExisteNaRazao (nomeFornecedor textoRazaoBruto : jsval)
  : bool :=
  if JS.falsy nomeFornecedor || JS.falsy textoRazaoBruto then false
  else
    let alvo := normalizarTexto nomeFornecedor in
    if JS.falsy (Some alvo) then false
    else
      let textoNormalizado := normalizarTexto textoRazaoBruto in
      if JS.includes textoNormalizado alvo then true
      else
        let tokens := tokensAlvo alvo in
        if (length tokens =? 0)%nat then false
        else
          let linhas :=
            List.filter (fun l => negb (JS.falsy (Some l)))
              (List.map (fun l => normalizarTexto (Some l))
                 (JS.split_lines (JS.to_string textoRazaoBruto))) in
          alguma_linha_presente tokens linhas.

(** The body of the loop over the raw lines in [extrairLinhasFornecedor]:
    the entry pushed for [linhaOriginal], if any. *)
Definition linha_fornecedor (tokens : list jsstring) (linhaOriginal : jsstring)
  : option LinhaFornecedor :=
  let linhaNorm := normalizarTexto (Some linhaOriginal) in
  if JS.falsy (Some linhaNorm) then None
  else
    let sc := if (length tokens =? 0)%nat then 0%Q else score tokens linhaNorm in
    if Qle_bool LIMIAR_EXTRACAO sc then
      let numeros := Regex.exec_all linhaOriginal in
      Some {| linhaOriginal := JS.trim linhaOriginal;
              linhaNormalizada := linhaNorm;
              scoreMatch := sc;
              numerosMonetarios := numeros;
              ultimoNumero := List.last (List.map Some numeros) None |}
    else None.

Fixpoint linhas_fornecedor (tokens : list jsstring) (linhas : list jsstring)
  : list LinhaFornecedor :=
  match linhas with
  | [] => []
  | linhaOriginal :: resto =>
      match linha_fornecedor tokens linhaOriginal with
      | Some entrada => entrada :: linhas_fornecedor tokens resto
      | None => linhas_fornecedor tokens resto
      end
  end.

Definition extrairLinhasFornecedor (textoBruto nomeFornecedor : jsval)
  : list LinhaFornecedor :=
  if JS.falsy textoBruto || JS.falsy nomeFornecedor then []
  else
    let alvoNorm := normalizarTexto nomeFornecedor in
    if JS.falsy (Some alvoNorm) then []
    else
      let tokens := tokensAlvo alvoNorm in
      if (length tokens =? 0)%nat then []
      else linhas_fornecedor tokens (JS.split_lines (JS.to_string textoBruto)).

End Matcher.

(** ** The runtime: Numbers

    A Number is a binary64 float: [spec_float] with the operations of
    [SpecFloat] at precision 53 and maximal exponent 1024. *)

Abbreviation number := spec_float.

Module Number.
Import JS.

Definition prec : Z := 53.
Definition emax : Z := 1024.

Definition NaN : number := S754_nan.
Definition PInf : number := S754_infinity false.
Definition NInf : number := S754_infinity true.

Definition add : number -> number -> number := SFadd prec emax.
Definition sub : number -> number -> number := SFsub prec emax.
Definition div : number -> number -> number := SFdiv prec emax.
Definition abs : number -> number := SFabs.

(** The double nearest to [m / d] (ties to even), with sign [neg];
    [m] is not negative.  This is the value of a decimal literal. *)
Definition of_ratio (neg : bool) (m : Z) (d : positive) : number :=
  match m with
  | Z0 => S754_zero neg
  | Zpos p => div (S754_finite neg p 0) (S754_finite false d 0)
  | Zneg _ => NaN
  end.

(** The double nearest to [m * 10 ^ x]. *)
Definition of_decimal (neg : bool) (m : Z) (x : Z) : number :=
  if 0 <=? x then of_ratio neg (m * 10 ^ x) 1
  else of_ratio neg m (Z.to_pos (10 ^ (- x))).

Definition isNaN (x : number) : bool :=
  match x with S754_nan => true | _ => false end.

(** [Number.isFinite] *)
Definition isFinite (x : number) : bool :=
  match x with
  | S754_zero _ | S754_finite _ _ _ => true
  | _ => false
  end.

Definition exponent (x : number) : Z :=
  match x with S754_finite _ _ e => e | _ => 0 end.

(** The integer [n] with [x = n * 2 ^ e], for a finite [x] and [e] not
    above the exponent of [x]. *)
Definition scaled (e : Z) (x : number) : Z :=
  match x with
  | S754_finite s m ex => cond_Zopp s (Zpos m * 2 ^ (ex - e))
  | _ => 0
  end.

(** IEEE comparison: by value, the two zeros equal, NaN unordered. *)
Definition compare (x y : number) : option comparison :=
  match x, y with
  | S754_nan, _ | _, S754_nan => None
  | S754_infinity sx, S754_infinity sy =>
      Some (if sx then if sy then Eq else Lt else if sy then Gt else Eq)
  | S754_infinity sx, _ => Some (if sx then Lt else Gt)
  | _, S754_infinity sy => Some (if sy then Gt else Lt)
  | _, _ =>
      let e := Z.min (exponent x) (exponent y) in
      Some (Z.compare (scaled e x) (scaled e y))
  end.

(** [x < y] *)
Definition ltb (x y : number) : bool :=
  match compare x y with Some Lt => true | _ => false end.

(** [x <= y] *)
Definition leb (x y : number) : bool :=
  match compare x y with Some Lt | Some Eq => true | _ => false end.

Definition is_neg_zero (x : number) : bool :=
  match x with S754_zero true => true | _ => false end.

Definition is_pos_zero (x : number) : bool :=
  match x with S754_zero false => true | _ => false end.

(** One step of [Math.min] over its arguments; a NaN, once met, is
    the result. *)
Definition min_step (lowest x : number) : number :=
  if isNaN lowest || isNaN x then NaN
  else if is_neg_zero x && is_pos_zero lowest then x
  else if ltb x lowest then x
  else lowest.

Definition max_step (highest x : number) : number :=
  if isNaN highest || isNaN x then NaN
  else if is_pos_zero x && is_neg_zero highest then x
  else if ltb highest x then x
  else highest.

(** [Math.min(...l)] and [Math.max(...l)] *)
Definition Math_min (l : list number) : number :=
  List.fold_left min_step l PInf.

Definition Math_max (l : list number) : number :=
  List.fold_left max_step l NInf.

(** [Number(x.toFixed(2))].  [toFixed] picks the integer [n] with
    [n / 100] nearest to the exact value of [x], the larger one on a
    tie, and prints it with two decimals; from [10 ^ 21] on it prints
    [x] itself.  [Number] reads the digits back. *)
Definition toFixed2 (x : number) : number :=
  match x with
  | S754_nan => NaN
  | S754_infinity s => S754_infinity s
  | S754_zero _ => S754_zero false
  | S754_finite s m e =>
      if leb (of_decimal false 1 21) (abs x) then x
      else
        let n :=
          if 0 <=? e then Zpos m * 2 ^ e * 100
          else (2 * 100 * Zpos m + 2 ^ (- e)) / 2 ^ (1 - e) in
        of_ratio s n 100
  end.

(** Longest prefix of decimal digits, and what follows it. *)
Fixpoint span_digits (s : jsstring) : jsstring * jsstring :=
  match s with
  | [] => ([], [])
  | c :: r =>
      if is_digit c then
        let '(ds, rest) := span_digits r in (c :: ds, rest)
      else ([], s)
  end.

Definition digits_value (ds : jsstring) : Z :=
  List.fold_left (fun acc d => 10 * acc + (d - 48)) ds 0.

(** An optional sign at the head of [s]. *)
Definition read_sign (s : jsstring) : bool * jsstring :=
  match s with
  | c :: r =>
      if c =? 45 then (true, r)
      else if c =? 43 then (false, r)
      else (false, s)
  | [] => (false, s)
  end.

(** The value of an ExponentPart at the head of [s], 0 when there is
    none. *)
Definition exponent_part (s : jsstring) : Z :=
  match s with
  | c :: r =>
      if (c =? 101) || (c =? 69) then
        let '(neg, r') := read_sign r in
        match fst (span_digits r') with
        | [] => 0
        | ds => if neg then - digits_value ds else digits_value ds
        end
      else 0
  | [] => 0
  end.

(** The longest prefix of [s] that is a StrDecimalLiteral, with sign
    [neg]; NaN when there is none. *)
Definition read_decimal (neg : bool) (s : jsstring) : number :=
  if startsWith s (lit "Infinity") then S754_infinity neg
  else
    let '(ip, s3) := span_digits s in
    let '(fp, s4) :=
      match s3 with
      | c :: r => if c =? 46 then span_digits r else ([], s3)
      | [] => ([], s3)
      end in
    match ip ++ fp with
    | [] => NaN
    | ds => of_decimal neg (digits_value ds) (exponent_part s4 - Z.of_nat (length fp))
    end.

(** [Number.parseFloat]: leading white space is skipped, then a sign
    and a StrDecimalLiteral are read. *)
Definition parseFloat (s : jsstring) : number :=
  let '(neg, s2) := read_sign (trimStart s) in
  read_decimal neg s2.

(** Finite, and neither negative nor the negative zero. *)
Definition nonneg_finite (x : number) : bool :=
  match x with
  | S754_zero false | S754_finite false _ _ => true
  | _ => false
  end.

(** [s.replace(",", ".")]: a string pattern replaces the first
    occurrence only. *)
Fixpoint replace_first (a b : Z) (s : jsstring) : jsstring :=
  match s with
  | [] => []
  | c :: r => if c =? a then b :: r else c :: replace_first a b r
  end.

End Number.

(** ** MonetaryParser *)

(** [valorStr.replace(/\./g, "").replace(/[^\d,-]/g, "").replace(",", ".")] *)
Definition limpo (valorStr : jsstring) : jsstring :=
  Number.replace_first 44 46
    (JS.remove_all (fun c => negb (JS.is_digit c || (c =? 44) || (c =? 45)))
       (JS.remove_all (fun c => c =? 46) valorStr)).

Definition parseValorMonetario (valorStr : jsval) : option number :=
  if JS.falsy valorStr then None
  else
    let num := Number.parseFloat (limpo (JS.to_string valorStr)) in
    if Number.isFinite num then Some num else None.

(** ** IndicatorAggregator *)

Record Saldo := {
  texto : jsstring;
  numero : number;
  saldo_linhaOriginal : jsstring
}.

Record Indicador := {
  linhasFornecedor : list LinhaFornecedor;
  saldosEncontrados : list Saldo
}.

(** [avaliacaoAutomaticaSaldo]: the [status], and the reference value
    that comes with [saldos_iguais] (the [descricao] text is fixed by
    the status). *)
Inductive Avaliacao :=
| dados_insuficientes
| saldos_iguais (valorReferenciaAproximado : number)
| saldos_diferentes.

Record Resultado := {
  indicadoresFornecedor : gmap jsstring Indicador;
  avaliacaoAutomaticaSaldo : Avaliacao
}.

Definition chavesRelatorios : list jsstring :=
  [JS.lit "balancete"; JS.lit "contas_pagar"; JS.lit "razao"].

(** The tolerance [0.1] and the divisor [2]. *)
Definition TOLERANCIA : number := Number.of_decimal false 1 (-1).
Definition DOIS : number := Number.of_decimal false 2 0.

(** An object filled key by key, with its keys in insertion order. *)
Definition obj_get {A} (o : list (jsstring * A)) (k : jsstring) : option A :=
  snd <$> List.find (fun kv => bool_decide (fst kv = k)) o.

Definition obj_keys {A} (o : list (jsstring * A)) : list jsstring :=
  List.map fst o.

(** [for (const linha of linhasFornecedor)]: the balances pushed. *)
Fixpoint saldos_das_linhas (linhas : list LinhaFornecedor) : list Saldo :=
  match linhas with
  | [] => []
  | linha :: resto =>
      if JS.falsy (ultimoNumero linha) then saldos_das_linhas resto
      else
        match parseValorMonetario (ultimoNumero linha) with
        | Some valorNum =>
            {| texto := JS.to_string (ultimoNumero linha);
               numero := valorNum;
               saldo_linhaOriginal := linhaOriginal linha |}
            :: saldos_das_linhas resto
        | None => saldos_das_linhas resto
        end
  end.

(** The verdict computed from [saldosNumericosPorRelatorio]. *)
Definition avaliar (saldosNumericosPorRelatorio : list (jsstring * list number))
  : Avaliacao :=
  let todasChavesComSaldo := obj_keys saldosNumericosPorRelatorio in
  if (2 <=? length todasChavesComSaldo)%nat then
    let todosValores :=
      List.flat_map
        (fun k => default [] (obj_get saldosNumericosPorRelatorio k))
        todasChavesComSaldo in
    let min := Number.Math_min todosValores in
    let max := Number.Math_max todosValores in
    if Number.isFinite min && Number.isFinite max then
      let diff := Number.abs (Number.sub max min) in
      if Number.leb diff TOLERANCIA then
        saldos_iguais (Number.toFixed2 (Number.div (Number.add min max) DOIS))
      else saldos_diferentes
    else dados_insuficientes
  else dados_insuficientes.

Section Aggregator.
Context `{UnicodeData}.

(** The state of the loop over [chavesRelatorios]:
    [indicadoresFornecedor] and [saldosNumericosPorRelatorio]. *)
Definition estado : Type :=
  gmap jsstring Indicador * list (jsstring * list number).

Definition passo (fornecedor : jsval) (textosPorRelatorio : gmap jsstring jsstring)
    (st : estado) (chave : jsstring) : estado :=
  let texto := default [] (textosPorRelatorio !! chave) in
  let linhas := extrairLinhasFornecedor (Some texto) fornecedor in
  let saldos := saldos_das_linhas linhas in
  let numericos :=
    if (0 <? length saldos)%nat
    then st.2 ++ [(chave, List.map numero saldos)]
    else st.2 in
  (<[chave := {| linhasFornecedor := linhas; saldosEncontrados := saldos |}]> st.1,
   numericos).

Definition montarIndicadoresFornecedor (fornecedor : jsval)
    (textosPorRelatorio : gmap jsstring jsstring) : Resultado :=
  let st := List.fold_left (passo fornecedor textosPorRelatorio)
              chavesRelatorios (∅, []) in
  {| indicadoresFornecedor := st.1;
     avaliacaoAutomaticaSaldo := avaliar st.2 |}.

End Aggregator.

(** ** Calls that can raise

    On a vendor name and texts that are null or strings no step of
    [normalizarTexto], [parseValorMonetario], [fornecedorExisteNaRazao]
    and [extrairLinhasFornecedor] can raise.
    [montarIndicadoresFornecedor] has two steps that can: the property
    access [textosPorRelatorio[chave]], a TypeError when the argument
    is [null] (the default [{}] stands in for [undefined] only), and
    the calls [Math.min(...todosValores)] and
    [Math.max(...todosValores)], whose arguments have to fit the stack
    of the engine. *)

Inductive Erro := TypeError | RangeError.

Inductive Completion (A : Type) :=
| Normal (a : A)
| Throw (e : Erro).

Arguments Normal {A}.
Arguments Throw {A}.

(** The argument [textosPorRelatorio] as a caller can pass it: left
    out or [undefined], [null], or an object from keys to texts. *)
Inductive Mapeamento :=
| mapa_undefined
| mapa_null
| mapa_objeto (textos : gmap jsstring jsstring).

Section Chamada.
Context `{UnicodeData}.

(** The most arguments one call can take.  The language sets no bound
    ([None]); an engine has one, set by its stack, and raises a
    RangeError beyond it. *)
Variable max_argumentos : option Z.

(** [f(...args)] *)
Definition spread {A} (f : list number -> A) (args : list number) : Completion A :=
  match max_argumentos with
  | Some n => if Z.of_nat (length args) <=? n then Normal (f args) else Throw RangeError
  | None => Normal (f args)
  end.

(** The verdict computed from [saldosNumericosPorRelatorio], with the
    two calls that spread [todosValores]. *)
Definition avaliar_chamada (saldosNumericosPorRelatorio : list (jsstring * list number))
  : Completion Avaliacao :=
  let todasChavesComSaldo := obj_keys saldosNumericosPorRelatorio in
  if (2 <=? length todasChavesComSaldo)%nat then
    let todosValores :=
      List.flat_map
        (fun k => default [] (obj_get saldosNumericosPorRelatorio k))
        todasChavesComSaldo in
    match spread Number.Math_min todosValores with
    | Throw e => Throw e
    | Normal min =>
        match spread Number.Math_max todosValores with
        | Throw e => Throw e
        | Normal max =>
            Normal
              (if Number.isFinite min && Number.isFinite max then
                 let diff := Number.abs (Number.sub max min) in
                 if Number.leb diff TOLERANCIA then
                   saldos_iguais
                     (Number.toFixed2 (Number.div (Number.add min max) DOIS))
                 else saldos_diferentes
               else dados_insuficientes)
        end
    end
  else Normal dados_insuficientes.

(** A call of [montarIndicadoresFornecedor]: the default parameter
    ([None] is [null] from there on), the loop over [chavesRelatorios],
    whose first step reads [textosPorRelatorio[chave]], and the
    verdict. *)
Definition montarIndicadoresFornecedor_chamada (fornecedor : jsval)
    (textosPorRelatorio : Mapeamento) : Completion Resultado :=
  let argumento :=
    match textosPorRelatorio with
    | mapa_undefined => Some ∅
    | mapa_null => None
    | mapa_objeto textos => Some textos
    end in
  match argumento with
  | None => Throw TypeError
  | Some textos =>
      let st := List.fold_left (passo fornecedor textos) chavesRelatorios (∅, []) in
      match avaliar_chamada st.2 with
      | Throw e => Throw e
      | Normal avaliacao =>
          Normal {| indicadoresFornecedor := st.1;
                    avaliacaoAutomaticaSaldo := avaliacao |}
      end
  end.

End Chamada.

(** ** The client of the reasoning service *)

(** The client object of the external library, as far as the service
    determines it: the key it is constructed with. *)
Record OpenAI := { apiKey : jsstring }.

(** [getOpenAIClient].  [env] is [process.env.OPENAI_API_KEY] at the
    time of the call and [openaiClient] the module variable; the result
    is what the function returns and the variable afterwards. *)
Definition getOpenAIClient (env : jsval) (openaiClient : option OpenAI)
  : option OpenAI * option OpenAI :=
  if JS.falsy env then (None, openaiClient)
  else
    match openaiClient with
    | Some cliente => (Some cliente, openaiClient)
    | None =>
        let cliente := {| apiKey := JS.to_string env |} in
        (Some cliente, Some cliente)
    end.

(** Successive calls, one per value of the environment variable. *)
Fixpoint chamadas (envs : list jsval) (openaiClient : option OpenAI)
  : list (option OpenAI) * option OpenAI :=
  match envs with
  | [] => ([], openaiClient)
  | env :: resto =>
      let '(r, c) := getOpenAIClient env openaiClient in
      let '(rs, c') := chamadas resto c in
      (r :: rs, c')
  end.

(** ** Round 1: reading the uploaded files

    [processFile] belongs to [utils/files.js]; it is a parameter here,
    [None] standing for a rejected promise. *)

Section Rodada1.
Variable FileInfo : Type.
Variables originalname path mimetype : FileInfo -> jsval.
Variable Processado : Type.
Variable processFile : FileInfo -> option Processado.

Record Relatorio := {
  nomeOriginal : jsval;
  caminho : jsval;
  relatorio_mimetype : jsval;
  processado : Processado
}.

(** The object returned by [prepararRodada1]; its [mensagem] is a fixed
    text. *)
Record Rodada1 := {
  rodada1_fornecedor : jsval;
  rodada1_status : jsstring;
  relatorios : gmap jsstring Relatorio
}.

(** The loop over [Object.entries(arquivos || {})]; a rejection of
    [processFile] ends it. *)
Fixpoint processar_arquivos (entradas : list (jsstring * option FileInfo))
    (resultado : gmap jsstring Relatorio) : option (gmap jsstring Relatorio) :=
  match entradas with
  | [] => Some resultado
  | (chave, None) :: resto => processar_arquivos resto resultado
  | (chave, Some fileInfo) :: resto =>
      match processFile fileInfo with
      | None => None
      | Some proc =>
          processar_arquivos resto
            (<[chave := {| nomeOriginal := originalname fileInfo;
                           caminho := path fileInfo;
                           relatorio_mimetype := mimetype fileInfo;
                           processado := proc |}]> resultado)
      end
  end.

Definition prepararRodada1 (fornecedor : jsval)
    (arquivos : option (list (jsstring * option FileInfo))) : option Rodada1 :=
  match processar_arquivos (default [] arquivos) ∅ with
  | None => None
  | Some resultado =>
      Some {| rodada1_fornecedor := fornecedor;
              rodada1_status := JS.lit "arquivos_processados";
              relatorios := resultado |}
  end.

End Rodada1.

(** ** Round 2: the reconciliation

    The processed report of round 1 is read through four fields; the
    chat completion of the external service and [JSON.parse] are
    parameters. *)

(** [a || b] on values that are null or strings. *)
Definition ou (a b : jsval) : jsval := if JS.falsy a then b else a.

(** [x || null] on numbers: zero and NaN are falsy. *)
Definition numero_ou_null (x : option number) : option number :=
  match x with
  | Some (S754_zero _) | Some S754_nan | None => None
  | Some _ => x
  end.

Section Rodada2.
Context `{UnicodeData}.
Variable Processado : Type.
Variables tipo preview conteudoTexto : Processado -> jsval.
Variable tamanhoTexto : Processado -> option number.
Variable Json : Type.
Variable JSON_parse : jsstring -> option Json.
Variable json_truthy : Json -> bool.

(** An entry of [relatoriosProcessados]. *)
Record Info := {
  info_nomeOriginal : jsval;
  info_processado : option Processado
}.

(** An entry of [relatoriosResumidos]. *)
Record Resumo := {
  resumo_nomeOriginal : jsval;
  resumo_tipo : jsval;
  resumo_tamanhoTexto : option number;
  resumo_preview : jsval;
  trechoConteudo : jsval
}.

Record EntradaIA := {
  entrada_fornecedor : jsval;
  entrada_relatorios : gmap jsstring Resumo;
  entrada_indicadoresFornecedor : gmap jsstring Indicador;
  entrada_avaliacaoAutomaticaSaldo : Avaliacao
}.

(** [estrutura]: the diagnosis written locally when the vendor is not
    in the ledger (a fixed object that quotes the vendor name), or the
    value parsed from the answer of the service. *)
Inductive Estrutura :=
| estrutura_fornecedor_ausente (fornecedor : jsval)
| estrutura_ia (j : Json).

(** The object returned by [realizarConciliacao]; [mensagem] is a fixed
    text where present. *)
Record Conciliacao := {
  conciliacao_fornecedor : jsval;
  simulacao : bool;
  status : jsstring;
  modelo : jsval;
  entradaIA : option EntradaIA;
  estrutura : option Estrutura;
  respostaBruta : jsval;
  detalhe : jsval
}.

(** What [openai.chat.completions.create] gives: an exception with its
    message, or [choices?.[0]?.message?.content]. *)
Inductive RespostaChat :=
| chat_falha (mensagem : jsval)
| chat_conteudo (content : jsval).

(** The function either returns, or calls the service once and returns
    from its answer.  The request is identified with the client and the
    data quoted in the prompt. *)
Inductive Interacao :=
| Retorna (r : Conciliacao)
| Chama (cliente : OpenAI) (entrada : EntradaIA) (k : RespostaChat -> Conciliacao).

(** [relatoriosProcessados?.[chave]?.processado] *)
Definition processado_de (relatoriosProcessados : option (gmap jsstring (option Info)))
    (chave : jsstring) : option Processado :=
  match relatoriosProcessados with
  | Some m =>
      match m !! chave with
      | Some (Some info) => info_processado info
      | _ => None
      end
  | None => None
  end.

(** A field of an optional processed report. *)
Definition campo (f : Processado -> jsval) (proc : option Processado) : jsval :=
  match proc with
  | Some p => f p
  | None => None
  end.

(** The body of the loop that fills [relatoriosResumidos]. *)
Definition resumir (info : option Info) : Resumo :=
  let proc := match info with Some i => info_processado i | None => None end in
  {| resumo_nomeOriginal :=
       ou (match info with Some i => info_nomeOriginal i | None => None end) None;
     resumo_tipo := ou (campo tipo proc) None;
     resumo_tamanhoTexto :=
       numero_ou_null (match proc with Some p => tamanhoTexto p | None => None end);
     resumo_preview := ou (campo preview proc) None;
     trechoConteudo :=
       if JS.falsy (campo conteudoTexto proc) then None
       else Some (List.firstn (Z.to_nat 8000) (JS.to_string (campo conteudoTexto proc))) |}.

(** The texts whose indicators are computed. *)
Definition razaoTextoCompleto
    (relatoriosProcessados : option (gmap jsstring (option Info))) : jsstring :=
  let razaoProcessado := processado_de relatoriosProcessados (JS.lit "razao") in
  JS.to_string
    (ou (ou (campo conteudoTexto razaoProcessado) (campo preview razaoProcessado))
        (Some [])).

Definition textosCompletos
    (relatoriosProcessados : option (gmap jsstring (option Info)))
  : gmap jsstring jsstring :=
  <[JS.lit "contas_pagar" :=
      JS.to_string
        (ou (campo conteudoTexto
               (processado_de relatoriosProcessados (JS.lit "contas_pagar")))
            (Some []))]>
    (<[JS.lit "balancete" :=
         JS.to_string
           (ou (campo conteudoTexto
                  (processado_de relatoriosProcessados (JS.lit "balancete")))
               (Some []))]>
       (<[JS.lit "razao" := razaoTextoCompleto relatoriosProcessados]> ∅)).

(** The [respostaBruta] of the local diagnosis, "Fornecedor não
    encontrado na razão. Diagnóstico gerado sem chamada ao modelo de
    IA.": its letters outside ASCII are given by their code units (227
    for a with tilde, 243 for o with acute accent). *)
Definition resposta_sem_ia : jsstring :=
  JS.lit "Fornecedor n" ++ [227] ++ JS.lit "o encontrado na raz" ++ [227]
  ++ JS.lit "o. Diagn" ++ [243]
  ++ JS.lit "stico gerado sem chamada ao modelo de IA.".

(** The end of [realizarConciliacao], from the answer of the service. *)
Definition concluir (fornecedor : jsval) (simulacao : bool) (entrada : EntradaIA)
    (resposta : RespostaChat) : Conciliacao :=
  match resposta with
  | chat_falha mensagem =>
      {| conciliacao_fornecedor := fornecedor; simulacao := simulacao;
         status := JS.lit "erro_openai"; modelo := None; entradaIA := None;
         estrutura := None; respostaBruta := None; detalhe := mensagem |}
  | chat_conteudo content =>
      let rawContent :=
        JS.to_string
          (ou (match content with Some c => Some (JS.trim c) | None => None end)
              (Some [])) in
      let estruturaJson := JSON_parse rawContent in
      {| conciliacao_fornecedor := fornecedor; simulacao := simulacao;
         status :=
           if match estruturaJson with Some j => json_truthy j | None => false end
           then JS.lit "conciliacao_gerada" else JS.lit "conciliacao_texto";
         modelo := Some (JS.lit "gpt-4.1-mini");
         entradaIA := Some entrada;
         estrutura := option_map estrutura_ia estruturaJson;
         respostaBruta := Some rawContent; detalhe := None |}
  end.

Definition realizarConciliacao (env : jsval) (openaiClient : option OpenAI)
    (fornecedor : jsval)
    (relatoriosProcessados : option (gmap jsstring (option Info)))
    (simulacao : bool) : Interacao * option OpenAI :=
  let '(openai, cache) := getOpenAIClient env openaiClient in
  match openai with
  | None =>
      (Retorna {| conciliacao_fornecedor := fornecedor; simulacao := simulacao;
                  status := JS.lit "erro_openai"; modelo := None; entradaIA := None;
                  estrutura := None; respostaBruta := None; detalhe := None |},
       cache)
  | Some cliente =>
      let texto := razaoTextoCompleto relatoriosProcessados in
      if negb (fornecedorExisteNaRazao fornecedor (Some texto)) then
        (Retorna {| conciliacao_fornecedor := fornecedor; simulacao := simulacao;
                    status := JS.lit "conciliacao_gerada";
                    modelo := Some (JS.lit "regra_local_sem_ia");
                    entradaIA := None;
                    estrutura := Some (estrutura_fornecedor_ausente fornecedor);
                    respostaBruta := Some resposta_sem_ia; detalhe := None |},
         cache)
      else
        let relatoriosResumidos := resumir <$> default ∅ relatoriosProcessados in
        let r := montarIndicadoresFornecedor fornecedor
                   (textosCompletos relatoriosProcessados) in
        let entrada :=
          {| entrada_fornecedor := fornecedor;
             entrada_relatorios := relatoriosResumidos;
             entrada_indicadoresFornecedor := indicadoresFornecedor r;
             entrada_avaliacaoAutomaticaSaldo := avaliacaoAutomaticaSaldo r |} in
        (Chama cliente entrada (concluir fornecedor simulacao entrada), cache)
  end.

End Rodada2.

Arguments Retorna {Json}.
Arguments Chama {Json}.
Arguments estrutura_fornecedor_ausente {Json}.
Arguments estrutura_ia {Json}.
Arguments conciliacao_fornecedor {Json}.
Arguments simulacao {Json}.
Arguments status {Json}.
Arguments modelo {Json}.
Arguments entradaIA {Json}.
Arguments estrutura {Json}.
Arguments respostaBruta {Json}.
Arguments detalhe {Json}.
Arguments info_nomeOriginal {Processado}.
Arguments info_processado {Processado}.

(** ** Reading of the specification

    The definitions below follow the words of the specification; the
    theorems compare them with the functions above. *)

Section Specification.
Context `{UnicodeData}.

(** The SourceIndicator of one source: its line matches, and the
    balances parsed from their last values. *)
Definition indicador_de (fornecedor : jsval) (texto : jsstring) : Indicador :=
  let linhas := extrairLinhasFornecedor (Some texto) fornecedor in
  {| linhasFornecedor := linhas; saldosEncontrados := saldos_das_linhas linhas |}.

Definition indicador_vazio : Indicador :=
  {| linhasFornecedor := []; saldosEncontrados := [] |}.

(** The parsed balances of a source in the output mapping. *)
Definition balances (ind : gmap jsstring Indicador) (k : jsstring) : list number :=
  List.map numero (saldosEncontrados (default indicador_vazio (ind !! k))).

(** [present]: the canonical sources with at least one parsed balance. *)
Definition present (ind : gmap jsstring Indicador) : list jsstring :=
  List.filter (fun k => negb (bool_decide (balances ind k = []))) chavesRelatorios.

(** Every parsed balance of the present sources. *)
Definition pooled (ind : gmap jsstring Indicador) : list number :=
  List.flat_map (balances ind) (present ind).

(** [t] occurs in [s]. *)
Definition substring (t s : jsstring) : Prop :=
  exists pre post, s = pre ++ t ++ post.

(** [x] begins with a decimal digit. *)
Definition starts_with_digit (x : jsstring) : Prop :=
  exists c r, x = c :: r /\ JS.is_digit c = true.

(** [saldosNumericosPorRelatorio] as the loop leaves it: the keys with
    at least one balance, in the order of [ks], each with its numbers. *)
Definition saldos_numericos (b : jsstring -> list number) (ks : list jsstring)
  : list (jsstring * list number) :=
  List.flat_map (fun k => if (0 <? length (b k))%nat then [(k, b k)] else []) ks.

(** One space for every run of spaces. *)
Definition colapsar_espacos (s : jsstring) : jsstring :=
  JS.replace_runs (fun c => c =? JS.SP) s.

(** The code units of a normalized text: lower-case Basic Latin
    letters, digits, the underscore and the space. *)
Definition normalized_unit (c : Z) : bool :=
  JS.in_range 97 122 c || JS.is_digit c || (c =? 95) || (c =? JS.SP).

(** Basic Latin (ASCII). *)
Definition is_ascii (c : Z) : bool := JS.in_range 0 127 c.

(** The supported format of a monetary value: one to three digits,
    groups of a point and three digits, a comma and two digits. *)
Inductive grupos : jsstring -> Prop :=
| grupos_nil : grupos []
| grupos_cons a b c r :
    JS.is_digit a = true -> JS.is_digit b = true -> JS.is_digit c = true ->
    grupos r -> grupos (46 :: a :: b :: c :: r).

Definition valor_monetario (x : jsstring) : Prop :=
  exists ds gs d1 d2,
    x = ds ++ gs ++ [44; d1; d2]
    /\ (1 <= length ds <= 3)%nat /\ Forall (fun c => JS.is_digit c = true) ds
    /\ grupos gs /\ JS.is_digit d1 = true /\ JS.is_digit d2 = true.

(** [xs] occur in [s] one after the other, without overlap. *)
Inductive intercalado : list jsstring -> jsstring -> Prop :=
| intercalado_nil s : intercalado [] s
| intercalado_cons gap x xs rest :
    intercalado xs rest -> intercalado (x :: xs) (gap ++ x ++ rest).

(** The amount in hundredths: the digits of a value read as one
    integer. *)
Definition centavos (x : jsstring) : Z :=
  Number.digits_value (List.filter JS.is_digit x).

(** The code units [parseValorMonetario] looks at: digits, commas and
    minus signs. *)
Definition relevante (c : Z) : bool :=
  JS.is_digit c || (c =? 44) || (c =? 45).

(** The score as the source computes it, [encontrados / tokensAlvo.length]
    on doubles, and the two thresholds as doubles. *)
Definition score_binary64 (k n : nat) : number :=
  Number.div (Number.of_ratio false (Z.of_nat k) 1)
             (Number.of_ratio false (Z.of_nat n) 1).

Definition LIMIAR_PRESENCA_binary64 : number := Number.of_decimal false 7 (-1).
Definition LIMIAR_EXTRACAO_binary64 : number := Number.of_decimal false 6 (-1).

(** For [n] tokens, the comparisons on doubles and on exact quotients
    agree whatever the number of tokens found. *)
Definition limiares_concordam (n : nat) : bool :=
  List.forallb
    (fun k =>
       Bool.eqb (Number.leb LIMIAR_PRESENCA_binary64 (score_binary64 k n))
                (Qle_bool LIMIAR_PRESENCA (Z.of_nat k # Pos.of_nat n))
       && Bool.eqb (Number.leb LIMIAR_EXTRACAO_binary64 (score_binary64 k n))
                   (Qle_bool LIMIAR_EXTRACAO (Z.of_nat k # Pos.of_nat n)))
    (List.seq 0 (S n)).

(** The all-empty result: an empty indicator under each canonical key
    and the verdict [dados_insuficientes]. *)
Definition resultado_vazio : Resultado :=
  {| indicadoresFornecedor :=
       list_to_map (List.map (fun k => (k, indicador_vazio)) chavesRelatorios);
     avaliacaoAutomaticaSaldo := dados_insuficientes |}.

(** Some line of [doc] has at least 70% of the tokens. *)
Definition linha_presente (tokens : list jsstring) (doc : jsstring) : Prop :=
  exists l, In l (JS.split_lines doc)
    /\ (7 * length tokens <= 10 * encontrados tokens (normalizarTexto (Some l)))%nat.

End Specification.

(** The least and the greatest element of a list of numbers, the
    first of a non-empty list standing for both to begin with. *)
Definition minimum (l : list number) : number :=
  match l with
  | [] => Number.NaN
  | x :: r => List.fold_left (fun m y => if Number.ltb y m then y else m) r x
  end.

Definition maximum (l : list number) : number :=
  match l with
  | [] => Number.NaN
  | x :: r => List.fold_left (fun m y => if Number.ltb m y then y else m) r x
  end.

(** The verdict as the specification words it. *)
Definition verdict (present : list jsstring) (pooled : list number) : Avaliacao :=
  if (length present <? 2)%nat then dados_insuficientes
  else
    let min := minimum pooled in
    let max := maximum pooled in
    if Number.leb (Number.sub max min) TOLERANCIA then
      saldos_iguais (Number.toFixed2 (Number.div (Number.add min max) DOIS))
    else saldos_diferentes.

(** * Properties *)

Set Warnings "-inexact-float".

(** ** MonetaryParser *)

Section LimpoFacts.
Import JS.

Lemma replace_first_alphabet (P : Z -> Prop) a b s :
  P b -> Forall P s -> Forall P (Number.replace_first a b s).
Proof.
  intros Hb. induction 1 as [|c r Hc Hr IH]; simpl; [constructor|].
  destruct (c =? a); constructor; auto.
Qed.

(** After cleaning, only digits, commas, minus signs and the decimal
    point put in place of the first comma are left. *)
Lemma limpo_alphabet s :
  Forall (fun c => is_digit c || (c =? 44) || (c =? 45) || (c =? 46) = true)
    (limpo s).
Proof.
  unfold limpo. apply replace_first_alphabet; [reflexivity|].
  apply List.Forall_forall. intros c Hc.
  apply List.filter_In in Hc as [_ Hc].
  apply negb_true_iff, negb_false_iff in Hc. rewrite Hc. reflexivity.
Qed.

Lemma replace_first_digits a b s :
  is_digit a = false -> is_digit b = false ->
  List.filter is_digit (Number.replace_first a b s) = List.filter is_digit s.
Proof.
  intros Ha Hb. induction s as [|c r IH]; simpl; [reflexivity|].
  destruct (Z.eqb_spec c a) as [->|Hne]; simpl.
  - rewrite Ha, Hb. reflexivity.
  - rewrite IH. reflexivity.
Qed.

(** Cleaning keeps the digits, in order. *)
Lemma limpo_digits s :
  List.filter is_digit (limpo s) = List.filter is_digit s.
Proof.
  unfold limpo. rewrite replace_first_digits by reflexivity.
  unfold remove_all.
  induction s as [|c r IH]; simpl; [reflexivity|].
  destruct (Z.eqb_spec c 46) as [->|Hne]; simpl; [exact IH|].
  destruct (is_digit c) eqn:Hd; simpl.
  - rewrite Hd. f_equal. exact IH.
  - destruct ((c =? 44) || (c =? 45)); simpl; [rewrite Hd|]; exact IH.
Qed.

End LimpoFacts.

Lemma parseValorMonetario_finite v x :
  parseValorMonetario v = Some x -> Number.isFinite x = true.
Proof.
  unfold parseValorMonetario. destruct (JS.falsy v); [discriminate|].
  destruct (Number.isFinite _) eqn:E; [|discriminate].
  intros [= <-]. exact E.
Qed.

(** C3.  [parseValorMonetario] on the four strings of the specification,
    and in general: the digits of the input are kept in order and only
    digits, commas, minus signs and one decimal point reach
    [parseFloat]; the result is [null] exactly when the input is
    null/empty or the parse is not a finite number, and the function is
    total. *)
Theorem parseValorMonetario_spec :
  parseValorMonetario (Some (JS.lit "42.151,99")) = Some (Prim2SF 42151.99%float)
  /\ parseValorMonetario (Some (JS.lit "1.234.567,00")) = Some (Prim2SF 1234567.00%float)
  /\ parseValorMonetario (Some (JS.lit "")) = None
  /\ parseValorMonetario (Some (JS.lit "abc")) = None
  /\ parseValorMonetario None = None
  /\ (forall s,
        List.filter JS.is_digit (limpo s) = List.filter JS.is_digit s
        /\ Forall (fun c => JS.is_digit c || (c =? 44) || (c =? 45) || (c =? 46) = true)
             (limpo s))
  /\ (forall v,
        parseValorMonetario v =
          if JS.falsy v then None
          else if Number.isFinite (Number.parseFloat (limpo (JS.to_string v)))
               then Some (Number.parseFloat (limpo (JS.to_string v)))
               else None)
  /\ (forall v, parseValorMonetario v = None <->
        JS.falsy v = true
        \/ Number.isFinite (Number.parseFloat (limpo (JS.to_string v))) = false).
Proof.
  do 5 (split; [vm_compute; reflexivity|]).
  split; [|split].
  - intros s. split; [apply limpo_digits|apply limpo_alphabet].
  - reflexivity.
  - intros v. unfold parseValorMonetario. split.
    + destruct (JS.falsy v); [auto|].
      destruct (Number.isFinite _); [discriminate|auto].
    + intros [->| ->]; [reflexivity|].
      destruct (JS.falsy v); reflexivity.
Qed.

(** C9.  Only the first comma becomes a decimal point: the input
    ["1,23,45"] is cleaned to ["1.23,45"], and [parseFloat] reads the
    prefix ["1.23"], so the result is the number 1.23 and not [null]. *)
Theorem parseValorMonetario_first_comma_only :
  limpo (JS.lit "1,23,45") = JS.lit "1.23,45"
  /\ parseValorMonetario (Some (JS.lit "1,23,45")) = Some (Prim2SF 1.23%float)
  /\ parseValorMonetario (Some (JS.lit "1,23,45")) = parseValorMonetario (Some (JS.lit "1,23")).
Proof. repeat split; vm_compute; reflexivity. Qed.


(** ** The monetary pattern *)

Section RegexFacts.
Import JS Regex.

Lemma digit_not_sep c : is_digit c = true -> (c =? 44) = false /\ (c =? 46) = false.
Proof. unfold is_digit, in_range. lia. Qed.

(** Neither a group nor the decimal part can start at a digit. *)
Lemma match_groups_tail_digit c s :
  is_digit c = true -> match_groups_tail (c :: s) = None.
Proof.
  intros Hc. destruct (digit_not_sep c Hc) as [H44 H46].
  destruct s as [|a [|b [|d r]]]; simpl; rewrite ?H44, ?H46; reflexivity.
Qed.

(** Inside a run of digits that goes on for more than three code units
    the pattern does not match. *)
Lemma match_valor_at_long_run a b c d s :
  is_digit b = true -> is_digit c = true -> is_digit d = true ->
  match_valor_at (a :: b :: c :: d :: s) = None.
Proof.
  intros Hb Hc Hd. unfold match_valor_at, match_with_digits.
  cbn [List.firstn List.skipn].
  rewrite !match_groups_tail_digit by assumption.
  repeat match goal with |- context [if ?x then None else None] => destruct x end;
    reflexivity.
Qed.

(** Three digits, a comma and two digits are matched whole. *)
Lemma match_valor_at_three a b c d1 d2 s :
  is_digit a = true -> is_digit b = true -> is_digit c = true ->
  is_digit d1 = true -> is_digit d2 = true ->
  match_valor_at (a :: b :: c :: 44 :: d1 :: d2 :: s) = Some 6%nat.
Proof.
  intros Ha Hb Hc H1 H2. unfold match_valor_at, match_with_digits.
  cbn [List.firstn List.skipn List.forallb length Nat.eqb].
  rewrite Ha, Hb, Hc. cbn [andb].
  destruct s as [|x s]; simpl; rewrite H1, H2; reflexivity.
Qed.

Lemma exec_all_from_cons x r :
  exec_all_from 0 (x :: r) =
    match match_valor_at (x :: r) with
    | Some n => List.firstn n (x :: r) :: exec_all_from (n - 1) r
    | None => exec_all_from 0 r
    end.
Proof. reflexivity. Qed.

Lemma exec_all_long_run run d1 d2 rest :
  Forall (fun c => is_digit c = true) run -> (3 <= length run)%nat ->
  is_digit d1 = true -> is_digit d2 = true ->
  exec_all (run ++ 44 :: d1 :: d2 :: rest) =
    (List.skipn (length run - 3) run ++ [44; d1; d2]) :: exec_all rest.
Proof.
  intros Hrun Hlen H1 H2. unfold exec_all.
  induction Hrun as [|a run Ha Hrun IH]; [simpl in Hlen; lia|].
  destruct run as [|b [|c [|d run']]]; try (simpl in Hlen; lia).
  - inversion Hrun as [|? ? Hb Hrun']; subst.
    inversion Hrun' as [|? ? Hc _]; subst.
    cbn [app]. rewrite exec_all_from_cons.
    rewrite match_valor_at_three by assumption.
    reflexivity.
  - inversion Hrun as [|? ? Hb Hrun']; subst.
    inversion Hrun' as [|? ? Hc Hrun'']; subst.
    inversion Hrun'' as [|? ? Hd _]; subst.
    change ((a :: b :: c :: d :: run') ++ 44 :: d1 :: d2 :: rest)
      with (a :: b :: c :: d :: (run' ++ 44 :: d1 :: d2 :: rest)).
    rewrite exec_all_from_cons.
    rewrite match_valor_at_long_run by assumption.
    change (b :: c :: d :: run' ++ 44 :: d1 :: d2 :: rest)
      with ((b :: c :: d :: run') ++ 44 :: d1 :: d2 :: rest).
    rewrite IH by (simpl; lia).
    f_equal. f_equal.
    replace (length (a :: b :: c :: d :: run') - 3)%nat
      with (S (length (b :: c :: d :: run') - 3)) by (simpl; lia).
    reflexivity.
Qed.

End RegexFacts.

(** C10.  The pattern has no boundary anchor.  For a run of more than
    three digits followed by a comma and two digits, the scan captures
    the last three digits of the run with the decimals, a proper suffix
    of the number written; on the accepted line ["ACME 1234,56"] the
    captured value, the last value and the parsed balance are those of
    ["234,56"]. *)
Theorem exec_all_truncates_long_run run d1 d2 rest :
  Forall (fun c => JS.is_digit c = true) run -> (3 < length run)%nat ->
  JS.is_digit d1 = true -> JS.is_digit d2 = true ->
  Regex.exec_all (run ++ 44 :: d1 :: d2 :: rest) =
    (List.skipn (length run - 3) run ++ [44; d1; d2]) :: Regex.exec_all rest
  /\ (length (List.skipn (length run - 3) run) < length run)%nat
  /\ (let linhas :=
        extrairLinhasFornecedor (Some (JS.lit "ACME 1234,56")) (Some (JS.lit "acme")) in
      List.map numerosMonetarios linhas = [[JS.lit "234,56"]]
      /\ List.map ultimoNumero linhas = [Some (JS.lit "234,56")]
      /\ List.map numero (saldos_das_linhas linhas) = [Prim2SF 234.56%float]).
Proof.
  intros Hrun Hlen H1 H2. split; [|split].
  - apply exec_all_long_run; auto. lia.
  - rewrite List.length_skipn. lia.
  - vm_compute. repeat split; reflexivity.
Qed.

Lemma exec_all_truncates_long_run_witness :
  Regex.exec_all (JS.lit "1234" ++ 44 :: 53 :: 54 :: []) =
    (List.skipn (length (JS.lit "1234") - 3) (JS.lit "1234") ++ [44; 53; 54])
      :: Regex.exec_all [].
Proof.
  refine (proj1 (exec_all_truncates_long_run (JS.lit "1234") 53 54 [] _ _ _ _)).
  - vm_compute. repeat constructor.
  - vm_compute. lia.
  - reflexivity.
  - reflexivity.
Defined.


(** ** TextNormalizer *)

Section NormalizerFacts.
Context `{UnicodeData}.
Import JS.

Lemma normalizarTexto_falsy v : falsy v = true -> normalizarTexto v = [].
Proof. unfold normalizarTexto. intros ->. reflexivity. Qed.

Lemma normalizarTexto_nonempty v : normalizarTexto v <> [] -> falsy v = false.
Proof.
  intros Hne. destruct (falsy v) eqn:E; [|reflexivity].
  elim Hne. apply normalizarTexto_falsy, E.
Qed.

Lemma falsy_Some_nil_iff (s : jsstring) : falsy (Some s) = true <-> s = [].
Proof. destruct s; simpl; split; congruence. Qed.

Lemma startsWith_nil_r s : startsWith s [] = true.
Proof. destruct s; reflexivity. Qed.

Lemma includes_nil_r s : includes s [] = true.
Proof. destruct s; reflexivity. Qed.

Lemma includes_nil_l t : t <> [] -> includes [] t = false.
Proof. destruct t; [congruence|reflexivity]. Qed.

End NormalizerFacts.

(** C4.  [normalizarTexto] is not idempotent: punctuation is turned
    into spaces after the runs of white space have been collapsed, so
    ["a, b"] is normalized to ["a  b"] (two spaces), which a second
    pass collapses to ["a b"]. *)
Theorem normalizarTexto_not_idempotent :
  normalizarTexto (Some (JS.lit "a, b")) = JS.lit "a  b"
  /\ normalizarTexto (Some (normalizarTexto (Some (JS.lit "a, b")))) = JS.lit "a b"
  /\ normalizarTexto (Some (normalizarTexto (Some (JS.lit "a, b"))))
     <> normalizarTexto (Some (JS.lit "a, b")).
Proof. repeat split; try (vm_compute; reflexivity). vm_compute. discriminate. Qed.

(** ** VendorMatcher *)

(** C5, as stated: a vendor name made of punctuation only normalizes to
    the empty string, which is a substring of every normalized
    document, and the answer is [false]. *)
Lemma fornecedorExisteNaRazao_substring_empty_alvo :
  JS.includes (normalizarTexto (Some (JS.lit "razao de fornecedores")))
    (normalizarTexto (Some (JS.lit "---"))) = true
  /\ fornecedorExisteNaRazao (Some (JS.lit "---"))
       (Some (JS.lit "razao de fornecedores")) = false.
Proof. split; vm_compute; reflexivity. Qed.

(** C5, amended.  When the normalized vendor name is not empty and is a
    substring of the normalized document, [fornecedorExisteNaRazao]
    answers [true], whatever the lines of the document are. *)
Theorem fornecedorExisteNaRazao_substring `{UnicodeData}
    (nomeFornecedor textoRazaoBruto : jsval) :
  normalizarTexto nomeFornecedor <> [] ->
  JS.includes (normalizarTexto textoRazaoBruto) (normalizarTexto nomeFornecedor) = true ->
  fornecedorExisteNaRazao nomeFornecedor textoRazaoBruto = true.
Proof.
  intros Hne Hinc. unfold fornecedorExisteNaRazao.
  rewrite (normalizarTexto_nonempty _ Hne).
  destruct (JS.falsy textoRazaoBruto) eqn:Ed.
  - rewrite (normalizarTexto_falsy _ Ed), (includes_nil_l _ Hne) in Hinc.
    discriminate.
  - cbn [orb].
    destruct (JS.falsy (Some (normalizarTexto nomeFornecedor))) eqn:Ea.
    + apply falsy_Some_nil_iff in Ea. contradiction.
    + rewrite Hinc. reflexivity.
Qed.

Lemma fornecedorExisteNaRazao_substring_witness :
  fornecedorExisteNaRazao (Some (JS.lit "ACME Distribuidora"))
    (Some (JS.lit "10/2024 Acme  distribuidora LTDA 42.151,99")) = true.
Proof.
  apply (fornecedorExisteNaRazao_substring (H := latin1)).
  - vm_compute. discriminate.
  - vm_compute. reflexivity.
Defined.


(** ** IndicatorAggregator: the source keys *)

Section AggregatorFacts.
Context `{UnicodeData}.

Lemma montar_indicadores fornecedor textos :
  indicadoresFornecedor (montarIndicadoresFornecedor fornecedor textos) =
    <[JS.lit "razao" := indicador_de fornecedor (default [] (textos !! JS.lit "razao"))]>
      (<[JS.lit "contas_pagar" :=
           indicador_de fornecedor (default [] (textos !! JS.lit "contas_pagar"))]>
         (<[JS.lit "balancete" :=
              indicador_de fornecedor (default [] (textos !! JS.lit "balancete"))]> ∅)).
Proof. reflexivity. Qed.

Lemma chave_cases (k : jsstring) :
  k ∈ chavesRelatorios ->
  k = JS.lit "balancete" \/ k = JS.lit "contas_pagar" \/ k = JS.lit "razao".
Proof.
  unfold chavesRelatorios. rewrite !elem_of_cons, elem_of_nil. tauto.
Qed.

Lemma montar_lookup fornecedor textos k :
  k ∈ chavesRelatorios ->
  indicadoresFornecedor (montarIndicadoresFornecedor fornecedor textos) !! k =
    Some (indicador_de fornecedor (default [] (textos !! k))).
Proof.
  intros Hk. rewrite montar_indicadores.
  destruct (chave_cases k Hk) as [-> | [-> | ->]].
  - rewrite lookup_insert_ne by (vm_compute; discriminate).
    rewrite lookup_insert_ne by (vm_compute; discriminate).
    apply lookup_insert_eq.
  - rewrite lookup_insert_ne by (vm_compute; discriminate).
    apply lookup_insert_eq.
  - apply lookup_insert_eq.
Qed.


Lemma indicador_de_empty fornecedor : indicador_de fornecedor [] = indicador_vazio.
Proof. reflexivity. Qed.

End AggregatorFacts.



(** ** Degenerate inputs *)

Section Degenerate.
Context `{UnicodeData}.

Lemma fornecedorExisteNaRazao_falsy v d :
  JS.falsy v = true \/ JS.falsy d = true -> fornecedorExisteNaRazao v d = false.
Proof.
  unfold fornecedorExisteNaRazao. intros [-> | ->]; [reflexivity|].
  rewrite orb_true_r. reflexivity.
Qed.

Lemma extrairLinhasFornecedor_falsy d v :
  JS.falsy v = true \/ JS.falsy d = true -> extrairLinhasFornecedor d v = [].
Proof.
  unfold extrairLinhasFornecedor. intros [-> | ->]; [|reflexivity].
  rewrite orb_true_r. reflexivity.
Qed.

Lemma montar_sem_linhas fornecedor textos :
  (forall k, k ∈ chavesRelatorios ->
     extrairLinhasFornecedor (Some (default [] (textos !! k))) fornecedor = []) ->
  montarIndicadoresFornecedor fornecedor textos = resultado_vazio.
Proof.
  intros Hvazio. unfold montarIndicadoresFornecedor, chavesRelatorios in *.
  cbn [List.fold_left]. unfold passo.
  rewrite !(Hvazio (JS.lit "balancete")), !(Hvazio (JS.lit "contas_pagar")),
    !(Hvazio (JS.lit "razao")) by (rewrite !elem_of_cons; tauto).
  vm_compute. reflexivity.
Qed.

End Degenerate.

(** ** LineExtractor: scores *)

Section ScoreFacts.
Context `{UnicodeData}.

Lemma encontrados_count_from tokens linha n :
  List.fold_left (fun n token => if JS.includes linha token then S n else n) tokens n
  = (n + length (List.filter (JS.includes linha) tokens))%nat.
Proof.
  revert n. induction tokens as [|t ts IH]; intros n; simpl; [lia|].
  rewrite IH. destruct (JS.includes linha t); simpl; lia.
Qed.

(** The counter of the inner loop is the number of tokens found. *)
Lemma encontrados_count tokens linha :
  encontrados tokens linha = length (List.filter (JS.includes linha) tokens).
Proof. unfold encontrados. apply encontrados_count_from. Qed.

Lemma encontrados_le tokens linha : (encontrados tokens linha <= length tokens)%nat.
Proof. rewrite encontrados_count. apply List.filter_length_le. Qed.

Lemma Zpos_of_nat n : (0 < n)%nat -> Zpos (Pos.of_nat n) = Z.of_nat n.
Proof.
  intros Hn. destruct n as [|n]; [lia|].
  rewrite <- Pos.of_nat_succ, Zpos_P_of_succ_nat. lia.
Qed.

Lemma score_bounds tokens linha :
  (0 < length tokens)%nat ->
  (0 <= score tokens linha)%Q /\ (score tokens linha <= 1)%Q.
Proof.
  intros Hn. pose proof (encontrados_le tokens linha) as Hle.
  unfold score, Qle. cbn [Qnum Qden]. rewrite Zpos_of_nat by assumption.
  split; lia.
Qed.

Lemma linhas_fornecedor_omap tokens linhas :
  linhas_fornecedor tokens linhas = omap (linha_fornecedor tokens) linhas.
Proof.
  induction linhas as [|l ls IH]; [reflexivity|].
  cbn [linhas_fornecedor omap list_omap]. rewrite IH.
  destruct (linha_fornecedor tokens l); reflexivity.
Qed.

Lemma linha_fornecedor_Some tokens l e :
  (0 < length tokens)%nat ->
  linha_fornecedor tokens l = Some e ->
  linhaNormalizada e = normalizarTexto (Some l)
  /\ linhaNormalizada e <> []
  /\ scoreMatch e = score tokens (linhaNormalizada e)
  /\ Qle_bool LIMIAR_EXTRACAO (scoreMatch e) = true.
Proof.
  intros Hn. unfold linha_fornecedor.
  destruct (JS.falsy (Some (normalizarTexto (Some l)))) eqn:Ef; [discriminate|].
  destruct (Nat.eqb_spec (length tokens) 0) as [E0|_]; [lia|].
  destruct (Qle_bool LIMIAR_EXTRACAO _) eqn:Eq; [|discriminate].
  intros [= <-]. cbn [linhaNormalizada scoreMatch].
  repeat split; auto.
  intros E. rewrite E in Ef. discriminate.
Qed.

(** A line whose score is below the extraction threshold gives no entry. *)
Lemma linha_fornecedor_below tokens l :
  (0 < length tokens)%nat ->
  (score tokens (normalizarTexto (Some l)) < LIMIAR_EXTRACAO)%Q ->
  linha_fornecedor tokens l = None.
Proof.
  intros Hn Hlt. unfold linha_fornecedor.
  destruct (JS.falsy _); [reflexivity|].
  destruct (Nat.eqb_spec (length tokens) 0) as [E0|_]; [lia|].
  destruct (Qle_bool LIMIAR_EXTRACAO _) eqn:Eq; [|reflexivity].
  apply Qle_bool_iff in Eq. apply Qle_not_lt in Eq. contradiction.
Qed.

Lemma extrairLinhasFornecedor_cases d v :
  extrairLinhasFornecedor d v = []
  \/ ((0 < length (tokensAlvo (normalizarTexto v)))%nat
      /\ extrairLinhasFornecedor d v =
           omap (linha_fornecedor (tokensAlvo (normalizarTexto v)))
             (JS.split_lines (JS.to_string d))).
Proof.
  unfold extrairLinhasFornecedor.
  destruct (JS.falsy d || JS.falsy v); [left; reflexivity|].
  destruct (JS.falsy (Some (normalizarTexto v))); [left; reflexivity|].
  destruct (Nat.eqb_spec (length (tokensAlvo (normalizarTexto v))) 0) as [E0|Hne];
    [left; reflexivity|].
  right. split; [lia|]. apply linhas_fornecedor_omap.
Qed.

End ScoreFacts.

(** C6.  Every entry returned by [extrairLinhasFornecedor] has a score
    of at least 0.60 that lies in [0,1] and is the number of vendor
    tokens (of length above 2) found in its normalized line over the
    number of such tokens; the entries are those of the raw lines in
    order, and a line scoring below 0.60 gives no entry. *)
Theorem extrairLinhasFornecedor_scores `{UnicodeData}
    (textoBruto nomeFornecedor : jsval) (e : LinhaFornecedor) :
  In e (extrairLinhasFornecedor textoBruto nomeFornecedor) ->
  let tokens := tokensAlvo (normalizarTexto nomeFornecedor) in
  let found := length (List.filter (JS.includes (linhaNormalizada e)) tokens) in
  (0 < length tokens)%nat
  /\ Forall (fun t => (2 < length t)%nat) tokens
  /\ (found <= length tokens)%nat
  /\ scoreMatch e = Z.of_nat found # Pos.of_nat (length tokens)
  /\ (LIMIAR_EXTRACAO <= scoreMatch e)%Q
  /\ (0 <= scoreMatch e)%Q /\ (scoreMatch e <= 1)%Q
  /\ extrairLinhasFornecedor textoBruto nomeFornecedor =
       omap (linha_fornecedor tokens) (JS.split_lines (JS.to_string textoBruto))
  /\ (forall l, (score tokens (normalizarTexto (Some l)) < LIMIAR_EXTRACAO)%Q ->
        linha_fornecedor tokens l = None).
Proof.
  intros Hin tokens found.
  destruct (extrairLinhasFornecedor_cases textoBruto nomeFornecedor)
    as [Hnil | [Hn Heq]]; [rewrite Hnil in Hin; destruct Hin|].
  fold tokens in Hn, Heq.
  rewrite Heq in Hin. apply list_elem_of_In, list_elem_of_omap in Hin.
  destruct Hin as (l & _ & Hl).
  destruct (linha_fornecedor_Some tokens l e Hn Hl) as (_ & _ & Hsc & Hge).
  pose proof (score_bounds tokens (linhaNormalizada e) Hn) as [H0 H1].
  split; [exact Hn|]. split.
  { apply List.Forall_forall. intros t Ht. subst tokens. unfold tokensAlvo in Ht.
    apply List.filter_In in Ht as [_ Ht]. apply Nat.ltb_lt in Ht. exact Ht. }
  split; [apply List.filter_length_le|].
  split; [rewrite Hsc; unfold score; rewrite encontrados_count; reflexivity|].
  split; [apply Qle_bool_iff, Hge|].
  rewrite Hsc. split; [exact H0|]. split; [exact H1|].
  split; [exact Heq|].
  intros l' Hlt. apply linha_fornecedor_below; assumption.
Qed.

Lemma extrairLinhasFornecedor_scores_witness :
  let e := {| linhaOriginal := JS.lit "ACME DISTRIBUIDORA LTDA 10/2024 42.151,99";
              linhaNormalizada := JS.lit "acme distribuidora ltda 10 2024 42 151 99";
              scoreMatch := 2 # 2;
              numerosMonetarios := [JS.lit "42.151,99"];
              ultimoNumero := Some (JS.lit "42.151,99") |} in
  (LIMIAR_EXTRACAO <= scoreMatch e)%Q /\ (scoreMatch e <= 1)%Q.
Proof.
  intros e.
  assert (Hin : In e (extrairLinhasFornecedor
                        (Some (JS.lit "  ACME DISTRIBUIDORA LTDA 10/2024 42.151,99"))
                        (Some (JS.lit "ACME Distribuidora")))).
  { vm_compute. left. reflexivity. }
  pose proof (extrairLinhasFornecedor_scores (H := latin1) _ _ e Hin) as Hs.
  cbv zeta in Hs. split; apply Hs.
Defined.

(** ** Substrings *)

Section SubstringFacts.
Import JS.

Lemma startsWith_true s t :
  startsWith s t = true <-> exists post, s = t ++ post.
Proof.
  revert s. induction t as [|a t IH]; intros s.
  - rewrite startsWith_nil_r. split; [exists s; reflexivity|reflexivity].
  - destruct s as [|b s]; simpl.
    + split; [discriminate|]. intros [post Hp]. discriminate.
    + rewrite andb_true_iff, Z.eqb_eq, IH. split.
      * intros [-> [post ->]]. exists post. reflexivity.
      * intros [post [= -> ->]]. split; [reflexivity|exists post; reflexivity].
Qed.

Lemma includes_true s t : includes s t = true <-> substring t s.
Proof.
  unfold substring. induction s as [|b s IH]; cbn [includes].
  - rewrite orb_false_r, startsWith_true. split.
    + intros [post ->]. exists [], post. reflexivity.
    + intros (pre & post & Hs). symmetry in Hs.
      apply List.app_eq_nil in Hs as [-> Hs].
      apply List.app_eq_nil in Hs as [-> ->]. exists []. reflexivity.
  - rewrite orb_true_iff, IH, startsWith_true. split.
    + intros [[post ->] | (pre & post & ->)].
      * exists [], post. reflexivity.
      * exists (b :: pre), post. reflexivity.
    + intros (pre & post & Hs). destruct pre as [|c pre].
      * left. exists post. exact Hs.
      * right. injection Hs as -> ->. exists pre, post. reflexivity.
Qed.

Lemma substring_trans a b c : substring a b -> substring b c -> substring a c.
Proof.
  intros (p1 & q1 & ->) (p2 & q2 & ->).
  exists (p2 ++ p1), (q1 ++ q2). rewrite <- !List.app_assoc. reflexivity.
Qed.

Lemma includes_trans s m t :
  includes s m = true -> includes m t = true -> includes s t = true.
Proof. rewrite !includes_true. intros H1 H2. eapply substring_trans; eauto. Qed.

Lemma trimStart_suffix s : exists pre, s = pre ++ trimStart s.
Proof.
  induction s as [|c s [pre IH]]; [exists []; reflexivity|].
  simpl. destruct (is_space c).
  - exists (c :: pre). simpl. rewrite <- IH. reflexivity.
  - exists []. reflexivity.
Qed.

Lemma trimEnd_prefix s : exists post, s = trimEnd s ++ post.
Proof.
  unfold trimEnd. destruct (trimStart_suffix (List.rev s)) as [pre Hp].
  exists (List.rev pre).
  rewrite <- List.rev_app_distr, <- Hp, List.rev_involutive. reflexivity.
Qed.

Lemma trim_substring s : substring (trim s) s.
Proof.
  unfold trim. destruct (trimStart_suffix s) as [pre Hp].
  destruct (trimEnd_prefix (trimStart s)) as [post Hq].
  exists pre, post. rewrite <- Hq. exact Hp.
Qed.

Lemma split_on_head sep s :
  exists h t post, split_on sep s = h :: t /\ s = h ++ post.
Proof.
  induction s as [|c s (h & t & post & Hs & Hp)]; simpl.
  - exists [], [], []. split; reflexivity.
  - destruct (c =? sep).
    + exists [], (split_on sep s), (c :: s). split; reflexivity.
    + rewrite Hs. exists (c :: h), t, post. simpl. rewrite <- Hp.
      split; reflexivity.
Qed.

Lemma split_on_substring sep s p : In p (split_on sep s) -> substring p s.
Proof.
  induction s as [|c s IH]; simpl.
  - intros [<- | []]. exists [], []. reflexivity.
  - destruct (c =? sep).
    + intros [<- | Hin].
      * exists [], (c :: s). reflexivity.
      * destruct (IH Hin) as (pre & post & ->). exists (c :: pre), post.
        reflexivity.
    + destruct (split_on_head sep s) as (h & t & post & Hs & Hp).
      rewrite Hs in *. simpl. intros [<- | Hin].
      * exists [], post. simpl. rewrite <- Hp. reflexivity.
      * destruct (IH (or_intror Hin)) as (pre & post' & ->).
        exists (c :: pre), post'. reflexivity.
Qed.

End SubstringFacts.

(** ** The two thresholds *)

Section ThresholdFacts.
Context `{UnicodeData}.
Import JS.

Lemma tokensAlvo_long alvo : Forall (fun t => (2 < length t)%nat) (tokensAlvo alvo).
Proof.
  apply List.Forall_forall. intros t Ht. unfold tokensAlvo in Ht.
  apply List.filter_In in Ht as [_ Ht]. apply Nat.ltb_lt, Ht.
Qed.

(** Every token of the vendor name occurs in the normalized name. *)
Lemma tokensAlvo_includes alvo t : In t (tokensAlvo alvo) -> includes alvo t = true.
Proof.
  unfold tokensAlvo. intros Ht. apply List.filter_In in Ht as [Ht _].
  apply List.in_map_iff in Ht as (p & <- & Hp).
  apply includes_true. eapply substring_trans; [apply trim_substring|].
  eapply split_on_substring, Hp.
Qed.

Lemma encontrados_all tokens linha :
  (forall t, In t tokens -> includes linha t = true) ->
  encontrados tokens linha = length tokens.
Proof.
  intros Hall. rewrite encontrados_count. f_equal.
  induction tokens as [|t ts IH]; [reflexivity|].
  simpl. rewrite (Hall t (or_introl eq_refl)). f_equal.
  apply IH. intros t' Ht'. apply Hall. right. exact Ht'.
Qed.

Lemma encontrados_nil tokens :
  Forall (fun t => (2 < length t)%nat) tokens -> encontrados tokens [] = 0%nat.
Proof.
  intros Hlong. rewrite encontrados_count.
  induction Hlong as [|t ts Ht _ IH]; [reflexivity|].
  simpl. destruct t; [simpl in Ht; lia|]. exact IH.
Qed.

Lemma alguma_linha_presente_existsb tokens linhas :
  alguma_linha_presente tokens linhas =
  List.existsb (fun l => Qle_bool LIMIAR_PRESENCA (score tokens l)) linhas.
Proof.
  induction linhas as [|l ls IH]; [reflexivity|].
  simpl. rewrite IH. destruct (Qle_bool LIMIAR_PRESENCA (score tokens l)); reflexivity.
Qed.

Lemma split_lines_cons c r :
  split_lines (c :: r) =
    if c =? 10 then [] :: split_lines r
    else
      match r with
      | d :: r' =>
          if (c =? 13) && (d =? 10) then [] :: split_lines r'
          else push_front c (split_lines r)
      | [] => push_front c (split_lines r)
      end.
Proof. reflexivity. Qed.

(** A text without line feed is a single line. *)
Lemma split_lines_no_lf s : ~ In 10 s -> split_lines s = [s].
Proof.
  induction s as [|c r IH]; [reflexivity|].
  intros Hno. rewrite split_lines_cons.
  assert (Hc : (c =? 10) = false) by (apply Z.eqb_neq; intros ->; apply Hno; left; reflexivity).
  rewrite Hc.
  assert (Hr : split_lines r = [r]) by (apply IH; intros Hin; apply Hno; right; exact Hin).
  destruct r as [|d r']; [reflexivity|].
  assert (Hd : (d =? 10) = false)
    by (apply Z.eqb_neq; intros ->; apply Hno; right; left; reflexivity).
  rewrite Hd, andb_false_r, Hr. reflexivity.
Qed.

(** The presence test on a document that is not empty, for a vendor
    name with tokens, when the normalized name is not a substring of
    the normalized document. *)
Lemma fornecedorExisteNaRazao_por_linhas nome doc :
  tokensAlvo (normalizarTexto nome) <> [] ->
  doc <> [] ->
  fornecedorExisteNaRazao nome (Some doc) =
    includes (normalizarTexto (Some doc)) (normalizarTexto nome)
    || List.existsb
         (fun l => Qle_bool LIMIAR_PRESENCA (score (tokensAlvo (normalizarTexto nome)) l))
         (List.filter (fun l => negb (falsy (Some l)))
            (List.map (fun l => normalizarTexto (Some l)) (split_lines doc))).
Proof.
  intros Htok Hdoc. unfold fornecedorExisteNaRazao.
  assert (Halvo : normalizarTexto nome <> []).
  { intros E. rewrite E in Htok. apply Htok. reflexivity. }
  rewrite (normalizarTexto_nonempty _ Halvo).
  destruct doc as [|c doc]; [congruence|]. cbn [falsy orb].
  destruct (normalizarTexto nome) as [|a alvo] eqn:Ea; [congruence|]. cbn [falsy].
  destruct (includes _ (a :: alvo)); [reflexivity|]. cbn [orb].
  destruct (Nat.eqb_spec (length (tokensAlvo (a :: alvo))) 0) as [E0|_].
  - destruct (tokensAlvo (a :: alvo)); [congruence|discriminate].
  - apply alguma_linha_presente_existsb.
Qed.

End ThresholdFacts.

Section ThresholdProofs.
Context `{UnicodeData}.
Import JS.

Lemma extrairLinhasFornecedor_por_linhas nome doc :
  tokensAlvo (normalizarTexto nome) <> [] ->
  doc <> [] ->
  extrairLinhasFornecedor (Some doc) nome =
    omap (linha_fornecedor (tokensAlvo (normalizarTexto nome))) (split_lines doc).
Proof.
  intros Htok Hdoc. unfold extrairLinhasFornecedor.
  assert (Halvo : normalizarTexto nome <> []).
  { intros E. rewrite E in Htok. apply Htok. reflexivity. }
  rewrite (normalizarTexto_nonempty _ Halvo).
  destruct doc as [|c doc]; [congruence|]. cbn [falsy orb].
  destruct (normalizarTexto nome) as [|a alvo] eqn:Ea; [congruence|]. cbn [falsy].
  destruct (tokensAlvo (a :: alvo)) as [|t ts] eqn:Et; [congruence|].
  cbn [length Nat.eqb]. apply linhas_fornecedor_omap.
Qed.

Lemma score_three t1 t2 t3 linha :
  score [t1; t2; t3] linha = Z.of_nat (encontrados [t1; t2; t3] linha) # 3.
Proof. reflexivity. Qed.

Lemma presente_filtrada (linhas : list jsstring) l :
  In l linhas -> normalizarTexto (Some l) <> [] ->
  In (normalizarTexto (Some l))
    (List.filter (fun l => negb (falsy (Some l)))
       (List.map (fun l => normalizarTexto (Some l)) linhas)).
Proof.
  intros Hin Hne. apply List.filter_In. split.
  - apply List.in_map_iff. exists l. split; [reflexivity|exact Hin].
  - destruct (normalizarTexto (Some l)); [congruence|reflexivity].
Qed.

End ThresholdProofs.

(** C2.  For a vendor name with exactly three tokens and a line of the
    document: when exactly two of the tokens occur in the normalized
    line, the score 2/3 is below the presence threshold and the line
    gives an entry of [extrairLinhasFornecedor] with score 2/3, while
    [fornecedorExisteNaRazao] is [false] on a one-line document and on
    every document whose lines have at most two tokens each and whose
    normalized text does not contain the normalized name; when all
    three tokens occur in the line, [fornecedorExisteNaRazao] is
    [true]. *)
Theorem limiares_presenca_extracao `{UnicodeData}
    (nome : jsval) (doc linha t1 t2 t3 : jsstring) :
  tokensAlvo (normalizarTexto nome) = [t1; t2; t3] ->
  In linha (JS.split_lines doc) ->
  let tokens := [t1; t2; t3] in
  let norm := normalizarTexto (Some linha) in
  (encontrados tokens norm = 2%nat ->
     Qle_bool LIMIAR_PRESENCA (score tokens norm) = false
     /\ Qle_bool LIMIAR_EXTRACAO (score tokens norm) = true
     /\ (exists e, In e (extrairLinhasFornecedor (Some doc) nome)
           /\ linhaNormalizada e = norm /\ scoreMatch e = 2 # 3)
     /\ (~ In 10 doc -> fornecedorExisteNaRazao nome (Some doc) = false)
     /\ (JS.includes (normalizarTexto (Some doc)) (normalizarTexto nome) = false ->
         (forall l, In l (JS.split_lines doc) ->
            (encontrados tokens (normalizarTexto (Some l)) <= 2)%nat) ->
         fornecedorExisteNaRazao nome (Some doc) = false))
  /\ (encontrados tokens norm = 3%nat ->
        fornecedorExisteNaRazao nome (Some doc) = true).
Proof.
  intros Htok Hin tokens norm.
  assert (Hne : tokensAlvo (normalizarTexto nome) <> []) by (rewrite Htok; discriminate).
  assert (Hlong : Forall (fun t => (2 < length t)%nat) tokens).
  { subst tokens. rewrite <- Htok. apply tokensAlvo_long. }
  assert (Hnorm : (0 < encontrados tokens norm)%nat -> norm <> [] /\ doc <> []).
  { intros Hpos. assert (Hn : norm <> []).
    { intros E. rewrite E, (encontrados_nil _ Hlong) in Hpos. lia. }
    split; [exact Hn|]. intros ->. simpl in Hin. destruct Hin as [<- | []].
    apply Hn. reflexivity. }
  assert (Hbelow : forall l, (encontrados tokens l <= 2)%nat ->
            Qle_bool LIMIAR_PRESENCA (score tokens l) = false).
  { intros l Hle. subst tokens. rewrite score_three.
    destruct (encontrados [t1; t2; t3] l) as [|[|[|k]]]; try reflexivity. lia. }
  split.
  - intros H2. destruct Hnorm as [Hn Hdoc]; [lia|].
    assert (Hsc : score tokens norm = 2 # 3).
    { subst tokens. rewrite score_three, H2. reflexivity. }
    split; [apply Hbelow; lia|].
    split; [rewrite Hsc; reflexivity|].
    split; [|split].
    + rewrite (extrairLinhasFornecedor_por_linhas _ _ Hne Hdoc), Htok.
      fold tokens.
      assert (Hl : exists e, linha_fornecedor tokens linha = Some e
                     /\ linhaNormalizada e = norm /\ scoreMatch e = 2 # 3).
      { unfold linha_fornecedor. fold norm.
        destruct norm as [|c n] eqn:En; [congruence|]. cbn [JS.falsy].
        subst tokens. cbn [length Nat.eqb]. rewrite Hsc.
        cbn [Qle_bool LIMIAR_EXTRACAO Qnum Qden Z.mul Pos.mul Z.leb Z.compare Pos.compare Pos.compare_cont].
        eexists. split; [reflexivity|]. split; reflexivity. }
      destruct Hl as (e & He & Hen & Hes). exists e. split; [|split; assumption].
      apply list_elem_of_In, list_elem_of_omap. exists linha.
      split; [apply list_elem_of_In, Hin|exact He].
    + intros Hno. rewrite (split_lines_no_lf _ Hno) in Hin.
      destruct Hin as [<- | []].
      rewrite (fornecedorExisteNaRazao_por_linhas _ _ Hne Hdoc), Htok.
      rewrite (split_lines_no_lf _ Hno). fold tokens. cbn [List.map].
      fold norm.
      destruct (JS.includes norm (normalizarTexto nome)) eqn:Einc.
      * exfalso. assert (E3 : encontrados tokens norm = length tokens).
        { apply encontrados_all. intros t Ht.
          eapply includes_trans; [exact Einc|].
          apply tokensAlvo_includes. rewrite Htok. exact Ht. }
        simpl in E3. lia.
      * cbn [orb List.filter]. destruct norm as [|c n] eqn:En; [congruence|].
        cbn [JS.falsy negb List.existsb]. rewrite orb_false_r.
        apply Hbelow. lia.
    + intros Hinc Hall.
      rewrite (fornecedorExisteNaRazao_por_linhas _ _ Hne Hdoc), Htok, Hinc.
      fold tokens. cbn [orb].
      apply not_true_is_false. intros Hex.
      apply List.existsb_exists in Hex as (l & Hl & Hq).
      apply List.filter_In in Hl as [Hl _].
      apply List.in_map_iff in Hl as (l0 & <- & Hl0).
      rewrite (Hbelow _ (Hall l0 Hl0)) in Hq. discriminate.
  - intros H3. destruct Hnorm as [Hn Hdoc]; [lia|].
    rewrite (fornecedorExisteNaRazao_por_linhas _ _ Hne Hdoc), Htok.
    fold tokens. apply orb_true_iff. right.
    apply List.existsb_exists. exists norm. split.
    + apply presente_filtrada; assumption.
    + subst tokens. rewrite score_three, H3. reflexivity.
Qed.

Lemma limiares_presenca_extracao_witness :
  let nome := Some (JS.lit "Comercial ABC Ltda") in
  let doc2 := JS.lit "NF 123 COMERCIAL ABC 1.500,00" in
  let doc3 := JS.lit "saldo anterior" ++ [10] ++ JS.lit "NF 123 Comercial ABC Ltda. 1.500,00" in
  fornecedorExisteNaRazao nome (Some doc2) = false
  /\ (exists e, In e (extrairLinhasFornecedor (Some doc2) nome)
        /\ scoreMatch e = 2 # 3)
  /\ fornecedorExisteNaRazao nome (Some doc3) = true.
Proof.
  intros nome doc2 doc3.
  assert (Htok : tokensAlvo (normalizarTexto nome)
                 = [JS.lit "comercial"; JS.lit "abc"; JS.lit "ltda"])
    by (vm_compute; reflexivity).
  assert (Hin2 : In doc2 (JS.split_lines doc2)) by (vm_compute; left; reflexivity).
  assert (Hin3 : In (JS.lit "NF 123 Comercial ABC Ltda. 1.500,00") (JS.split_lines doc3))
    by (vm_compute; right; left; reflexivity).
  destruct (limiares_presenca_extracao (H := latin1) nome doc2 doc2 _ _ _ Htok Hin2)
    as [Hdois _].
  destruct (limiares_presenca_extracao (H := latin1) nome doc3 _ _ _ _ Htok Hin3)
    as [_ Htres].
  destruct Hdois as (_ & _ & (e & He & _ & Hsc) & Hum & _);
    [vm_compute; reflexivity|].
  split; [|split].
  - apply Hum. vm_compute. intros Hlf.
    repeat (destruct Hlf as [E | Hlf]; [discriminate E|]). exact Hlf.
  - exists e. split; assumption.
  - apply Htres. vm_compute. reflexivity.
Defined.

Example parseFloat_examples :
  Number.parseFloat (JS.lit "  -12.5e-1xyz") = Prim2SF (-1.25)%float
  /\ Number.parseFloat (JS.lit "-.5") = Prim2SF (-0.5)%float
  /\ Number.parseFloat (JS.lit "5.") = Prim2SF 5%float
  /\ Number.parseFloat (JS.lit ".") = Number.NaN
  /\ Number.parseFloat (JS.lit "-") = Number.NaN
  /\ Number.parseFloat (JS.lit "1e400") = Number.PInf
  /\ Number.parseFloat (JS.lit "+Infinityx") = Number.PInf
  /\ Number.parseFloat (JS.lit "1e+") = Prim2SF 1%float
  /\ Number.parseFloat (JS.lit "-0") = Prim2SF (-0)%float
  /\ Number.parseFloat (JS.lit "1.7976931348623159e308") = Number.PInf
  /\ Number.parseFloat (JS.lit "4.9e-324") = Prim2SF 4.9e-324%float
  /\ Number.parseFloat (JS.lit "2e-324") = Prim2SF 0%float.
Proof. repeat split; vm_compute; reflexivity. Qed.

(** ** Numbers: order and sign *)

Section NumberFacts.
Import Number.

Lemma nonneg_finite_cases x :
  nonneg_finite x = true ->
  x = S754_zero false \/ exists m e, x = S754_finite false m e.
Proof.
  destruct x as [[|]|[|]| |[|] m e]; try discriminate; intros _;
    [left; reflexivity|right; eauto].
Qed.

Lemma nonneg_finite_isFinite x : nonneg_finite x = true -> isFinite x = true.
Proof. destruct x as [[|]|[|]| |[|] m e]; try discriminate; reflexivity. Qed.

(** Changing the common exponent multiplies by a power of two. *)
Lemma scaled_rescale x E e :
  E <= e -> e <= exponent x -> scaled E x = scaled e x * 2 ^ (e - E).
Proof.
  intros HE He. destruct x as [s|s| |s m ex]; try reflexivity.
  cbn [scaled exponent] in *.
  replace (ex - E) with ((ex - e) + (e - E)) by lia.
  rewrite Z.pow_add_r by lia.
  destruct s; cbn [cond_Zopp]; lia.
Qed.

Lemma compare_at x y E :
  nonneg_finite x = true -> nonneg_finite y = true ->
  E <= exponent x -> E <= exponent y ->
  compare x y = Some (Z.compare (scaled E x) (scaled E y)).
Proof.
  intros Hx Hy Ex Ey.
  assert (Hc : compare x y =
    Some (Z.compare (scaled (Z.min (exponent x) (exponent y)) x)
                    (scaled (Z.min (exponent x) (exponent y)) y))).
  { destruct (nonneg_finite_cases x Hx) as [-> | (mx & ex & ->)];
    destruct (nonneg_finite_cases y Hy) as [-> | (my & ey & ->)]; reflexivity. }
  rewrite Hc. f_equal.
  set (e := Z.min (exponent x) (exponent y)).
  rewrite (scaled_rescale x E e), (scaled_rescale y E e) by lia.
  apply Zmult_compare_compat_r.
  apply Z.lt_gt, Z.pow_pos_nonneg; lia.
Qed.

Lemma leb_trans x y z :
  nonneg_finite x = true -> nonneg_finite y = true -> nonneg_finite z = true ->
  leb x y = true -> leb y z = true -> leb x z = true.
Proof.
  intros Hx Hy Hz. unfold leb.
  set (E := Z.min (exponent x) (Z.min (exponent y) (exponent z))).
  rewrite (compare_at x y E), (compare_at y z E), (compare_at x z E)
    by (auto; subst E; lia).
  destruct (Z.compare_spec (scaled E x) (scaled E y));
  destruct (Z.compare_spec (scaled E y) (scaled E z));
  destruct (Z.compare_spec (scaled E x) (scaled E z));
    try reflexivity; try discriminate; lia.
Qed.

Lemma leb_refl x : nonneg_finite x = true -> leb x x = true.
Proof.
  intros Hx. unfold leb. rewrite (compare_at x x (exponent x)) by (auto; lia).
  rewrite Z.compare_refl. reflexivity.
Qed.

Lemma ltb_false_leb x y :
  nonneg_finite x = true -> nonneg_finite y = true ->
  ltb x y = false -> leb y x = true.
Proof.
  intros Hx Hy. unfold ltb, leb.
  rewrite (compare_at x y (Z.min (exponent x) (exponent y))),
    (compare_at y x (Z.min (exponent x) (exponent y))) by (auto; lia).
  rewrite (Z.compare_antisym (scaled _ x) (scaled _ y)).
  destruct (Z.compare _ _); simpl; congruence.
Qed.

Lemma ltb_leb x y :
  nonneg_finite x = true -> nonneg_finite y = true ->
  ltb x y = true -> leb x y = true.
Proof.
  unfold ltb, leb. destruct (compare x y) as [[| |]|]; congruence.
Qed.

End NumberFacts.

Section MinMaxFacts.
Import Number.

Let good (l : list number) : Prop := Forall (fun x => nonneg_finite x = true) l.

Lemma fold_min_in r x :
  In (List.fold_left (fun m y => if ltb y m then y else m) r x) (x :: r).
Proof.
  revert x. induction r as [|y r IH]; intros x; [left; reflexivity|].
  cbn [List.fold_left]. destruct (IH (if ltb y x then y else x)) as [E | Hin].
  - rewrite <- E. destruct (ltb y x); [right; left|left]; reflexivity.
  - right. right. exact Hin.
Qed.

Lemma fold_max_in r x :
  In (List.fold_left (fun m y => if ltb m y then y else m) r x) (x :: r).
Proof.
  revert x. induction r as [|y r IH]; intros x; [left; reflexivity|].
  cbn [List.fold_left]. destruct (IH (if ltb x y then y else x)) as [E | Hin].
  - rewrite <- E. destruct (ltb x y); [right; left|left]; reflexivity.
  - right. right. exact Hin.
Qed.

Lemma good_in l x : good l -> In x l -> nonneg_finite x = true.
Proof. intros Hl Hx. exact (proj1 (List.Forall_forall _ l) Hl x Hx). Qed.

Lemma fold_min_le r x :
  good (x :: r) ->
  forall z, In z (x :: r) ->
    leb (List.fold_left (fun m y => if ltb y m then y else m) r x) z = true.
Proof.
  revert x. induction r as [|y r IH]; intros x Hg z Hz.
  - destruct Hz as [<- | []]. apply leb_refl. eapply good_in; [exact Hg|left; reflexivity].
  - cbn [List.fold_left].
    assert (Hx : nonneg_finite x = true) by (eapply good_in; [exact Hg|left; reflexivity]).
    assert (Hy : nonneg_finite y = true)
      by (eapply good_in; [exact Hg|right; left; reflexivity]).
    assert (Hr : good r) by (inversion Hg as [|? ? _ Hg']; inversion Hg'; assumption).
    set (x' := if ltb y x then y else x).
    assert (Hx' : nonneg_finite x' = true) by (subst x'; destruct (ltb y x); assumption).
    assert (Hg' : good (x' :: r)) by (constructor; assumption).
    assert (Hres : nonneg_finite
              (List.fold_left (fun m y => if ltb y m then y else m) r x') = true)
      by (eapply good_in; [exact Hg'|apply fold_min_in]).
    assert (Hzg : nonneg_finite z = true) by (eapply good_in; [exact Hg|exact Hz]).
    assert (Hx'z : In z r \/ leb x' z = true).
    { destruct Hz as [<- | [<- | Hz]]; [| |left; exact Hz]; right; subst x';
        destruct (ltb y x) eqn:E;
        auto using leb_refl, ltb_leb, ltb_false_leb. }
    destruct Hx'z as [Hzr | Hle].
    + apply IH; [exact Hg'|right; exact Hzr].
    + eapply leb_trans; [exact Hres|exact Hx'|exact Hzg| |exact Hle].
      apply IH; [exact Hg'|left; reflexivity].
Qed.

Lemma fold_max_ge r x :
  good (x :: r) ->
  forall z, In z (x :: r) ->
    leb z (List.fold_left (fun m y => if ltb m y then y else m) r x) = true.
Proof.
  revert x. induction r as [|y r IH]; intros x Hg z Hz.
  - destruct Hz as [<- | []]. apply leb_refl. eapply good_in; [exact Hg|left; reflexivity].
  - cbn [List.fold_left].
    assert (Hx : nonneg_finite x = true) by (eapply good_in; [exact Hg|left; reflexivity]).
    assert (Hy : nonneg_finite y = true)
      by (eapply good_in; [exact Hg|right; left; reflexivity]).
    assert (Hr : good r) by (inversion Hg as [|? ? _ Hg']; inversion Hg'; assumption).
    set (x' := if ltb x y then y else x).
    assert (Hx' : nonneg_finite x' = true) by (subst x'; destruct (ltb x y); assumption).
    assert (Hg' : good (x' :: r)) by (constructor; assumption).
    assert (Hres : nonneg_finite
              (List.fold_left (fun m y => if ltb m y then y else m) r x') = true)
      by (eapply good_in; [exact Hg'|apply fold_max_in]).
    assert (Hzg : nonneg_finite z = true) by (eapply good_in; [exact Hg|exact Hz]).
    assert (Hx'z : In z r \/ leb z x' = true).
    { destruct Hz as [<- | [<- | Hz]]; [| |left; exact Hz]; right; subst x';
        destruct (ltb x y) eqn:E;
        auto using leb_refl, ltb_leb, ltb_false_leb. }
    destruct Hx'z as [Hzr | Hle].
    + apply IH; [exact Hg'|right; exact Hzr].
    + eapply leb_trans; [exact Hzg|exact Hx'|exact Hres|exact Hle|].
      apply IH; [exact Hg'|left; reflexivity].
Qed.

(** On finite numbers that are not negative, [Math.min] and [Math.max]
    are the plain minimum and maximum. *)
Lemma Math_min_minimum l : l <> [] -> good l -> Math_min l = minimum l.
Proof.
  intros Hne Hg. destruct l as [|x r]; [congruence|].
  unfold Math_min, minimum. cbn [List.fold_left].
  assert (Hx : nonneg_finite x = true) by (eapply good_in; [exact Hg|left; reflexivity]).
  assert (E : min_step PInf x = x).
  { destruct (nonneg_finite_cases x Hx) as [-> | (m & e & ->)]; reflexivity. }
  rewrite E. clear E.
  assert (Hr : good r) by (inversion Hg; assumption). clear Hg Hne.
  revert x Hx. induction Hr as [|y r Hy Hr IH]; intros x Hx; [reflexivity|].
  cbn [List.fold_left].
  assert (E : min_step x y = if ltb y x then y else x).
  { unfold min_step.
    destruct (nonneg_finite_cases x Hx) as [-> | (m & e & ->)];
    destruct (nonneg_finite_cases y Hy) as [-> | (m' & e' & ->)]; reflexivity. }
  rewrite E. apply IH. destruct (ltb y x); assumption.
Qed.

Lemma Math_max_maximum l : l <> [] -> good l -> Math_max l = maximum l.
Proof.
  intros Hne Hg. destruct l as [|x r]; [congruence|].
  unfold Math_max, maximum. cbn [List.fold_left].
  assert (Hx : nonneg_finite x = true) by (eapply good_in; [exact Hg|left; reflexivity]).
  assert (E : max_step NInf x = x).
  { destruct (nonneg_finite_cases x Hx) as [-> | (m & e & ->)]; reflexivity. }
  rewrite E. clear E.
  assert (Hr : good r) by (inversion Hg; assumption). clear Hg Hne.
  revert x Hx. induction Hr as [|y r Hy Hr IH]; intros x Hx; [reflexivity|].
  cbn [List.fold_left].
  assert (E : max_step x y = if ltb x y then y else x).
  { unfold max_step.
    destruct (nonneg_finite_cases x Hx) as [-> | (m & e & ->)];
    destruct (nonneg_finite_cases y Hy) as [-> | (m' & e' & ->)]; reflexivity. }
  rewrite E. apply IH. destruct (ltb x y); assumption.
Qed.

End MinMaxFacts.

Section SubFacts.
Import Number.

Lemma iter_xO_value m d : Zpos (Pos.iter xO m d) = Zpos m * 2 ^ Zpos d.
Proof.
  change (Pos.iter xO m d) with (shift_pos d m).
  rewrite shift_pos_correct. change (Zpower_pos 2 d) with (2 ^ Zpos d). lia.
Qed.

Lemma shl_align_value m e e' :
  e' <= e -> Zpos (fst (shl_align m e e')) = Zpos m * 2 ^ (e - e').
Proof.
  intros Hle. unfold shl_align.
  destruct (e' - e) as [|d|d] eqn:Ed; try lia.
  - replace (e - e') with 0 by lia. cbn [fst]. lia.
  - cbn [fst]. rewrite iter_xO_value. f_equal. f_equal. lia.
Qed.

(** Rounding keeps the sign it is given. *)
Lemma binary_round_aux_sign s m e l :
  match binary_round_aux prec emax s m e l with
  | S754_zero s' | S754_infinity s' | S754_finite s' _ _ => s' = s
  | S754_nan => True
  end.
Proof.
  unfold binary_round_aux.
  destruct (shr_fexp prec emax m e l) as [mrs' e'].
  destruct (shr_fexp prec emax _ e' loc_Exact) as [mrs'' e''].
  destruct (shr_m mrs''); [reflexivity| |exact I].
  destruct (e'' <=? emax - prec); reflexivity.
Qed.

Lemma binary_round_sign s m e :
  match binary_round prec emax s m e with
  | S754_zero s' | S754_infinity s' | S754_finite s' _ _ => s' = s
  | S754_nan => True
  end.
Proof.
  unfold binary_round. destruct (shl_align m e _) as [mz ez].
  apply binary_round_aux_sign.
Qed.

Lemma abs_of_sign_false x :
  match x with
  | S754_zero s' | S754_infinity s' | S754_finite s' _ _ => s' = false
  | S754_nan => True
  end -> abs x = x.
Proof. destruct x as [s|s| |s m e]; simpl; intros Hs; subst; reflexivity. Qed.

(** The difference of two non-negative finite numbers, the greater
    first, has no sign to drop. *)
Lemma abs_sub_ordered x y :
  nonneg_finite x = true -> nonneg_finite y = true -> leb y x = true ->
  abs (sub x y) = sub x y.
Proof.
  intros Hx Hy Hle. apply abs_of_sign_false.
  destruct (nonneg_finite_cases x Hx) as [-> | (mx & ex & ->)];
  destruct (nonneg_finite_cases y Hy) as [-> | (my & ey & ->)].
  - reflexivity.
  - exfalso. revert Hle. unfold leb.
    rewrite (compare_at _ _ (Z.min ey 0)) by (auto; cbn [exponent]; lia).
    cbn [scaled cond_Zopp].
    assert (0 < Zpos my * 2 ^ (ey - Z.min ey 0)).
    { apply Z.mul_pos_pos; [lia|apply Z.pow_pos_nonneg; lia]. }
    destruct (Z.compare_spec (Zpos my * 2 ^ (ey - Z.min ey 0)) 0);
      try discriminate; lia.
  - reflexivity.
  - unfold sub, SFsub. cbn [cond_Zopp].
    rewrite !shl_align_value by lia.
    assert (Hge : Zpos my * 2 ^ (ey - Z.min ex ey) <= Zpos mx * 2 ^ (ex - Z.min ex ey)).
    { revert Hle. unfold leb.
      rewrite (compare_at _ _ (Z.min ex ey)) by (auto; cbn [exponent]; lia).
      cbn [scaled cond_Zopp].
      destruct (Z.compare_spec (Zpos my * 2 ^ (ey - Z.min ex ey))
                  (Zpos mx * 2 ^ (ex - Z.min ex ey))); try discriminate; lia. }
    unfold binary_normalize.
    destruct (Zpos mx * 2 ^ (ex - Z.min ex ey) - Zpos my * 2 ^ (ey - Z.min ex ey))
      as [|d|d] eqn:Ed; [reflexivity|apply binary_round_sign|lia].
Qed.

End SubFacts.

(** ** The parsed balances are finite and not negative *)

Section BalanceFacts.
Import JS Number.

Lemma of_ratio_sign m d :
  isFinite (of_ratio false m d) = true -> nonneg_finite (of_ratio false m d) = true.
Proof.
  unfold of_ratio. destruct m as [|p|p]; [reflexivity| |discriminate].
  unfold div, SFdiv.
  destruct (SFdiv_core_binary prec emax (Zpos p) 0 (Zpos d) 0) as [[mz ez] lz].
  pose proof (binary_round_aux_sign (xorb false false) mz ez lz) as Hs.
  destruct (binary_round_aux prec emax (xorb false false) mz ez lz)
    as [s|s| |s m' e']; try discriminate; cbn [xorb] in Hs; subst; reflexivity.
Qed.

Lemma of_decimal_sign m x :
  isFinite (of_decimal false m x) = true ->
  nonneg_finite (of_decimal false m x) = true.
Proof. unfold of_decimal. destruct (0 <=? x); apply of_ratio_sign. Qed.

Lemma read_decimal_sign s :
  isFinite (read_decimal false s) = true ->
  nonneg_finite (read_decimal false s) = true.
Proof.
  unfold read_decimal. destruct (startsWith s (lit "Infinity")); [discriminate|].
  destruct (span_digits s) as [ip s3].
  destruct (match s3 with
            | [] => ([], s3)
            | c :: r => if c =? 46 then span_digits r else ([], s3)
            end) as [fp s4].
  destruct (ip ++ fp); [discriminate|]. apply of_decimal_sign.
Qed.

Lemma digit_not_space c : is_digit c = true -> is_space c = false.
Proof. unfold is_digit, is_space, in_range. lia. Qed.

Lemma parseFloat_digit c r :
  is_digit c = true -> parseFloat (c :: r) = read_decimal false (c :: r).
Proof.
  intros Hc. unfold parseFloat. cbn [trimStart].
  rewrite (digit_not_space c Hc). unfold read_sign.
  assert (H45 : (c =? 45) = false) by (unfold is_digit, in_range in Hc; lia).
  assert (H43 : (c =? 43) = false) by (unfold is_digit, in_range in Hc; lia).
  rewrite H45, H43. reflexivity.
Qed.

Lemma limpo_digit c s :
  is_digit c = true -> exists r, limpo (c :: s) = c :: r.
Proof.
  intros Hc. destruct (digit_not_sep c Hc) as [H44 H46].
  unfold limpo, remove_all. cbn [List.filter]. rewrite H46. cbn [negb List.filter].
  rewrite Hc. cbn [orb negb]. cbn [replace_first]. rewrite H44. eauto.
Qed.

(** A value that starts with a digit parses to a non-negative number. *)
Lemma parseValorMonetario_digit c s x :
  is_digit c = true ->
  parseValorMonetario (Some (c :: s)) = Some x -> nonneg_finite x = true.
Proof.
  intros Hc. unfold parseValorMonetario. cbn [falsy to_string].
  destruct (limpo_digit c s Hc) as [r ->]. rewrite parseFloat_digit by assumption.
  destruct (isFinite (read_decimal false (c :: r))) eqn:Ef; [|discriminate].
  intros [= <-]. apply read_decimal_sign, Ef.
Qed.

End BalanceFacts.

Section CaptureFacts.
Import JS Regex.

Lemma match_with_digits_Some k s n :
  (0 < k)%nat -> match_with_digits k s = Some n ->
  starts_with_digit s /\ (0 < n)%nat.
Proof.
  intros Hk. unfold match_with_digits.
  destruct ((length (List.firstn k s) =? k)%nat && List.forallb is_digit (List.firstn k s))
    eqn:E; [|discriminate].
  apply andb_true_iff in E as [El Ed]. apply Nat.eqb_eq in El.
  destruct (match_groups_tail (List.skipn k s)) as [n'|]; [|discriminate].
  intros [= <-]. split; [|lia].
  destruct k as [|k]; [lia|]. destruct s as [|c r]; [discriminate|].
  cbn [List.firstn List.forallb] in Ed. apply andb_true_iff in Ed as [Hc _].
  exists c, r. split; [reflexivity|exact Hc].
Qed.

Lemma match_valor_at_Some s n :
  match_valor_at s = Some n -> starts_with_digit s /\ (0 < n)%nat.
Proof.
  unfold match_valor_at.
  destruct (match_with_digits 3 s) as [n3|] eqn:E3.
  { intros [= <-]. apply (match_with_digits_Some 3 s n3); [lia|exact E3]. }
  destruct (match_with_digits 2 s) as [n2|] eqn:E2.
  { intros [= <-]. apply (match_with_digits_Some 2 s n2); [lia|exact E2]. }
  apply match_with_digits_Some. lia.
Qed.

(** Every captured value starts with a digit. *)
Lemma exec_all_from_digit skip s x :
  In x (exec_all_from skip s) -> starts_with_digit x.
Proof.
  revert skip. induction s as [|c r IH]; intros skip; [intros []|].
  destruct skip as [|k]; [|apply IH].
  rewrite exec_all_from_cons.
  destruct (match_valor_at (c :: r)) as [n|] eqn:Em; [|apply IH].
  intros [<- | Hin]; [|eapply IH, Hin].
  destruct (match_valor_at_Some _ _ Em) as [(c' & r' & [= <- <-] & Hc) Hn].
  destruct n as [|n]; [lia|]. exists c, (List.firstn n r). split; [reflexivity|exact Hc].
Qed.

Lemma last_map_Some (l : list jsstring) x :
  List.last (List.map Some l) None = Some x -> In x l.
Proof.
  induction l as [|a l IH]; [discriminate|].
  cbn [List.map List.last]. destruct l as [|b l].
  - intros [= ->]. left. reflexivity.
  - intros Hl. right. apply IH, Hl.
Qed.

End CaptureFacts.

Section PooledFacts.
Context `{UnicodeData}.
Import Number.

Lemma linha_fornecedor_ultimo tokens l e x :
  linha_fornecedor tokens l = Some e -> ultimoNumero e = Some x ->
  starts_with_digit x.
Proof.
  unfold linha_fornecedor.
  destruct (JS.falsy _); [discriminate|].
  destruct (Qle_bool LIMIAR_EXTRACAO _); [|discriminate].
  intros [= <-]. cbn [ultimoNumero]. intros Hl.
  apply last_map_Some in Hl. eapply exec_all_from_digit, Hl.
Qed.

Lemma extrairLinhasFornecedor_ultimo d v e x :
  In e (extrairLinhasFornecedor d v) -> ultimoNumero e = Some x ->
  starts_with_digit x.
Proof.
  intros Hin.
  destruct (extrairLinhasFornecedor_cases d v) as [Hnil | [_ Heq]];
    [rewrite Hnil in Hin; destruct Hin|].
  rewrite Heq in Hin. apply list_elem_of_In, list_elem_of_omap in Hin.
  destruct Hin as (l & _ & Hl). eapply linha_fornecedor_ultimo, Hl.
Qed.

Lemma saldos_das_linhas_nonneg linhas :
  (forall e x, In e linhas -> ultimoNumero e = Some x -> starts_with_digit x) ->
  Forall (fun x => nonneg_finite x = true)
    (List.map numero (saldos_das_linhas linhas)).
Proof.
  induction linhas as [|e ls IH]; intros Hd; [constructor|].
  assert (IH' : Forall (fun x => nonneg_finite x = true)
                  (List.map numero (saldos_das_linhas ls))).
  { apply IH. intros e' x Hin. apply Hd. right. exact Hin. }
  cbn [saldos_das_linhas]. destruct (JS.falsy (ultimoNumero e)); [exact IH'|].
  destruct (parseValorMonetario (ultimoNumero e)) as [v|] eqn:Ep; [|exact IH'].
  cbn [List.map numero]. constructor; [|exact IH'].
  destruct (ultimoNumero e) as [x|] eqn:Eu; [|discriminate].
  destruct (Hd e x (or_introl eq_refl) Eu) as (c & r & -> & Hc).
  eapply parseValorMonetario_digit; eassumption.
Qed.

(** The balances of every source are finite and not negative. *)
Lemma balances_nonneg fornecedor textos k :
  Forall (fun x => nonneg_finite x = true)
    (balances (indicadoresFornecedor (montarIndicadoresFornecedor fornecedor textos)) k).
Proof.
  unfold balances. rewrite montar_indicadores.
  set (m := <[JS.lit "razao" := _]> _).
  destruct (m !! k) as [ind|] eqn:Ek; [|constructor].
  assert (Hind : exists t, ind = indicador_de fornecedor t).
  { subst m. revert Ek. rewrite !lookup_insert.
    repeat case_decide; rewrite ?lookup_empty; intros [= <-]; eauto. }
  destruct Hind as [t ->]. cbn [default from_option id indicador_de saldosEncontrados].
  apply saldos_das_linhas_nonneg. intros e x. apply extrairLinhasFornecedor_ultimo.
Qed.

End PooledFacts.

(** ** The verdict *)

Section VerdictFacts.
Import Number.

Lemma obj_get_head {A} (k : jsstring) (v : A) o : obj_get ((k, v) :: o) k = Some v.
Proof. unfold obj_get. cbn [List.find fst]. rewrite bool_decide_eq_true_2; reflexivity. Qed.

Lemma obj_get_tail {A} (k k' : jsstring) (v : A) o :
  k <> k' -> obj_get ((k, v) :: o) k' = obj_get o k'.
Proof.
  intros Hne. unfold obj_get. cbn [List.find fst].
  rewrite bool_decide_eq_false_2 by exact Hne. reflexivity.
Qed.

(** With distinct keys, reading the object back key by key gives its
    values in order. *)
Lemma obj_values {A} (o : list (jsstring * list A)) :
  List.NoDup (obj_keys o) ->
  List.flat_map (fun k => default [] (obj_get o k)) (obj_keys o)
  = List.flat_map snd o.
Proof.
  unfold obj_keys. induction o as [|[k v] o IH]; [reflexivity|].
  cbn [List.map fst]. intros Hnd. apply List.NoDup_cons_iff in Hnd as [Hk Hnd].
  cbn [List.flat_map snd]. rewrite obj_get_head. cbn [default from_option id].
  f_equal. rewrite <- (IH Hnd). rewrite !List.flat_map_concat_map. f_equal.
  apply List.map_ext_in. intros k' Hk'.
  rewrite obj_get_tail; [reflexivity|].
  intros ->. apply Hk, Hk'.
Qed.

Lemma saldos_numericos_keys b ks :
  obj_keys (saldos_numericos b ks)
  = List.filter (fun k => negb (bool_decide (b k = []))) ks.
Proof.
  unfold obj_keys, saldos_numericos. induction ks as [|k ks IH]; [reflexivity|].
  cbn [List.flat_map List.filter]. rewrite List.map_app, IH.
  destruct (b k) as [|x l] eqn:Eb; reflexivity.
Qed.

Lemma saldos_numericos_values b ks :
  List.flat_map snd (saldos_numericos b ks)
  = List.flat_map b (List.filter (fun k => negb (bool_decide (b k = []))) ks).
Proof.
  unfold saldos_numericos. induction ks as [|k ks IH]; [reflexivity|].
  cbn [List.flat_map List.filter]. rewrite List.flat_map_app, IH.
  destruct (b k) as [|x l] eqn:Eb; cbn; rewrite ?Eb, ?List.app_nil_r; reflexivity.
Qed.

Lemma saldos_numericos_entries b ks k l :
  In (k, l) (saldos_numericos b ks) -> l = b k /\ l <> [].
Proof.
  unfold saldos_numericos. intros Hin. apply List.in_flat_map in Hin as (k' & _ & Hin).
  destruct (b k') as [|x r] eqn:Eb; [destruct Hin|].
  destruct Hin as [[= <- <-] | []]. rewrite Eb. split; [reflexivity|discriminate].
Qed.

Lemma flat_map_nonempty {A B} (f : A -> list B) a1 a2 l :
  f a1 <> [] -> List.flat_map f (a1 :: a2 :: l) <> [].
Proof. cbn [List.flat_map]. destruct (f a1); [congruence|discriminate]. Qed.

(** [avaliar] on an object with distinct keys whose values are
    non-empty lists of finite non-negative numbers. *)
Lemma avaliar_verdict o :
  List.NoDup (obj_keys o) ->
  (forall k l, In (k, l) o ->
     l <> [] /\ Forall (fun x => nonneg_finite x = true) l) ->
  avaliar o = verdict (obj_keys o) (List.flat_map snd o).
Proof.
  intros Hnd Hgood. unfold avaliar, verdict. rewrite (obj_values o Hnd).
  destruct (Nat.leb_spec 2 (length (obj_keys o))) as [H2|H2];
    destruct (Nat.ltb_spec (length (obj_keys o)) 2) as [H2'|H2']; try lia;
    [|reflexivity].
  set (p := List.flat_map snd o).
  assert (Hp : Forall (fun x => nonneg_finite x = true) p).
  { apply List.Forall_forall. intros x Hx. subst p.
    apply List.in_flat_map in Hx as ([k l] & Hkl & Hx).
    destruct (Hgood k l Hkl) as [_ Hl].
    exact (proj1 (List.Forall_forall _ l) Hl x Hx). }
  assert (Hne : p <> []).
  { subst p. destruct o as [|[k l] o]; [simpl in H2; lia|].
    cbn [List.flat_map snd]. destruct (Hgood k l (or_introl eq_refl)) as [Hl _].
    destruct l; [congruence|discriminate]. }
  rewrite (Math_min_minimum p Hne Hp), (Math_max_maximum p Hne Hp).
  destruct p as [|x r] eqn:Ep; [congruence|].
  assert (Hmin : In (minimum (x :: r)) (x :: r)) by apply fold_min_in.
  assert (Hmax : In (maximum (x :: r)) (x :: r)) by apply fold_max_in.
  assert (Hgmin : nonneg_finite (minimum (x :: r)) = true)
    by exact (proj1 (List.Forall_forall _ _) Hp _ Hmin).
  assert (Hgmax : nonneg_finite (maximum (x :: r)) = true)
    by exact (proj1 (List.Forall_forall _ _) Hp _ Hmax).
  rewrite (nonneg_finite_isFinite _ Hgmin), (nonneg_finite_isFinite _ Hgmax).
  cbn [andb]. rewrite abs_sub_ordered; [reflexivity|assumption|assumption|].
  apply (fold_min_le r x Hp). exact Hmax.
Qed.

End VerdictFacts.

Section VerdictProof.
Context `{UnicodeData}.

Lemma NoDup_chaves : List.NoDup chavesRelatorios.
Proof.
  unfold chavesRelatorios.
  repeat (apply List.NoDup_cons;
          [cbn [In]; intros Hin;
           repeat (destruct Hin as [E | Hin]; [vm_compute in E; discriminate E|]);
           exact Hin|]).
  apply List.NoDup_nil.
Qed.

Lemma montar_avaliacao fornecedor textos :
  let r := montarIndicadoresFornecedor fornecedor textos in
  avaliacaoAutomaticaSaldo r =
    avaliar (saldos_numericos (balances (indicadoresFornecedor r)) chavesRelatorios).
Proof.
  intros r. subst r. unfold saldos_numericos, chavesRelatorios.
  cbn [List.flat_map]. unfold balances.
  rewrite !montar_lookup by (unfold chavesRelatorios; rewrite !elem_of_cons; tauto).
  cbn [default from_option id indicador_de saldosEncontrados].
  unfold montarIndicadoresFornecedor, chavesRelatorios.
  cbn [List.fold_left avaliacaoAutomaticaSaldo]. unfold passo.
  cbn [fst snd]. rewrite !List.length_map, List.app_nil_r.
  f_equal.
  destruct (0 <? length (saldos_das_linhas _))%nat;
  destruct (0 <? length (saldos_das_linhas _))%nat;
  destruct (0 <? length (saldos_das_linhas _))%nat; reflexivity.
Qed.

End VerdictProof.

Section VerdictMain.
Context `{UnicodeData}.
Import Number.

(** The verdict of [montarIndicadoresFornecedor] in the words of the
    specification, with the facts about the pooled balances that the
    comparison rests on. *)
Lemma montar_verdict fornecedor textos :
  let r := montarIndicadoresFornecedor fornecedor textos in
  let ind := indicadoresFornecedor r in
  avaliacaoAutomaticaSaldo r = verdict (present ind) (pooled ind)
  /\ Forall (fun x => nonneg_finite x = true) (pooled ind).
Proof.
  intros r ind.
  assert (Hgood : Forall (fun x => nonneg_finite x = true) (pooled ind)).
  { apply List.Forall_forall. intros x Hx. unfold pooled in Hx.
    apply List.in_flat_map in Hx as (k & _ & Hx).
    exact (proj1 (List.Forall_forall _ _) (balances_nonneg fornecedor textos k) x Hx). }
  split; [|exact Hgood].
  subst r ind. rewrite montar_avaliacao. cbv zeta.
  rewrite avaliar_verdict.
  - rewrite saldos_numericos_keys, saldos_numericos_values. reflexivity.
  - rewrite saldos_numericos_keys. apply List.NoDup_filter, NoDup_chaves.
  - intros k l Hkl. apply saldos_numericos_entries in Hkl as [-> Hne].
    split; [exact Hne|apply balances_nonneg].
Qed.

End VerdictMain.

(** X1.  The verdict of [montarIndicadoresFornecedor] is the one the
    specification words: [dados_insuficientes] when fewer than two
    sources have a parsed balance; otherwise [saldos_iguais], with the
    mean of the pooled minimum and maximum rounded to two decimals,
    when maximum minus minimum is at most 0.1 in binary64 arithmetic,
    and [saldos_diferentes] when it is not.  The minimum and maximum
    are elements of the pool that bound every element. *)
Theorem montarIndicadoresFornecedor_verdict `{UnicodeData}
    (fornecedor : jsval) (textos : gmap jsstring jsstring) :
  let r := montarIndicadoresFornecedor fornecedor textos in
  let ind := indicadoresFornecedor r in
  let p := pooled ind in
  avaliacaoAutomaticaSaldo r = verdict (present ind) p
  /\ avaliacaoAutomaticaSaldo r =
       (if (length (present ind) <? 2)%nat then dados_insuficientes
        else if Number.leb (Number.sub (maximum p) (minimum p)) TOLERANCIA
             then saldos_iguais
                    (Number.toFixed2
                       (Number.div (Number.add (minimum p) (maximum p)) DOIS))
             else saldos_diferentes)
  /\ (p <> [] ->
      In (minimum p) p /\ In (maximum p) p
      /\ Forall (fun x => Number.leb (minimum p) x = true
                          /\ Number.leb x (maximum p) = true) p).
Proof.
  intros r ind p. destruct (montar_verdict fornecedor textos) as [Hv Hg].
  fold r ind p in Hv, Hg. split; [exact Hv|]. split; [exact Hv|].
  intros Hne. destruct p as [|x l] eqn:Ep; [congruence|].
  split; [apply fold_min_in|]. split; [apply fold_max_in|].
  apply List.Forall_forall. intros z Hz. split.
  - apply (fold_min_le l x Hg z Hz).
  - apply (fold_max_ge l x Hg z Hz).
Qed.

(** X2.  The [Number.isFinite] guard of the verdict never fails: the
    verdict is [dados_insuficientes] exactly when fewer than two of the
    three sources have a parsed balance. *)
Theorem dados_insuficientes_iff `{UnicodeData}
    (fornecedor : jsval) (textos : gmap jsstring jsstring) :
  let r := montarIndicadoresFornecedor fornecedor textos in
  avaliacaoAutomaticaSaldo r = dados_insuficientes
  <-> (length (present (indicadoresFornecedor r)) < 2)%nat.
Proof.
  intros r. destruct (montar_verdict fornecedor textos) as [Hv _].
  fold r in Hv. rewrite Hv. unfold verdict.
  destruct (Nat.ltb_spec (length (present (indicadoresFornecedor r))) 2) as [Hlt|Hge].
  - split; [intros _; exact Hlt|reflexivity].
  - split; [|lia]. destruct (Number.leb _ TOLERANCIA); discriminate.
Qed.

(** X3.  Every parsed balance in the output is a finite number that is
    neither negative nor the negative zero: the monetary pattern has no
    sign, so the minus sign of a negative amount is not captured. *)
Theorem saldos_nao_negativos `{UnicodeData}
    (fornecedor : jsval) (textos : gmap jsstring jsstring) (k : jsstring)
    (ind : Indicador) :
  indicadoresFornecedor (montarIndicadoresFornecedor fornecedor textos) !! k = Some ind ->
  Forall (fun s => Number.nonneg_finite (numero s) = true
                   /\ Number.isFinite (numero s) = true
                   /\ starts_with_digit (texto s))
    (saldosEncontrados ind).
Proof.
  intros Hk.
  pose proof (balances_nonneg fornecedor textos k) as Hb.
  unfold balances in Hb. rewrite Hk in Hb. cbn [default from_option id] in Hb.
  rewrite List.Forall_map in Hb.
  assert (Hind : exists t, ind = indicador_de fornecedor t).
  { revert Hk. rewrite montar_indicadores, !lookup_insert.
    repeat case_decide; rewrite ?lookup_empty; intros [= <-]; eauto. }
  destruct Hind as [t ->]. cbn [indicador_de saldosEncontrados] in *.
  apply List.Forall_forall. intros s Hs.
  pose proof (proj1 (List.Forall_forall _ _) Hb s Hs) as Hn.
  split; [exact Hn|]. split; [apply nonneg_finite_isFinite, Hn|].
  revert Hs. generalize (extrairLinhasFornecedor_ultimo (Some t) fornecedor).
  generalize (extrairLinhasFornecedor (Some t) fornecedor) as ls.
  induction ls as [|e ls IH]; intros Hd; [intros []|].
  cbn [saldos_das_linhas].
  assert (IH' : In s (saldos_das_linhas ls) -> starts_with_digit (texto s)).
  { apply IH. intros e' x Hin. apply Hd. right. exact Hin. }
  destruct (ultimoNumero e) as [x|] eqn:Eu; [|exact IH'].
  destruct (JS.falsy (Some x)); [exact IH'|].
  destruct (parseValorMonetario (Some x)); [|exact IH'].
  intros [<- | Hin]; [|exact (IH' Hin)].
  cbn [texto JS.to_string]. apply (Hd e x (or_introl eq_refl) Eu).
Qed.

Lemma saldos_nao_negativos_witness :
  let ind := indicador_de (Some (JS.lit "ACME")) (JS.lit "ACME LTDA saldo -1.000,00 D") in
  Forall (fun s => Number.nonneg_finite (numero s) = true
                   /\ Number.isFinite (numero s) = true
                   /\ starts_with_digit (texto s))
    (saldosEncontrados ind)
  /\ List.map numero (saldosEncontrados ind) = [Prim2SF 1000%float].
Proof.
  intros ind. split.
  - apply (saldos_nao_negativos (H := latin1) (Some (JS.lit "ACME"))
             (<[JS.lit "razao" := JS.lit "ACME LTDA saldo -1.000,00 D"]> ∅)
             (JS.lit "razao") ind).
    vm_compute. reflexivity.
  - vm_compute. reflexivity.
Defined.

Section EqualBalances.
Import Number.

Lemma ltb_irrefl x : nonneg_finite x = true -> ltb x x = false.
Proof.
  intros Hx. unfold ltb. rewrite (compare_at x x (exponent x)) by (auto; lia).
  rewrite Z.compare_refl. reflexivity.
Qed.

Lemma minimum_constant x l :
  nonneg_finite x = true -> Forall (fun y => y = x) l ->
  List.fold_left (fun m y => if ltb y m then y else m) l x = x.
Proof.
  intros Hx. induction 1 as [|y l -> _ IH]; [reflexivity|].
  cbn [List.fold_left]. rewrite (ltb_irrefl x Hx). exact IH.
Qed.

Lemma maximum_constant x l :
  nonneg_finite x = true -> Forall (fun y => y = x) l ->
  List.fold_left (fun m y => if ltb m y then y else m) l x = x.
Proof.
  intros Hx. induction 1 as [|y l -> _ IH]; [reflexivity|].
  cbn [List.fold_left]. rewrite (ltb_irrefl x Hx). exact IH.
Qed.

(** A finite non-negative number minus itself is the positive zero. *)
Lemma sub_self x : nonneg_finite x = true -> sub x x = S754_zero false.
Proof.
  intros Hx. destruct (nonneg_finite_cases x Hx) as [-> | (m & e & ->)];
    [reflexivity|].
  unfold sub, SFsub. cbn [cond_Zopp]. rewrite Z.sub_diag. reflexivity.
Qed.

End EqualBalances.

(** X4.  When at least two sources have a parsed balance and all the
    parsed balances are one and the same number [x], the verdict is
    [saldos_iguais], with reference value [(x + x) / 2] rounded to two
    decimals. *)
Theorem saldos_identicos_iguais `{UnicodeData}
    (fornecedor : jsval) (textos : gmap jsstring jsstring) (x : number) :
  let r := montarIndicadoresFornecedor fornecedor textos in
  (2 <= length (present (indicadoresFornecedor r)))%nat ->
  Forall (fun y => y = x) (pooled (indicadoresFornecedor r)) ->
  avaliacaoAutomaticaSaldo r =
    saldos_iguais (Number.toFixed2 (Number.div (Number.add x x) DOIS)).
Proof.
  intros r H2 Hall. destruct (montar_verdict fornecedor textos) as [Hv Hg].
  fold r in Hv, Hg. rewrite Hv. unfold verdict.
  destruct (Nat.ltb_spec (length (present (indicadoresFornecedor r))) 2); [lia|].
  destruct (pooled (indicadoresFornecedor r)) as [|y l] eqn:Ep.
  - exfalso. unfold pooled in Ep.
    destruct (present (indicadoresFornecedor r)) as [|k ks] eqn:Epr; [simpl in H2; lia|].
    assert (Hk : In k (present (indicadoresFornecedor r))) by (rewrite Epr; left; reflexivity).
    unfold present in Hk. apply List.filter_In in Hk as [_ Hk].
    cbn [List.flat_map] in Ep. apply List.app_eq_nil in Ep as [Ek _].
    rewrite Ek in Hk. discriminate.
  - apply List.Forall_cons_iff in Hall as [-> Hl].
    apply List.Forall_cons_iff in Hg as [Hx _].
    unfold minimum, maximum.
    rewrite (minimum_constant x l Hx Hl), (maximum_constant x l Hx Hl).
    rewrite (sub_self x Hx). reflexivity.
Qed.

Lemma saldos_identicos_iguais_witness :
  avaliacaoAutomaticaSaldo
    (montarIndicadoresFornecedor (Some (JS.lit "ACME Distribuidora"))
       (<[JS.lit "razao" := JS.lit "ACME DISTRIBUIDORA LTDA 10/2024 1.500,00"]>
          (<[JS.lit "balancete" := JS.lit "2.1.1 Acme Distribuidora 1.500,00"]> ∅)))
  = saldos_iguais (Prim2SF 1500%float).
Proof.
  rewrite (saldos_identicos_iguais (H := latin1) _ _ (Prim2SF 1500%float)).
  - vm_compute. reflexivity.
  - vm_compute. lia.
  - vm_compute. repeat constructor.
Defined.

(** ** TextNormalizer: the shape of the output *)

Section TrimFacts.
Import JS.

Lemma trimStart_head s c r : trimStart s = c :: r -> is_space c = false.
Proof.
  induction s as [|a s IH]; [discriminate|].
  cbn [trimStart]. destruct (is_space a) eqn:Ea; [exact IH|].
  intros [= <- <-]. exact Ea.
Qed.

Lemma trimStart_fix s :
  match s with [] => True | c :: _ => is_space c = false end -> trimStart s = s.
Proof. destruct s as [|c r]; [reflexivity|]. cbn [trimStart]. intros ->. reflexivity. Qed.

Lemma trimStart_idem s : trimStart (trimStart s) = trimStart s.
Proof.
  apply trimStart_fix. destruct (trimStart s) as [|c r] eqn:E; [exact I|].
  eapply trimStart_head, E.
Qed.

Lemma trimEnd_idem s : trimEnd (trimEnd s) = trimEnd s.
Proof. unfold trimEnd. rewrite List.rev_involutive, trimStart_idem. reflexivity. Qed.

(** What [trimEnd] leaves starts as its argument does. *)
Lemma trimEnd_head s c r :
  trimEnd s = c :: r -> exists r', s = c :: r'.
Proof.
  intros E. destruct (trimEnd_prefix s) as [post Hp].
  rewrite E in Hp. exists (r ++ post). exact Hp.
Qed.

Lemma trim_idem s : trim (trim s) = trim s.
Proof.
  unfold trim. rewrite (trimStart_fix (trimEnd (trimStart s))).
  - apply trimEnd_idem.
  - destruct (trimEnd (trimStart s)) as [|c r] eqn:E; [exact I|].
    destruct (trimEnd_head _ _ _ E) as [r' Hr]. eapply trimStart_head, Hr.
Qed.

Lemma trimStart_map (f : Z -> Z) s :
  (forall c, is_space (f c) = is_space c) ->
  trimStart (List.map f s) = List.map f (trimStart s).
Proof.
  intros Hf. induction s as [|c r IH]; [reflexivity|].
  cbn [List.map trimStart]. rewrite Hf. destruct (is_space c); [exact IH|reflexivity].
Qed.

Lemma trim_map (f : Z -> Z) s :
  (forall c, is_space (f c) = is_space c) ->
  trim (List.map f s) = List.map f (trim s).
Proof.
  intros Hf. unfold trim, trimEnd.
  rewrite trimStart_map, <- List.map_rev, trimStart_map, List.map_rev by exact Hf.
  reflexivity.
Qed.

Lemma lower_space c : is_space (lower c) = is_space c.
Proof.
  unfold lower. destruct (in_range 65 90 c) eqn:E; [|reflexivity].
  unfold is_space, in_range in *. lia.
Qed.

Lemma lower_word c : is_word (lower c) = is_word c.
Proof.
  unfold lower. destruct (in_range 65 90 c) eqn:E; [|reflexivity].
  unfold is_word, is_digit, in_range in *. lia.
Qed.

Lemma lower_mark c : is_mark (lower c) = is_mark c.
Proof.
  unfold lower. destruct (in_range 65 90 c) eqn:E; [|reflexivity].
  unfold is_mark, in_range in *. lia.
Qed.

Lemma lower_crlf c : is_crlf (lower c) = is_crlf c.
Proof.
  unfold lower. destruct (in_range 65 90 c) eqn:E; [|reflexivity].
  unfold is_crlf, in_range in *. lia.
Qed.

Lemma lower_idem c : lower (lower c) = lower c.
Proof.
  unfold lower. destruct (in_range 65 90 c) eqn:E; [|rewrite E; reflexivity].
  destruct (in_range 65 90 (c + 32)) eqn:E'; [|reflexivity].
  unfold in_range in *. lia.
Qed.

Lemma Forall_substring (P : Z -> Prop) t s :
  substring t s -> Forall P s -> Forall P t.
Proof.
  intros (pre & post & ->) Hs.
  apply List.Forall_app in Hs as [_ Hs]. apply List.Forall_app in Hs as [Ht _].
  exact Ht.
Qed.

(** After the runs of white space are replaced, the only white space
    left is the space. *)
Lemma replace_runs_space b s :
  Forall (fun c => is_space c = true -> c = SP) (replace_runs_from is_space b s).
Proof.
  revert b. induction s as [|c r IH]; intros b; [constructor|].
  cbn [replace_runs_from]. destruct (is_space c) eqn:Ec.
  - destruct b; [apply IH|]. constructor; [reflexivity|apply IH].
  - constructor; [|apply IH]. congruence.
Qed.

End TrimFacts.

Section ShapeFacts.
Context `{UnicodeData}.
Import JS.

(** Before [trim] and [toLowerCase] the text is over [[A-Za-z0-9_ ]]:
    [toLowerCase] is applied to Basic Latin only. *)
Lemma pre_lower_alphabet s :
  Forall (fun c => is_word c = true \/ c = SP) (trim (pre_trim s)).
Proof.
  apply (Forall_substring _ _ _ (trim_substring _)).
  unfold pre_trim, replace_each. apply List.Forall_map.
  eapply List.Forall_impl; [|apply replace_runs_space].
  intros c Hc. cbv beta. destruct (is_word c) eqn:Ew; [left; exact Ew|].
  cbn [orb]. destruct (is_space c) eqn:Es; cbn [negb]; right; auto.
Qed.

Lemma normalizarTexto_alphabet v :
  Forall (fun c => normalized_unit c = true) (normalizarTexto v).
Proof.
  unfold normalizarTexto. destruct (falsy v); [constructor|].
  unfold toLowerCase. apply List.Forall_map.
  eapply List.Forall_impl; [|apply pre_lower_alphabet].
  intros c [Hw | ->]; [|reflexivity].
  revert Hw. unfold lower. destruct (in_range 65 90 c) eqn:E;
    unfold normalized_unit, is_word, is_digit, in_range, SP in *; lia.
Qed.

Lemma normalizarTexto_trimmed v : trim (normalizarTexto v) = normalizarTexto v.
Proof.
  unfold normalizarTexto. destruct (falsy v); [reflexivity|].
  unfold toLowerCase. rewrite trim_map by apply lower_space.
  rewrite trim_idem. reflexivity.
Qed.

End ShapeFacts.

(** X5.  Whatever the input and the decomposition table, the output of
    [normalizarTexto] consists of lower-case Basic Latin letters,
    digits, underscores and spaces only, and has no white space at
    either end. *)
Theorem normalizarTexto_shape `{UnicodeData} (v : jsval) :
  Forall (fun c => normalized_unit c = true) (normalizarTexto v)
  /\ JS.trim (normalizarTexto v) = normalizarTexto v
  /\ JS.toLowerCase (normalizarTexto v) = normalizarTexto v
  /\ (forall c r, normalizarTexto v = c :: r -> c <> JS.SP)
  /\ (forall c r, normalizarTexto v = r ++ [c] -> c <> JS.SP).
Proof.
  pose proof (normalizarTexto_alphabet v) as Ha.
  pose proof (normalizarTexto_trimmed v) as Ht.
  split; [exact Ha|]. split; [exact Ht|]. split; [|split].
  - unfold JS.toLowerCase. rewrite <- (List.map_id (normalizarTexto v)) at 2.
    apply List.map_ext_Forall. eapply List.Forall_impl; [|exact Ha].
    intros c. unfold JS.lower. destruct (JS.in_range 65 90 c) eqn:E; [|reflexivity].
    unfold normalized_unit, JS.is_digit, JS.in_range, JS.SP in *. lia.
  - intros c r E ->. rewrite E in Ht. unfold JS.trim in Ht.
    cbn [JS.trimStart] in Ht. change (JS.is_space JS.SP) with true in Ht.
    cbv iota in Ht.
    assert (Hlen : (length (JS.trimEnd (JS.trimStart r)) <= length r)%nat).
    { destruct (trimEnd_prefix (JS.trimStart r)) as [post Hp].
      destruct (trimStart_suffix r) as [pre Hq].
      rewrite Hq at 2. rewrite Hp at 2. rewrite !List.length_app. lia. }
    rewrite Ht in Hlen. simpl in Hlen. lia.
  - intros c r E ->. rewrite E in Ht. unfold JS.trim in Ht.
    assert (Hlen : (length (JS.trimEnd (JS.trimStart (r ++ [JS.SP]))) <= length r)%nat).
    { destruct (trimStart_suffix (r ++ [JS.SP])) as [pre Hq].
      unfold JS.trimEnd.
      assert (Hr : exists t, JS.trimStart (r ++ [JS.SP]) = t ++ [JS.SP] /\ (length t <= length r)%nat
                  \/ JS.trimStart (r ++ [JS.SP]) = []).
      { clear. induction r as [|a r [t [[Ht Hl]|Ht]]].
        - exists []. right. reflexivity.
        - cbn [app JS.trimStart]. destruct (JS.is_space a).
          + exists t. left. split; [exact Ht|simpl; lia].
          + exists (a :: r). left. split; [reflexivity|lia].
        - cbn [app JS.trimStart]. destruct (JS.is_space a).
          + exists []. right. exact Ht.
          + exists (a :: r). left. split; [reflexivity|lia]. }
      destruct Hr as [t [[Hr Hl]|Hr]]; rewrite Hr.
      - rewrite List.rev_app_distr. cbn [List.rev app JS.trimStart].
        change (JS.is_space JS.SP) with true. cbv iota.
        rewrite List.length_rev.
        destruct (trimStart_suffix (List.rev t)) as [pre' Hq'].
        assert (length (JS.trimStart (List.rev t)) <= length (List.rev t))%nat
          by (rewrite Hq' at 2; rewrite List.length_app; lia).
        rewrite List.length_rev in *. lia.
      - simpl. lia. }
    rewrite Ht, List.length_app in Hlen. simpl in Hlen. lia.
Qed.

(** ** TextNormalizer: a second pass *)

Section RunsFacts.
Import JS.

Lemma filter_all {A} (f : A -> bool) l :
  Forall (fun x => f x = true) l -> List.filter f l = l.
Proof.
  induction 1 as [|x l Hx _ IH]; [reflexivity|].
  cbn [List.filter]. rewrite Hx, IH. reflexivity.
Qed.

Lemma replace_runs_from_none p b s :
  Forall (fun c => p c = false) s -> replace_runs_from p b s = s.
Proof.
  intros Hs. revert b. induction Hs as [|c r Hc _ IH]; intros b; [reflexivity|].
  cbn [replace_runs_from]. rewrite Hc, IH. reflexivity.
Qed.

Lemma replace_runs_from_ext p q b s :
  Forall (fun c => p c = q c) s ->
  replace_runs_from p b s = replace_runs_from q b s.
Proof.
  intros Hs. revert b. induction Hs as [|c r Hc _ IH]; intros b; [reflexivity|].
  cbn [replace_runs_from]. rewrite Hc, !IH. reflexivity.
Qed.

Lemma replace_runs_from_Forall (P : Z -> Prop) p b s :
  P SP -> Forall P s -> Forall P (replace_runs_from p b s).
Proof.
  intros HP Hs. revert b. induction Hs as [|c r Hc _ IH]; intros b; [constructor|].
  cbn [replace_runs_from]. destruct (p c); [destruct b|]; auto.
Qed.

Lemma replace_runs_from_length p b s :
  (length (replace_runs_from p b s) <= length s)%nat.
Proof.
  revert b. induction s as [|c r IH]; intros b; [reflexivity|].
  pose proof (IH true). pose proof (IH false).
  cbn [replace_runs_from]. destruct (p c); [destruct b|]; cbn [length]; lia.
Qed.

Lemma replace_runs_from_app p b r c t :
  p c = false ->
  replace_runs_from p b (r ++ c :: t)
  = replace_runs_from p b r ++ c :: replace_runs_from p false t.
Proof.
  intros Hc. revert b. induction r as [|a r IH]; intros b.
  - cbn [app replace_runs_from]. rewrite Hc. reflexivity.
  - cbn [app replace_runs_from]. destruct (p a); [destruct b|];
      rewrite IH; reflexivity.
Qed.

(** Collapsing runs a second time changes nothing. *)
Lemma replace_runs_idem p s :
  p SP = true ->
  (forall b, replace_runs_from p false (replace_runs_from p b s) = replace_runs_from p b s)
  /\ replace_runs_from p true (replace_runs_from p true s) = replace_runs_from p true s.
Proof.
  intros HSP. induction s as [|c r [IH1 IH2]]; [split; [intros b|]; reflexivity|].
  split; [intros b|]; cbn [replace_runs_from]; destruct (p c) eqn:Ec.
  - destruct b; [apply IH1|]. cbn [replace_runs_from]. rewrite HSP, IH2. reflexivity.
  - cbn [replace_runs_from]. rewrite Ec, IH1. reflexivity.
  - exact IH2.
  - cbn [replace_runs_from]. rewrite Ec, IH1. reflexivity.
Qed.

Lemma colapsar_espacos_idem s :
  colapsar_espacos (colapsar_espacos s) = colapsar_espacos s.
Proof.
  unfold colapsar_espacos, replace_runs.
  apply (proj1 (replace_runs_idem (fun c => c =? SP) s (Z.eqb_refl SP))).
Qed.

(** A text is left as it is exactly when it has no two spaces in a row. *)
Lemma colapsar_espacos_fix s :
  (colapsar_espacos s = s <-> includes s [SP; SP] = false)
  /\ (replace_runs_from (fun c => c =? SP) true s = s <->
      startsWith s [SP] = false /\ includes s [SP; SP] = false).
Proof.
  unfold colapsar_espacos, replace_runs.
  induction s as [|c r [IH1 IH2]]; [split; split; auto|].
  assert (Hst : forall x, startsWith r [x] = match r with [] => false | d :: _ => x =? d end).
  { intros x. destruct r as [|d r']; [reflexivity|]. cbn [startsWith].
    rewrite startsWith_nil_r, andb_true_r. reflexivity. }
  cbn [replace_runs_from includes startsWith]. rewrite startsWith_nil_r, andb_true_r.
  change (match r with [] => false | b :: s' => (SP =? b) && startsWith s' [] end)
    with (startsWith r [SP]).
  destruct (Z.eqb_spec c SP) as [->|Hne].
  - rewrite Z.eqb_refl. cbn [andb]. split.
    + split.
      * intros [= E]. apply IH2 in E as [E1 E2]. rewrite E1, E2. reflexivity.
      * intros E. apply orb_false_iff in E as [E1 E2]. f_equal. apply IH2. auto.
    + split; [|intros [E _]; discriminate E].
      intros E. exfalso.
      pose proof (replace_runs_from_length (fun c => c =? SP) true r) as Hl.
      rewrite E in Hl. cbn [length] in Hl. lia.
  - assert (Hc : (SP =? c) = false) by (apply Z.eqb_neq; congruence).
    rewrite Hc. cbn [andb orb]. split.
    + split; [intros [= E]; apply IH1, E|intros E; f_equal; apply IH1, E].
    + split.
      * intros [= E]. split; [reflexivity|apply IH1, E].
      * intros [_ E]. f_equal. apply IH1, E.
Qed.

End RunsFacts.

Section TrimEnds.
Import JS.

Lemma trimStart_length s : (length (trimStart s) <= length s)%nat.
Proof.
  destruct (trimStart_suffix s) as [pre Hp]. rewrite Hp at 2.
  rewrite List.length_app. lia.
Qed.

Lemma trimEnd_length s : (length (trimEnd s) <= length s)%nat.
Proof.
  destruct (trimEnd_prefix s) as [post Hp]. rewrite Hp at 2.
  rewrite List.length_app. lia.
Qed.

Lemma trim_fix_ends s :
  match s with [] => True | c :: _ => is_space c = false end ->
  (forall r c, s = r ++ [c] -> is_space c = false) ->
  trim s = s.
Proof.
  intros Hh Hl. unfold trim. rewrite (trimStart_fix s Hh). unfold trimEnd.
  rewrite trimStart_fix; [apply List.rev_involutive|].
  destruct (List.rev s) as [|c r] eqn:E; [exact I|].
  apply (Hl (List.rev r) c). rewrite <- (List.rev_involutive s), E. reflexivity.
Qed.

Lemma trim_fixed_head s c r : trim s = s -> s = c :: r -> is_space c = false.
Proof.
  intros Ht ->. destruct (is_space c) eqn:Ec; [exfalso|reflexivity].
  unfold trim in Ht. cbn [trimStart] in Ht. rewrite Ec in Ht.
  pose proof (trimEnd_length (trimStart r)) as H1.
  pose proof (trimStart_length r) as H2.
  rewrite Ht in H1. cbn [length] in H1. lia.
Qed.

Lemma trim_fixed_last s r c : trim s = s -> s = r ++ [c] -> is_space c = false.
Proof.
  intros Ht Hs. unfold trim in Ht.
  assert (Hst : trimStart s = s).
  { destruct (trimStart_suffix s) as [pre Hp].
    pose proof (trimEnd_length (trimStart s)) as H1. rewrite Ht in H1.
    assert (Hpre : length pre = 0%nat).
    { apply (f_equal (@length Z)) in Hp. rewrite List.length_app in Hp. lia. }
    destruct pre; [exact (eq_sym Hp)|discriminate]. }
  rewrite Hst in Ht. unfold trimEnd in Ht.
  apply (f_equal (@List.rev Z)) in Ht. rewrite List.rev_involutive in Ht.
  rewrite Hs, List.rev_app_distr in Ht. cbn [List.rev app] in Ht.
  eapply trimStart_head, Ht.
Qed.

End TrimEnds.

Section SecondPass.
Context `{UnicodeData}.
Import JS.
Hypothesis nfd_ascii : forall s, Forall (fun c => is_ascii c = true) s -> nfd s = s.

Lemma normalized_unit_facts c :
  normalized_unit c = true ->
  is_ascii c = true /\ is_mark c = false /\ is_crlf c = false
  /\ is_space c = (c =? SP) /\ negb (is_word c || is_space c) = false
  /\ lower c = c.
Proof.
  unfold normalized_unit, is_ascii, is_mark, is_crlf, is_space, is_word, is_digit,
    lower, in_range, SP.
  intros Hc. repeat split; try lia.
  destruct ((65 <=? c) && (c <=? 90)) eqn:E; lia.
Qed.

(** Normalizing a text that is already normalized collapses its runs
    of spaces and does nothing else. *)
Lemma normalizar_segunda_passagem s :
  Forall (fun c => normalized_unit c = true) s -> trim s = s ->
  normalizarTexto (Some s) = colapsar_espacos s.
Proof.
  intros Ha Ht. destruct s as [|c0 r0] eqn:Es; [reflexivity|]. rewrite <- Es in *.
  unfold normalizarTexto. replace (falsy (Some s)) with false by (rewrite Es; reflexivity).
  cbn [to_string]. unfold pre_trim.
  rewrite nfd_ascii
    by (eapply List.Forall_impl; [|exact Ha]; intros c Hc; apply normalized_unit_facts, Hc).
  unfold remove_all. rewrite filter_all
    by (eapply List.Forall_impl; [|exact Ha]; intros c Hc;
        destruct (normalized_unit_facts c Hc) as (_ & -> & _); reflexivity).
  unfold replace_runs at 2. rewrite replace_runs_from_none
    by (eapply List.Forall_impl; [|exact Ha]; intros c Hc;
        apply normalized_unit_facts, Hc).
  unfold replace_runs.
  rewrite (replace_runs_from_ext is_space (fun c => c =? SP))
    by (eapply List.Forall_impl; [|exact Ha]; intros c Hc;
        apply normalized_unit_facts, Hc).
  fold (replace_runs (fun c => c =? SP) s). fold (colapsar_espacos s).
  assert (Hm : Forall (fun c => normalized_unit c = true) (colapsar_espacos s)).
  { apply replace_runs_from_Forall; [reflexivity|exact Ha]. }
  assert (Heach : replace_each (fun c => negb (is_word c || is_space c)) (colapsar_espacos s)
                  = colapsar_espacos s).
  { unfold replace_each. rewrite <- (List.map_id (colapsar_espacos s)) at 2.
    apply List.map_ext_Forall. eapply List.Forall_impl; [|exact Hm].
    intros c Hc. cbv beta. destruct (normalized_unit_facts c Hc) as (_ & _ & _ & _ & -> & _).
    reflexivity. }
  rewrite Heach.
  assert (Htrim : trim (colapsar_espacos s) = colapsar_espacos s).
  { assert (Hc0 : is_space c0 = false) by (eapply trim_fixed_head; [exact Ht|exact Es]).
    assert (Hp0 : (c0 =? SP) = false).
    { destruct (normalized_unit_facts c0) as (_ & _ & _ & E & _).
      - rewrite Es in Ha. apply List.Forall_cons_iff in Ha as [Ha _]. exact Ha.
      - rewrite <- E. exact Hc0. }
    apply trim_fix_ends.
    - rewrite Es. unfold colapsar_espacos, replace_runs. cbn [replace_runs_from].
      rewrite Hp0. exact Hc0.
    - intros r c Hr.
      destruct (List.exists_last (l := s)) as (r' & c' & Hs'); [rewrite Es; discriminate|].
      assert (Hc' : is_space c' = false) by (eapply trim_fixed_last; [exact Ht|exact Hs']).
      assert (Hp' : (c' =? SP) = false).
      { destruct (normalized_unit_facts c') as (_ & _ & _ & E & _).
        - rewrite Hs' in Ha. apply List.Forall_app in Ha as [_ Ha].
          apply List.Forall_cons_iff in Ha as [Ha _]. exact Ha.
        - rewrite <- E. exact Hc'. }
      revert Hr. rewrite Hs'. unfold colapsar_espacos, replace_runs.
      rewrite (replace_runs_from_app (fun c => c =? SP) false r' c' [] Hp').
      cbn [replace_runs_from]. intros Hr.
      apply List.app_inj_tail in Hr as [_ <-]. exact Hc'. }
  rewrite Htrim. unfold toLowerCase.
  rewrite <- (List.map_id (colapsar_espacos s)) at 2.
  apply List.map_ext_Forall. eapply List.Forall_impl; [|exact Hm].
  intros c Hc. apply normalized_unit_facts, Hc.
Qed.

Lemma normalizar_duas_vezes v :
  normalizarTexto (Some (normalizarTexto v)) = colapsar_espacos (normalizarTexto v).
Proof.
  apply normalizar_segunda_passagem;
    [apply normalizarTexto_alphabet|apply normalizarTexto_trimmed].
Qed.

End SecondPass.

Lemma nfd_latin1_ascii s :
  Forall (fun c => is_ascii c = true) s -> nfd (UnicodeData := latin1) s = s.
Proof.
  cbn [nfd latin1]. unfold nfd_latin1. induction 1 as [|c r Hc _ IH]; [reflexivity|].
  cbn [List.flat_map]. rewrite IH.
  replace (nfd_latin1_unit c) with [c]; [reflexivity|].
  unfold nfd_latin1_unit, is_ascii, JS.in_range in *.
  repeat match goal with
         | |- context [if ?b then _ else _] => destruct b eqn:?
         end; try reflexivity; lia.
Qed.

(** X6.  With a decomposition that leaves Basic Latin text alone,
    normalizing a second time collapses every run of spaces of the
    normalized text to one space and changes nothing else; the second
    pass is the identity exactly when the normalized text has no two
    spaces in a row. *)
Theorem normalizarTexto_second_pass `{UnicodeData} (v : jsval) :
  (forall s, Forall (fun c => is_ascii c = true) s -> nfd s = s) ->
  normalizarTexto (Some (normalizarTexto v)) = colapsar_espacos (normalizarTexto v)
  /\ (normalizarTexto (Some (normalizarTexto v)) = normalizarTexto v
      <-> JS.includes (normalizarTexto v) [JS.SP; JS.SP] = false).
Proof.
  intros Hnfd. pose proof (normalizar_duas_vezes Hnfd v) as E.
  split; [exact E|]. rewrite E. apply colapsar_espacos_fix.
Qed.

Lemma normalizarTexto_second_pass_witness :
  normalizarTexto (Some (normalizarTexto (Some (JS.lit "ACME, S.A. - Filial"))))
  = colapsar_espacos (normalizarTexto (Some (JS.lit "ACME, S.A. - Filial")))
  /\ normalizarTexto (Some (JS.lit "ACME, S.A. - Filial")) = JS.lit "acme  s a    filial"
  /\ colapsar_espacos (JS.lit "acme  s a    filial") = JS.lit "acme s a filial".
Proof.
  split; [|split; vm_compute; reflexivity].
  apply (normalizarTexto_second_pass (H := latin1)), nfd_latin1_ascii.
Defined.

(** X7.  With a decomposition that leaves Basic Latin text alone,
    [normalizarTexto] is stable from the second application on: a
    third pass returns what the second returned. *)
Theorem normalizarTexto_third_pass `{UnicodeData} (v : jsval) :
  (forall s, Forall (fun c => is_ascii c = true) s -> nfd s = s) ->
  normalizarTexto (Some (normalizarTexto (Some (normalizarTexto v))))
  = normalizarTexto (Some (normalizarTexto v)).
Proof.
  intros Hnfd.
  rewrite (normalizar_duas_vezes Hnfd (Some (normalizarTexto v))).
  rewrite (normalizar_duas_vezes Hnfd v). apply colapsar_espacos_idem.
Qed.

Lemma normalizarTexto_third_pass_witness :
  normalizarTexto (Some (normalizarTexto (Some (normalizarTexto (Some (JS.lit "a, b"))))))
  = normalizarTexto (Some (normalizarTexto (Some (JS.lit "a, b")))).
Proof.
  apply (normalizarTexto_third_pass (H := latin1)), nfd_latin1_ascii.
Defined.

Section CaseFacts.
Context `{UnicodeData}.
Import JS.

Lemma filter_map_commute (p : Z -> bool) (f : Z -> Z) s :
  (forall c, p (f c) = p c) ->
  List.filter p (List.map f s) = List.map f (List.filter p s).
Proof.
  intros Hp. induction s as [|c r IH]; [reflexivity|].
  cbn [List.map List.filter]. rewrite Hp, IH. destruct (p c); reflexivity.
Qed.

Lemma replace_runs_from_map (p : Z -> bool) (f : Z -> Z) b s :
  (forall c, p (f c) = p c) -> f SP = SP ->
  replace_runs_from p b (List.map f s) = List.map f (replace_runs_from p b s).
Proof.
  intros Hp HSP. revert b. induction s as [|c r IH]; intros b; [reflexivity|].
  cbn [List.map replace_runs_from]. rewrite Hp.
  destruct (p c); [destruct b|]; cbn [List.map]; rewrite ?HSP, IH; reflexivity.
Qed.

Lemma replace_each_map (q : Z -> bool) (f : Z -> Z) s :
  (forall c, q (f c) = q c) -> f SP = SP ->
  replace_each q (List.map f s) = List.map f (replace_each q s).
Proof.
  intros Hq HSP. unfold replace_each. rewrite !List.map_map.
  apply List.map_ext. intros c. rewrite Hq. destruct (q c); [rewrite HSP|]; reflexivity.
Qed.

Lemma lower_ascii c : is_ascii c = true -> is_ascii (lower c) = true.
Proof.
  unfold lower. destruct (in_range 65 90 c) eqn:E; [|auto].
  unfold is_ascii, in_range in *. lia.
Qed.

(** On Basic Latin text, lower-casing first does not change the
    normalized text. *)
Lemma normalizarTexto_lower s :
  (forall s, Forall (fun c => is_ascii c = true) s -> nfd s = s) ->
  Forall (fun c => is_ascii c = true) s ->
  normalizarTexto (Some (toLowerCase s)) = normalizarTexto (Some s).
Proof.
  intros Hnfd Hs. destruct s as [|c0 r0] eqn:Es; [reflexivity|]. rewrite <- Es in *.
  assert (Hls : Forall (fun c => is_ascii c = true) (toLowerCase s)).
  { unfold toLowerCase. apply List.Forall_map.
    eapply List.Forall_impl; [|exact Hs]. intros c. apply lower_ascii. }
  unfold normalizarTexto.
  replace (falsy (Some (toLowerCase s))) with false by (rewrite Es; reflexivity).
  replace (falsy (Some s)) with false by (rewrite Es; reflexivity).
  cbn [to_string]. unfold pre_trim. rewrite (Hnfd _ Hls), (Hnfd _ Hs).
  unfold toLowerCase at 2, remove_all, replace_runs.
  rewrite filter_map_commute by (intros c; rewrite lower_mark; reflexivity).
  rewrite replace_runs_from_map by (auto using lower_crlf).
  rewrite replace_runs_from_map by (auto using lower_space).
  rewrite replace_each_map
    by (try reflexivity; intros c; rewrite lower_word, lower_space; reflexivity).
  rewrite trim_map by apply lower_space.
  unfold toLowerCase. rewrite List.map_map. apply List.map_ext, lower_idem.
Qed.

End CaseFacts.

(** X8.  With a decomposition that leaves Basic Latin text alone, two
    Basic Latin texts that differ only in the case of their letters
    have the same normalized text. *)
Theorem normalizarTexto_case_insensitive `{UnicodeData} (s t : jsstring) :
  (forall s, Forall (fun c => is_ascii c = true) s -> nfd s = s) ->
  Forall (fun c => is_ascii c = true) s ->
  Forall (fun c => is_ascii c = true) t ->
  JS.toLowerCase s = JS.toLowerCase t ->
  normalizarTexto (Some s) = normalizarTexto (Some t).
Proof.
  intros Hnfd Hs Ht E.
  rewrite <- (normalizarTexto_lower s Hnfd Hs), <- (normalizarTexto_lower t Hnfd Ht), E.
  reflexivity.
Qed.

Lemma normalizarTexto_case_insensitive_witness :
  normalizarTexto (Some (JS.lit "ACME Distribuidora LTDA"))
  = normalizarTexto (Some (JS.lit "acme DISTRIBUIDORA Ltda")).
Proof.
  apply (normalizarTexto_case_insensitive (H := latin1)).
  - apply nfd_latin1_ascii.
  - vm_compute. repeat constructor.
  - vm_compute. repeat constructor.
  - vm_compute. reflexivity.
Defined.

(** ** VendorMatcher: when the answer is [true] *)

Section PresenceFacts.
Context `{UnicodeData}.
Import JS.

(** The presence threshold in whole numbers. *)
Lemma limiar_presenca_nat tokens l :
  tokens <> [] ->
  Qle_bool LIMIAR_PRESENCA (score tokens l) = true
  <-> (7 * length tokens <= 10 * encontrados tokens l)%nat.
Proof.
  intros Hne. rewrite Qle_bool_iff. unfold score, LIMIAR_PRESENCA, Qle.
  cbn [Qnum Qden]. rewrite Zpos_of_nat by (destruct tokens; [congruence|simpl; lia]).
  lia.
Qed.

Lemma limiar_extracao_nat tokens l :
  tokens <> [] ->
  Qle_bool LIMIAR_EXTRACAO (score tokens l) = true
  <-> (6 * length tokens <= 10 * encontrados tokens l)%nat.
Proof.
  intros Hne. rewrite Qle_bool_iff. unfold score, LIMIAR_EXTRACAO, Qle.
  cbn [Qnum Qden]. rewrite Zpos_of_nat by (destruct tokens; [congruence|simpl; lia]).
  lia.
Qed.

Lemma existsb_linhas tokens doc :
  tokens <> [] -> Forall (fun t => (2 < length t)%nat) tokens ->
  List.existsb (fun l => Qle_bool LIMIAR_PRESENCA (score tokens l))
    (List.filter (fun l => negb (falsy (Some l)))
       (List.map (fun l => normalizarTexto (Some l)) (split_lines doc))) = true
  <-> linha_presente tokens doc.
Proof.
  intros Hne Hlong. rewrite List.existsb_exists. unfold linha_presente. split.
  - intros (n & Hn & Hq). apply List.filter_In in Hn as [Hn _].
    apply List.in_map_iff in Hn as (l & <- & Hl).
    exists l. split; [exact Hl|]. apply limiar_presenca_nat; assumption.
  - intros (l & Hl & Hq). exists (normalizarTexto (Some l)). split.
    + apply presente_filtrada; [exact Hl|]. intros E.
      rewrite E, (encontrados_nil _ Hlong) in Hq.
      destruct tokens; [congruence|simpl in Hq; lia].
    + apply limiar_presenca_nat; assumption.
Qed.

Lemma fornecedorExisteNaRazao_true v d :
  fornecedorExisteNaRazao v d = true <->
  normalizarTexto v <> []
  /\ (includes (normalizarTexto d) (normalizarTexto v) = true
      \/ (tokensAlvo (normalizarTexto v) <> []
          /\ linha_presente (tokensAlvo (normalizarTexto v)) (to_string d))).
Proof.
  pose proof (tokensAlvo_long (normalizarTexto v)) as Hlong.
  destruct (normalizarTexto v) as [|a alvo] eqn:Ea.
  { split; [|intros [Hc _]; congruence]. unfold fornecedorExisteNaRazao.
    rewrite Ea. destruct (falsy v || falsy d); discriminate. }
  rewrite <- Ea in *.
  assert (Hv : falsy v = false) by (apply normalizarTexto_nonempty; rewrite Ea; discriminate).
  assert (Hnv : normalizarTexto v <> []) by (rewrite Ea; discriminate).
  destruct (falsy d) eqn:Ed.
  { rewrite fornecedorExisteNaRazao_falsy by (right; exact Ed).
    split; [discriminate|]. intros [_ [Hi | [Hne (l & Hl & Hq)]]]; exfalso.
    - rewrite (normalizarTexto_falsy d Ed), includes_nil_l in Hi by exact Hnv.
      discriminate.
    - assert (Hd : to_string d = []) by (destruct d as [[|]|]; try discriminate; reflexivity).
      rewrite Hd in Hl. destruct Hl as [<- | []].
      change (normalizarTexto (Some [])) with (@nil Z) in Hq.
      rewrite (encontrados_nil _ Hlong) in Hq.
      destruct (tokensAlvo (normalizarTexto v)); [congruence|simpl in Hq; lia]. }
  destruct d as [doc|]; [|discriminate]. cbn [to_string].
  assert (Hdoc : doc <> []) by (intros ->; discriminate).
  destruct (tokensAlvo (normalizarTexto v)) as [|t ts] eqn:Et.
  - unfold fornecedorExisteNaRazao. rewrite Hv, Ed. cbn [orb].
    rewrite Ea at 1. cbn [falsy]. rewrite Et.
    destruct (includes (normalizarTexto (Some doc)) (normalizarTexto v)).
    + split; auto.
    + cbn [length Nat.eqb]. split; [discriminate|]. intros [_ [Hi | [Hc _]]]; congruence.
  - rewrite <- Et in *.
    assert (Hne : tokensAlvo (normalizarTexto v) <> []) by (rewrite Et; discriminate).
    rewrite (fornecedorExisteNaRazao_por_linhas v doc Hne Hdoc), orb_true_iff.
    rewrite (existsb_linhas _ doc Hne Hlong). tauto.
Qed.

End PresenceFacts.

(** X9.  [fornecedorExisteNaRazao] answers [true] exactly when the
    normalized vendor name is not empty and either it occurs in the
    normalized document, or it has tokens of more than two code units
    and some line of the document contains at least 70% of them. *)
Theorem fornecedorExisteNaRazao_iff `{UnicodeData} (v d : jsval) :
  fornecedorExisteNaRazao v d = true <->
  normalizarTexto v <> []
  /\ (JS.includes (normalizarTexto d) (normalizarTexto v) = true
      \/ (tokensAlvo (normalizarTexto v) <> []
          /\ exists l, In l (JS.split_lines (JS.to_string d))
               /\ (7 * length (tokensAlvo (normalizarTexto v))
                   <= 10 * length (List.filter (JS.includes (normalizarTexto (Some l)))
                                     (tokensAlvo (normalizarTexto v))))%nat)).
Proof.
  rewrite fornecedorExisteNaRazao_true. unfold linha_presente.
  split; intros [Hne [Hi | [Ht (l & Hl & Hq)]]]; (split; [exact Hne|]); auto;
    right; (split; [exact Ht|]); exists l; (split; [exact Hl|]);
    [rewrite <- encontrados_count|rewrite encontrados_count]; exact Hq.
Qed.

(** X10.  The presence threshold is above the extraction threshold:
    when [fornecedorExisteNaRazao] answers [true] without the normalized
    name occurring in the normalized document, [extrairLinhasFornecedor]
    returns at least one line, with a score of 0.7 or more. *)
Theorem presenca_por_linha_extrai `{UnicodeData} (v d : jsval) :
  fornecedorExisteNaRazao v d = true ->
  JS.includes (normalizarTexto d) (normalizarTexto v) = false ->
  exists e, In e (extrairLinhasFornecedor d v)
    /\ (LIMIAR_PRESENCA <= scoreMatch e)%Q.
Proof.
  intros Hp Hi. apply fornecedorExisteNaRazao_true in Hp as [Hnv [Hi' | [Ht Hl]]];
    [congruence|].
  destruct Hl as (l & Hl & Hq).
  set (tokens := tokensAlvo (normalizarTexto v)) in *.
  assert (Hlong : Forall (fun t => (2 < length t)%nat) tokens) by apply tokensAlvo_long.
  assert (Hn : normalizarTexto (Some l) <> []).
  { intros E. rewrite E, (encontrados_nil _ Hlong) in Hq.
    destruct tokens; [congruence|simpl in Hq; lia]. }
  assert (Hdoc : exists doc, d = Some doc /\ doc <> []).
  { destruct d as [[|c doc]|]; cbn [JS.to_string] in Hl.
    - destruct Hl as [<- | []]. elim Hn. reflexivity.
    - exists (c :: doc). split; [reflexivity|discriminate].
    - destruct Hl as [<- | []]. elim Hn. reflexivity. }
  destruct Hdoc as (doc & -> & Hdoc). cbn [JS.to_string] in Hl.
  rewrite (extrairLinhasFornecedor_por_linhas v doc Ht Hdoc). fold tokens.
  assert (H7 : Qle_bool LIMIAR_PRESENCA (score tokens (normalizarTexto (Some l))) = true)
    by (apply limiar_presenca_nat; assumption).
  assert (H6 : Qle_bool LIMIAR_EXTRACAO (score tokens (normalizarTexto (Some l))) = true).
  { apply limiar_extracao_nat; [assumption|]. lia. }
  assert (He : exists e, linha_fornecedor tokens l = Some e
                 /\ scoreMatch e = score tokens (normalizarTexto (Some l))).
  { unfold linha_fornecedor.
    destruct (normalizarTexto (Some l)) as [|c n] eqn:En; [congruence|]. cbn [JS.falsy].
    destruct (Nat.eqb_spec (length tokens) 0) as [E0|_];
      [destruct tokens; [congruence|discriminate]|].
    rewrite H6. eexists. split; reflexivity. }
  destruct He as (e & He & Hsc). exists e. split.
  - apply list_elem_of_In, list_elem_of_omap. exists l.
    split; [apply list_elem_of_In, Hl|exact He].
  - rewrite Hsc. apply Qle_bool_iff, H7.
Qed.

Lemma presenca_por_linha_extrai_witness :
  exists e, In e (extrairLinhasFornecedor
                    (Some (JS.lit "12/03 PAGTO ACME DISTRIBUIDORA LTDA 1.250,00"))
                    (Some (JS.lit "ACME Comercio Distribuidora Ltda")))
    /\ (LIMIAR_PRESENCA <= scoreMatch e)%Q.
Proof.
  apply (presenca_por_linha_extrai (H := latin1)); vm_compute; reflexivity.
Defined.

(** X11.  A vendor name that has no token of more than two code units
    never yields a line or a balance: [extrairLinhasFornecedor] is
    empty and [montarIndicadoresFornecedor] gives the all-empty result
    for every document, while [fornecedorExisteNaRazao] can only answer
    [true] through the occurrence of the whole normalized name. *)
Theorem fornecedor_sem_tokens `{UnicodeData} (v : jsval) :
  tokensAlvo (normalizarTexto v) = [] ->
  (forall d, extrairLinhasFornecedor d v = [])
  /\ (forall textos, montarIndicadoresFornecedor v textos = resultado_vazio)
  /\ (forall d, fornecedorExisteNaRazao v d = true ->
        JS.includes (normalizarTexto d) (normalizarTexto v) = true).
Proof.
  intros Ht.
  assert (Hex : forall d, extrairLinhasFornecedor d v = []).
  { intros d. destruct (extrairLinhasFornecedor_cases d v) as [E | [Hn _]]; [exact E|].
    rewrite Ht in Hn. simpl in Hn. lia. }
  split; [exact Hex|]. split.
  - intros textos. apply montar_sem_linhas. intros k _. apply Hex.
  - intros d Hp. apply fornecedorExisteNaRazao_true in Hp as [_ [Hi | [Hne _]]];
      [exact Hi|congruence].
Qed.

Lemma fornecedor_sem_tokens_witness :
  extrairLinhasFornecedor (Some (JS.lit "3M DO BRASIL 10/2024 1.250,00")) (Some (JS.lit "3M"))
  = []
  /\ fornecedorExisteNaRazao (Some (JS.lit "3M"))
       (Some (JS.lit "3M DO BRASIL 10/2024 1.250,00")) = true.
Proof.
  split; [|vm_compute; reflexivity].
  apply (fornecedor_sem_tokens (H := latin1) (Some (JS.lit "3M"))).
  vm_compute. reflexivity.
Defined.

(** ** The monetary pattern: what is captured *)

Section CaptureFormat.
Import JS Regex.

Lemma match_groups_tail_cases s :
  match_groups_tail s =
    match s with
    | p :: a :: b :: c :: r =>
        if (p =? 46) && is_digit a && is_digit b && is_digit c then
          match match_groups_tail r with
          | Some n => Some (4 + n)%nat
          | None =>
              if (p =? 44) && is_digit a && is_digit b then Some 3%nat else None
          end
        else if (p =? 44) && is_digit a && is_digit b then Some 3%nat else None
    | [p; a; b] => if (p =? 44) && is_digit a && is_digit b then Some 3%nat else None
    | _ => None
    end.
Proof. destruct s as [|p [|a [|b [|c r]]]]; reflexivity. Qed.

Lemma match_groups_tail_format k s n :
  (length s <= k)%nat -> match_groups_tail s = Some n ->
  exists gs d1 d2,
    List.firstn n s = gs ++ [44; d1; d2] /\ length (gs ++ [44; d1; d2]) = n
    /\ grupos gs /\ is_digit d1 = true /\ is_digit d2 = true.
Proof.
  revert s n. induction k as [|k IH]; intros s n Hk.
  { destruct s; [discriminate|simpl in Hk; lia]. }
  rewrite match_groups_tail_cases.
  assert (Htail : forall p a b r,
            (if (p =? 44) && is_digit a && is_digit b then Some 3%nat else None) = Some n ->
            exists gs d1 d2,
              List.firstn n (p :: a :: b :: r) = gs ++ [44; d1; d2]
              /\ length (gs ++ [44; d1; d2]) = n
              /\ grupos gs /\ is_digit d1 = true /\ is_digit d2 = true).
  { intros p a b r. destruct ((p =? 44) && is_digit a && is_digit b) eqn:E; [|discriminate].
    intros [= <-]. apply andb_true_iff in E as [E Hb]. apply andb_true_iff in E as [Hp Ha].
    apply Z.eqb_eq in Hp. subst p. exists [], a, b.
    repeat split; auto. constructor. }
  destruct s as [|p [|a [|b [|c r]]]]; try discriminate.
  - apply Htail.
  - destruct ((p =? 46) && is_digit a && is_digit b && is_digit c) eqn:E; [|apply Htail].
    destruct (match_groups_tail r) as [m|] eqn:Em; [|apply Htail].
    intros [= <-].
    apply andb_true_iff in E as [E Hc]. apply andb_true_iff in E as [E Hb].
    apply andb_true_iff in E as [Hp Ha]. apply Z.eqb_eq in Hp. subst p.
    destruct (IH r m) as (gs & d1 & d2 & Hf & Hl & Hg & H1 & H2);
      [simpl in Hk; lia|exact Em|].
    exists (46 :: a :: b :: c :: gs), d1, d2.
    cbn [List.firstn Nat.add]. rewrite Hf.
    split; [reflexivity|]. split; [cbn [app length] in *; lia|].
    split; [constructor; assumption|]. split; assumption.
Qed.

Lemma match_with_digits_format k s n :
  (1 <= k <= 3)%nat -> match_with_digits k s = Some n ->
  valor_monetario (List.firstn n s) /\ (0 < n)%nat /\ length (List.firstn n s) = n.
Proof.
  intros Hk. unfold match_with_digits.
  destruct ((length (List.firstn k s) =? k)%nat && List.forallb is_digit (List.firstn k s))
    eqn:E; [|discriminate].
  apply andb_true_iff in E as [El Ed]. apply Nat.eqb_eq in El.
  destruct (match_groups_tail (List.skipn k s)) as [m|] eqn:Em; [|discriminate].
  intros [= <-].
  destruct (match_groups_tail_format _ _ m (le_n _) Em)
    as (gs & d1 & d2 & Hf & Hl & Hg & H1 & H2).
  assert (Hfirst : List.firstn (k + m) s = List.firstn k s ++ gs ++ [44; d1; d2]).
  { rewrite <- (List.firstn_skipn k s) at 1.
    rewrite List.firstn_app, El.
    replace (k + m - k)%nat with m by lia. rewrite Hf.
    rewrite List.firstn_all2 by (rewrite El; lia). reflexivity. }
  split; [|split; [lia|]].
  - exists (List.firstn k s), gs, d1, d2. rewrite Hfirst.
    repeat split; auto; try lia.
    apply List.Forall_forall. intros c Hc.
    exact (proj1 (List.forallb_forall _ _) Ed c Hc).
  - rewrite Hfirst, List.length_app, El, Hl. reflexivity.
Qed.

Lemma match_valor_at_format s n :
  match_valor_at s = Some n ->
  valor_monetario (List.firstn n s) /\ (0 < n)%nat /\ length (List.firstn n s) = n.
Proof.
  unfold match_valor_at.
  destruct (match_with_digits 3 s) as [n3|] eqn:E3.
  { intros [= <-]. apply (match_with_digits_format 3 s n3); [lia|exact E3]. }
  destruct (match_with_digits 2 s) as [n2|] eqn:E2.
  { intros [= <-]. apply (match_with_digits_format 2 s n2); [lia|exact E2]. }
  apply match_with_digits_format. lia.
Qed.

(** Resuming after [k] code units is scanning what is left. *)
Lemma exec_all_from_skip k s : exec_all_from k s = exec_all (List.skipn k s).
Proof.
  unfold exec_all. revert k. induction s as [|c r IH]; intros k.
  - destruct k; reflexivity.
  - destruct k as [|k]; [reflexivity|]. cbn [exec_all_from List.skipn]. apply IH.
Qed.

Lemma intercalado_push c xs s : intercalado xs s -> intercalado xs (c :: s).
Proof.
  intros Hi. destruct Hi as [s|gap x xs rest Hi]; [constructor|].
  change (c :: gap ++ x ++ rest) with ((c :: gap) ++ x ++ rest). constructor. exact Hi.
Qed.

Lemma exec_all_format k s :
  (length s <= k)%nat ->
  Forall valor_monetario (exec_all s) /\ intercalado (exec_all s) s.
Proof.
  revert s. induction k as [|k IH]; intros s Hk.
  { destruct s; [|simpl in Hk; lia]. split; constructor. }
  destruct s as [|c r]; [split; constructor|].
  unfold exec_all. rewrite exec_all_from_cons.
  destruct (match_valor_at (c :: r)) as [n|] eqn:Em.
  - destruct (match_valor_at_format _ _ Em) as (Hv & Hn & Hl).
    rewrite exec_all_from_skip.
    replace (List.skipn (n - 1) r) with (List.skipn n (c :: r))
      by (destruct n; [lia|cbn [List.skipn]; f_equal; lia]).
    destruct (IH (List.skipn n (c :: r))) as [Hf Hi].
    { rewrite List.length_skipn. simpl in *. lia. }
    split; [constructor; assumption|].
    rewrite <- (List.firstn_skipn n (c :: r)) at 3.
    apply (intercalado_cons [] _ _ _ Hi).
  - destruct (IH r) as [Hf Hi]; [simpl in Hk; lia|].
    split; [exact Hf|apply intercalado_push, Hi].
Qed.

End CaptureFormat.

(** ** MonetaryParser on captured values *)

Section ParseCaptured.
Import JS Number.

Lemma grupos_sem_pontos gs :
  grupos gs ->
  List.filter (fun c => negb (c =? 46)) gs = List.filter is_digit gs
  /\ Forall (fun c => is_digit c = true) (List.filter is_digit gs).
Proof.
  induction 1 as [|a b c r Ha Hb Hc _ [IH1 IH2]]; [split; [reflexivity|constructor]|].
  cbn [List.filter]. change (46 =? 46) with true. change (is_digit 46) with false.
  cbn [negb]. rewrite Ha, Hb, Hc.
  destruct (digit_not_sep a Ha) as [_ ->]. destruct (digit_not_sep b Hb) as [_ ->].
  destruct (digit_not_sep c Hc) as [_ ->]. cbn [negb]. rewrite IH1.
  split; [reflexivity|]. repeat constructor; assumption.
Qed.

Lemma filter_digits_keep (p : Z -> bool) ds :
  Forall (fun c => is_digit c = true) ds ->
  (forall c, is_digit c = true -> p c = true) -> List.filter p ds = ds.
Proof.
  intros Hd Hp. apply filter_all. eapply List.Forall_impl; [|exact Hd]. exact Hp.
Qed.

Lemma replace_first_app a b pre rest :
  Forall (fun c => (c =? a) = false) pre ->
  replace_first a b (pre ++ a :: rest) = pre ++ b :: rest.
Proof.
  induction 1 as [|c r Hc _ IH]; cbn [app replace_first].
  - rewrite Z.eqb_refl. reflexivity.
  - rewrite Hc, IH. reflexivity.
Qed.

Lemma span_digits_app a rest :
  Forall (fun c => is_digit c = true) a ->
  match rest with [] => True | c :: _ => is_digit c = false end ->
  span_digits (a ++ rest) = (a, rest).
Proof.
  intros Ha Hr. induction Ha as [|c r Hc _ IH]; cbn [app].
  - destruct rest as [|c r]; [reflexivity|]. cbn [span_digits]. rewrite Hr. reflexivity.
  - cbn [span_digits]. rewrite Hc, IH. reflexivity.
Qed.

Lemma startsWith_digit_Infinity c r :
  is_digit c = true -> startsWith (c :: r) (lit "Infinity") = false.
Proof.
  intros Hc. change (lit "Infinity") with (73 :: lit "nfinity"). cbn [startsWith].
  assert (E : (73 =? c) = false) by (unfold is_digit, in_range in Hc; lia).
  rewrite E. reflexivity.
Qed.

(** The decimal number written by digits, a point and two digits. *)
Lemma read_decimal_two D d1 d2 :
  D <> [] -> Forall (fun c => is_digit c = true) D ->
  is_digit d1 = true -> is_digit d2 = true ->
  read_decimal false (D ++ [46; d1; d2])
  = of_ratio false (digits_value (D ++ [d1; d2])) 100.
Proof.
  intros Hne HD H1 H2. unfold read_decimal.
  destruct D as [|c D'] eqn:ED; [congruence|]. rewrite <- ED in *.
  assert (Hc : is_digit c = true) by (rewrite ED in HD; inversion HD; assumption).
  rewrite ED at 1. cbn [app]. rewrite startsWith_digit_Infinity by exact Hc.
  rewrite (span_digits_app D [46; d1; d2] HD) by reflexivity.
  change (46 =? 46) with true. cbv iota.
  assert (E2 : span_digits [d1; d2] = ([d1; d2], []))
    by (cbn [span_digits]; rewrite H1, H2; reflexivity).
  rewrite E2.
  destruct (D ++ [d1; d2]) as [|x y] eqn:E.
  { rewrite ED in E. discriminate. }
  reflexivity.
Qed.

Lemma limpo_valor ds gs d1 d2 :
  Forall (fun c => is_digit c = true) ds -> grupos gs ->
  is_digit d1 = true -> is_digit d2 = true ->
  limpo (ds ++ gs ++ [44; d1; d2]) = (ds ++ List.filter is_digit gs) ++ [46; d1; d2]
  /\ List.filter is_digit (ds ++ gs ++ [44; d1; d2])
     = (ds ++ List.filter is_digit gs) ++ [d1; d2].
Proof.
  intros Hds Hgs H1 H2. destruct (grupos_sem_pontos gs Hgs) as [Hg1 Hg2].
  assert (Hkeep : forall c, is_digit c = true ->
            negb (negb (is_digit c || (c =? 44) || (c =? 45))) = true)
    by (intros c ->; reflexivity).
  assert (Hnodot : forall c, is_digit c = true -> negb (c =? 46) = true)
    by (intros c Hc; destruct (digit_not_sep c Hc) as [_ ->]; reflexivity).
  assert (Hnocomma : forall c, is_digit c = true -> (c =? 44) = false)
    by (intros c Hc; destruct (digit_not_sep c Hc) as [-> _]; reflexivity).
  split.
  - unfold limpo, remove_all.
    rewrite !List.filter_app, (filter_digits_keep _ ds Hds Hnodot), Hg1.
    cbn [List.filter]. change (44 =? 46) with false.
    rewrite (Hnodot d1 H1), (Hnodot d2 H2). cbn [negb].
    rewrite (filter_digits_keep _ ds Hds Hkeep), (filter_digits_keep _ _ Hg2 Hkeep).
    cbn [List.filter]. rewrite (Hkeep d1 H1), (Hkeep d2 H2).
    change (negb (negb (is_digit 44 || (44 =? 44) || (44 =? 45)))) with true. cbv iota.
    rewrite List.app_assoc. apply replace_first_app.
    apply List.Forall_app. split; (eapply List.Forall_impl; [exact Hnocomma|assumption]).
  - rewrite !List.filter_app, (filter_digits_keep _ ds Hds (fun c H => H)).
    cbn [List.filter]. change (is_digit 44) with false. rewrite H1, H2. cbv iota.
    rewrite List.app_assoc. reflexivity.
Qed.

(** A value in the supported format parses to the double nearest to
    its amount in hundredths over 100, or to [null] when that is not
    finite. *)
Lemma parseValorMonetario_valor x :
  valor_monetario x ->
  parseValorMonetario (Some x) =
    if isFinite (of_ratio false (centavos x) 100)
    then Some (of_ratio false (centavos x) 100) else None.
Proof.
  intros (ds & gs & d1 & d2 & -> & Hlen & Hds & Hgs & H1 & H2).
  destruct (limpo_valor ds gs d1 d2 Hds Hgs H1 H2) as [Hl Hf].
  destruct (grupos_sem_pontos gs Hgs) as [_ Hg2].
  unfold centavos. rewrite Hf. unfold parseValorMonetario.
  destruct ds as [|c ds'] eqn:Eds; [simpl in Hlen; lia|]. rewrite <- Eds in *.
  assert (Hc : is_digit c = true) by (rewrite Eds in Hds; inversion Hds; assumption).
  replace (falsy (Some (ds ++ gs ++ [44; d1; d2]))) with false
    by (rewrite Eds; reflexivity).
  cbn [to_string]. rewrite Hl.
  assert (HD : ds ++ List.filter is_digit gs <> []) by (rewrite Eds; discriminate).
  assert (HDd : Forall (fun c => is_digit c = true) (ds ++ List.filter is_digit gs))
    by (apply List.Forall_app; split; assumption).
  assert (Hpf : parseFloat ((ds ++ List.filter is_digit gs) ++ [46; d1; d2])
                = read_decimal false ((ds ++ List.filter is_digit gs) ++ [46; d1; d2])).
  { rewrite Eds. cbn [app]. apply parseFloat_digit, Hc. }
  rewrite Hpf, (read_decimal_two _ d1 d2 HD HDd H1 H2). reflexivity.
Qed.

End ParseCaptured.

Section EntryFacts.
Context `{UnicodeData}.
Import JS.

Lemma last_map_Some_app (l : list jsstring) :
  (List.last (List.map Some l) None = None <-> l = [])
  /\ (forall x, List.last (List.map Some l) None = Some x -> exists pre, l = pre ++ [x]).
Proof.
  induction l as [|a l [IH1 IH2]]; [split; [tauto|discriminate]|].
  cbn [List.map List.last]. destruct l as [|b l].
  - split; [split; discriminate|]. intros x [= ->]. exists []. reflexivity.
  - split.
    + split; [|discriminate]. intros E. apply IH1 in E. discriminate.
    + intros x Hx. destruct (IH2 x Hx) as [pre Hp]. exists (a :: pre).
      rewrite Hp. reflexivity.
Qed.

(** An entry of [extrairLinhasFornecedor] and the raw line it comes from. *)
Lemma extrairLinhasFornecedor_entrada d v e :
  In e (extrairLinhasFornecedor d v) ->
  exists l, In l (split_lines (to_string d))
    /\ linhaOriginal e = trim l
    /\ linhaNormalizada e = normalizarTexto (Some l)
    /\ numerosMonetarios e = Regex.exec_all l
    /\ ultimoNumero e = List.last (List.map Some (Regex.exec_all l)) None.
Proof.
  intros Hin.
  destruct (extrairLinhasFornecedor_cases d v) as [Hnil | [_ Heq]];
    [rewrite Hnil in Hin; destruct Hin|].
  rewrite Heq in Hin. apply list_elem_of_In, list_elem_of_omap in Hin.
  destruct Hin as (l & Hl & He). exists l. split; [apply list_elem_of_In, Hl|].
  revert He. unfold linha_fornecedor.
  destruct (falsy _); [discriminate|].
  destruct (Qle_bool LIMIAR_EXTRACAO _); [|discriminate].
  intros [= <-]. repeat split; reflexivity.
Qed.

Lemma extrairLinhasFornecedor_ultimo_valor d v e x :
  In e (extrairLinhasFornecedor d v) -> ultimoNumero e = Some x -> valor_monetario x.
Proof.
  intros Hin Hu. destruct (extrairLinhasFornecedor_entrada d v e Hin)
    as (l & _ & _ & _ & _ & Hl).
  rewrite Hl in Hu. apply last_map_Some in Hu.
  destruct (exec_all_format (length l) l (le_n _)) as [Hf _].
  exact (proj1 (List.Forall_forall _ _) Hf x Hu).
Qed.

Lemma saldos_das_linhas_valor linhas s :
  (forall e x, In e linhas -> ultimoNumero e = Some x -> valor_monetario x) ->
  In s (saldos_das_linhas linhas) ->
  valor_monetario (texto s)
  /\ numero s = Number.of_ratio false (centavos (texto s)) 100
  /\ exists e, In e linhas /\ ultimoNumero e = Some (texto s)
       /\ saldo_linhaOriginal s = linhaOriginal e.
Proof.
  induction linhas as [|e ls IH]; intros Hd; [intros []|].
  assert (IH' : In s (saldos_das_linhas ls) ->
            valor_monetario (texto s)
            /\ numero s = Number.of_ratio false (centavos (texto s)) 100
            /\ exists e0, In e0 (e :: ls) /\ ultimoNumero e0 = Some (texto s)
                 /\ saldo_linhaOriginal s = linhaOriginal e0).
  { intros Hs. destruct IH as (Hv & Hn & e' & He' & Hu & Ho); [|exact Hs|].
    - intros e' x Hin. apply Hd. right. exact Hin.
    - split; [exact Hv|]. split; [exact Hn|]. exists e'. split; [right|]; auto. }
  cbn [saldos_das_linhas].
  destruct (ultimoNumero e) as [x|] eqn:Eu; [|exact IH'].
  destruct (falsy (Some x)); [exact IH'|].
  pose proof (Hd e x (or_introl eq_refl) Eu) as Hx.
  rewrite (parseValorMonetario_valor x Hx).
  destruct (Number.isFinite (Number.of_ratio false (centavos x) 100)); [|exact IH'].
  intros [<- | Hs]; [|exact (IH' Hs)].
  cbn [texto numero saldo_linhaOriginal to_string].
  split; [exact Hx|]. split; [reflexivity|]. exists e. split; [left; reflexivity|].
  split; [exact Eu|reflexivity].
Qed.

End EntryFacts.

(** X12.  Every value captured on a line of [extrairLinhasFornecedor] is
    in the supported format (one to three digits, groups of a point and
    three digits, a comma and two digits); the captured values occur in
    the raw line from left to right without overlap; the last value is
    [null] exactly when nothing was captured, and is otherwise the last
    of the captured values. *)
Theorem extrairLinhasFornecedor_capturas `{UnicodeData}
    (d v : jsval) (e : LinhaFornecedor) :
  In e (extrairLinhasFornecedor d v) ->
  Forall valor_monetario (numerosMonetarios e)
  /\ (exists l, In l (JS.split_lines (JS.to_string d))
        /\ linhaOriginal e = JS.trim l
        /\ linhaNormalizada e = normalizarTexto (Some l)
        /\ intercalado (numerosMonetarios e) l)
  /\ (ultimoNumero e = None <-> numerosMonetarios e = [])
  /\ (forall x, ultimoNumero e = Some x -> exists pre, numerosMonetarios e = pre ++ [x]).
Proof.
  intros Hin. destruct (extrairLinhasFornecedor_entrada d v e Hin)
    as (l & Hl & Ho & Hn & Hm & Hu).
  destruct (exec_all_format (length l) l (le_n _)) as [Hf Hi].
  rewrite Hm, Hu. split; [exact Hf|]. split.
  - exists l. repeat split; assumption.
  - apply last_map_Some_app.
Qed.

Lemma extrairLinhasFornecedor_capturas_witness :
  let e := {| linhaOriginal := JS.lit "ACME LTDA 1.000,00 250,10 1.250,10";
              linhaNormalizada := JS.lit "acme ltda 1 000 00 250 10 1 250 10";
              scoreMatch := 1 # 1;
              numerosMonetarios := [JS.lit "1.000,00"; JS.lit "250,10"; JS.lit "1.250,10"];
              ultimoNumero := Some (JS.lit "1.250,10") |} in
  Forall valor_monetario (numerosMonetarios e).
Proof.
  intros e.
  apply (extrairLinhasFornecedor_capturas (H := latin1)
           (Some (JS.lit "ACME LTDA 1.000,00 250,10 1.250,10")) (Some (JS.lit "ACME")) e).
  vm_compute. left. reflexivity.
Defined.

(** X13.  Each balance of the output comes from the last value of one
    of the vendor lines of its source, is in the supported format, and
    its number is the binary64 number nearest to the amount in
    hundredths (the digits of the captured text read as one integer)
    divided by 100. *)
Theorem saldos_valor_exato `{UnicodeData}
    (fornecedor : jsval) (textos : gmap jsstring jsstring) (k : jsstring)
    (ind : Indicador) (s : Saldo) :
  indicadoresFornecedor (montarIndicadoresFornecedor fornecedor textos) !! k = Some ind ->
  In s (saldosEncontrados ind) ->
  valor_monetario (texto s)
  /\ numero s = Number.of_ratio false (centavos (texto s)) 100
  /\ Number.isFinite (numero s) = true
  /\ exists e, In e (linhasFornecedor ind) /\ ultimoNumero e = Some (texto s)
       /\ saldo_linhaOriginal s = linhaOriginal e.
Proof.
  intros Hk Hs.
  assert (Hind : exists t, ind = indicador_de fornecedor t).
  { revert Hk. rewrite montar_indicadores, !lookup_insert.
    repeat case_decide; rewrite ?lookup_empty; intros [= <-]; eauto. }
  destruct Hind as [t ->]. cbn [indicador_de saldosEncontrados linhasFornecedor] in *.
  destruct (saldos_das_linhas_valor _ s
              (extrairLinhasFornecedor_ultimo_valor (Some t) fornecedor) Hs)
    as (Hv & Hn & He).
  split; [exact Hv|]. split; [exact Hn|]. split; [|exact He].
  pose proof (balances_nonneg fornecedor textos k) as Hb.
  unfold balances in Hb. rewrite Hk in Hb.
  cbn [default from_option id indicador_de saldosEncontrados] in Hb.
  rewrite List.Forall_map in Hb.
  apply nonneg_finite_isFinite. exact (proj1 (List.Forall_forall _ _) Hb s Hs).
Qed.

Lemma saldos_valor_exato_witness :
  let s := {| texto := JS.lit "42.151,99"; numero := Prim2SF 42151.99%float;
              saldo_linhaOriginal := JS.lit "ACME DISTRIBUIDORA LTDA 10/2024 42.151,99" |} in
  centavos (texto s) = 4215199
  /\ numero s = Number.of_ratio false (centavos (texto s)) 100.
Proof.
  intros s. split; [vm_compute; reflexivity|].
  apply (saldos_valor_exato (H := latin1) (Some (JS.lit "ACME Distribuidora"))
           (<[JS.lit "razao" := JS.lit "ACME DISTRIBUIDORA LTDA 10/2024 42.151,99"]> ∅)
           (JS.lit "razao")
           (indicador_de (Some (JS.lit "ACME Distribuidora"))
              (JS.lit "ACME DISTRIBUIDORA LTDA 10/2024 42.151,99")) s).
  - vm_compute. reflexivity.
  - vm_compute. left. reflexivity.
Defined.

(** ** The thresholds on doubles *)

Lemma limiares_concordam_200 :
  List.forallb limiares_concordam (List.seq 1 200) = true.
Proof. vm_compute. reflexivity. Qed.

(** X14.  For a vendor name of up to 200 tokens, the comparisons
    [score >= 0.7] and [score >= 0.6] of the source, made on doubles,
    agree with the exact comparisons of found/total with 7/10 and 6/10. *)
Theorem limiares_binary64 (n k : nat) :
  (1 <= n <= 200)%nat -> (k <= n)%nat ->
  Number.leb LIMIAR_PRESENCA_binary64 (score_binary64 k n)
    = Qle_bool LIMIAR_PRESENCA (Z.of_nat k # Pos.of_nat n)
  /\ Number.leb LIMIAR_EXTRACAO_binary64 (score_binary64 k n)
    = Qle_bool LIMIAR_EXTRACAO (Z.of_nat k # Pos.of_nat n).
Proof.
  intros Hn Hk.
  pose proof (proj1 (List.forallb_forall _ _) limiares_concordam_200 n) as Hall.
  assert (Hin : In n (List.seq 1 200)) by (apply List.in_seq; lia).
  specialize (Hall Hin). unfold limiares_concordam in Hall.
  pose proof (proj1 (List.forallb_forall _ _) Hall k) as Hk'.
  assert (Hink : In k (List.seq 0 (S n))) by (apply List.in_seq; lia).
  specialize (Hk' Hink). apply andb_true_iff in Hk' as [H7 H6].
  split; apply Bool.eqb_prop; assumption.
Qed.

Lemma limiares_binary64_witness :
  Number.leb LIMIAR_PRESENCA_binary64 (score_binary64 2 3) = false
  /\ Number.leb LIMIAR_EXTRACAO_binary64 (score_binary64 2 3) = true.
Proof.
  destruct (limiares_binary64 3 2) as [H7 H6]; [lia|lia|].
  rewrite H7, H6. split; reflexivity.
Defined.

(** ** MonetaryParser: what is ignored *)

Section IgnoredFacts.
Import JS Number.

Lemma limpo_relevante s :
  limpo s = replace_first 44 46 (List.filter relevante s).
Proof.
  unfold limpo, remove_all. f_equal.
  induction s as [|c r IH]; [reflexivity|].
  cbn [List.filter]. unfold relevante at 1.
  destruct (Z.eqb_spec c 46) as [->|Hne]; cbn [negb List.filter].
  - exact IH.
  - fold (relevante c). rewrite negb_involutive. destruct (relevante c); rewrite IH; reflexivity.
Qed.

Lemma filter_idem {A} (f : A -> bool) l :
  List.filter f (List.filter f l) = List.filter f l.
Proof.
  apply filter_all, List.Forall_forall. intros x Hx.
  apply List.filter_In in Hx as [_ Hx]. exact Hx.
Qed.

Lemma parseValorMonetario_relevante s :
  parseValorMonetario (Some s) = parseValorMonetario (Some (List.filter relevante s)).
Proof.
  unfold parseValorMonetario. cbn [to_string].
  rewrite (limpo_relevante s), (limpo_relevante (List.filter relevante s)), filter_idem.
  destruct s as [|c r]; [reflexivity|].
  destruct (List.filter relevante (c :: r)) as [|c' r'] eqn:E; reflexivity.
Qed.

End IgnoredFacts.

(** X15.  [parseValorMonetario] looks only at the digits, commas and
    minus signs of its input, in their order: two strings with the same
    digits, commas and minus signs give the same result, whatever
    points, currency symbols, letters or spaces they hold. *)
Theorem parseValorMonetario_ignora (s t : jsstring) :
  List.filter relevante s = List.filter relevante t ->
  parseValorMonetario (Some s) = parseValorMonetario (Some t).
Proof.
  intros E. rewrite (parseValorMonetario_relevante s), (parseValorMonetario_relevante t), E.
  reflexivity.
Qed.

Lemma parseValorMonetario_ignora_witness :
  parseValorMonetario (Some (JS.lit "R$ 1.234,56 D")) = Some (Prim2SF 1234.56%float)
  /\ parseValorMonetario (Some (JS.lit "12.34,56")) = Some (Prim2SF 1234.56%float).
Proof.
  rewrite (parseValorMonetario_ignora (JS.lit "R$ 1.234,56 D") (JS.lit "1234,56"))
    by (vm_compute; reflexivity).
  rewrite (parseValorMonetario_ignora (JS.lit "12.34,56") (JS.lit "1234,56"))
    by (vm_compute; reflexivity).
  split; vm_compute; reflexivity.
Defined.

(** ** The client of the reasoning service *)

Section ClientFacts.

Lemma chamadas_com_cliente envs c :
  let '(rs, c') := chamadas envs (Some c) in
  c' = Some c
  /\ Forall2 (fun env r => r = if JS.falsy env then None else Some c) envs rs.
Proof.
  induction envs as [|env envs IH]; cbn [chamadas]; [split; [reflexivity|constructor]|].
  unfold getOpenAIClient.
  destruct (JS.falsy env) eqn:Ef;
    destruct (chamadas envs (Some c)) as [rs c'] eqn:Ec;
    destruct IH as [-> IH]; (split; [reflexivity|]); constructor;
    rewrite ?Ef; auto.
Qed.

End ClientFacts.

(** X16.  [getOpenAIClient] builds the client once: over any sequence
    of calls starting with no client, a call returns [null] exactly
    when the key is missing or empty at that call, and every other call
    returns one and the same client, built with the first key that was
    present, whatever the key is later. *)
Theorem getOpenAIClient_cache (envs : list jsval) :
  let primeira := List.find (fun env => negb (JS.falsy env)) envs in
  let cliente := {| apiKey := JS.to_string (default None primeira) |} in
  Forall2 (fun env r => r = if JS.falsy env then None else Some cliente)
    envs (fst (chamadas envs None))
  /\ snd (chamadas envs None)
     = match primeira with Some _ => Some cliente | None => None end.
Proof.
  induction envs as [|env envs IH]; [split; [constructor|reflexivity]|].
  cbn [chamadas List.find]. unfold getOpenAIClient.
  destruct (JS.falsy env) eqn:Ef; cbn [negb].
  - cbv zeta in IH. destruct (chamadas envs None) as [rs c'].
    destruct IH as [IH1 IH2]. cbn [fst snd] in *.
    split; [|exact IH2]. constructor; [rewrite Ef; reflexivity|exact IH1].
  - pose proof (chamadas_com_cliente envs {| apiKey := JS.to_string env |}) as Hc.
    destruct (chamadas envs (Some {| apiKey := JS.to_string env |})) as [rs c'].
    destruct Hc as [-> Hc]. cbn [fst snd default from_option id].
    split; [|reflexivity]. constructor; [rewrite Ef; reflexivity|exact Hc].
Qed.


Lemma getOpenAIClient_cache_witness :
  fst (chamadas [None; Some (JS.lit "sk-A"); Some (JS.lit "sk-B"); Some []; Some (JS.lit "sk-C")]
         None)
  = [None; Some {| apiKey := JS.lit "sk-A" |}; Some {| apiKey := JS.lit "sk-A" |}; None;
     Some {| apiKey := JS.lit "sk-A" |}].
Proof.
  pose proof (getOpenAIClient_cache
                [None; Some (JS.lit "sk-A"); Some (JS.lit "sk-B"); Some [];
                 Some (JS.lit "sk-C")]) as [_ _].
  vm_compute. reflexivity.
Defined.

(** ** Round 1 *)

Section Rodada1Facts.
Variable FileInfo : Type.
Variables originalname path mimetype : FileInfo -> jsval.
Variable Processado : Type.
Variable processFile : FileInfo -> option Processado.

Let relatorio_de (f : FileInfo) (p : Processado) : Relatorio Processado :=
  {| nomeOriginal := originalname f; caminho := path f;
     relatorio_mimetype := mimetype f; processado := p |}.

Let processar := processar_arquivos FileInfo originalname path mimetype Processado processFile.

Lemma processar_arquivos_None entradas acc :
  processar entradas acc = None <->
  exists chave f, In (chave, Some f) entradas /\ processFile f = None.
Proof.
  revert acc. induction entradas as [|[k [f|]] rest IH]; intros acc;
    cbn [processar processar_arquivos].
  - split; [discriminate|]. intros (? & ? & [] & _).
  - fold processar. destruct (processFile f) as [p|] eqn:Ep.
    + rewrite IH. split.
      * intros (c & f' & Hin & Hf). exists c, f'. split; [right|]; assumption.
      * intros (c & f' & [[= <- <-] | Hin] & Hf); [congruence|].
        exists c, f'. split; assumption.
    + split; [|reflexivity]. intros _. exists k, f. split; [left; reflexivity|exact Ep].
  - fold processar. rewrite IH. split.
    + intros (c & f' & Hin & Hf). exists c, f'. split; [right|]; assumption.
    + intros (c & f' & [[=] | Hin] & Hf). exists c, f'. split; assumption.
Qed.

Lemma processar_arquivos_Some entradas acc res :
  List.NoDup (List.map fst entradas) ->
  (forall k, In k (List.map fst entradas) -> acc !! k = None) ->
  processar entradas acc = Some res ->
  forall chave rel,
    res !! chave = Some rel <->
    acc !! chave = Some rel
    \/ exists f p, In (chave, Some f) entradas /\ processFile f = Some p
         /\ rel = relatorio_de f p.
Proof.
  revert acc. induction entradas as [|[k [f|]] rest IH]; intros acc Hnd Hacc;
    cbn [processar processar_arquivos].
  - intros [= <-] chave rel. split; [auto|]. intros [E | (? & ? & [] & _)]. exact E.
  - fold processar. destruct (processFile f) as [p|] eqn:Ep; [|discriminate].
    intros Hres chave rel. cbn [List.map fst] in Hnd, Hacc.
    apply List.NoDup_cons_iff in Hnd as [Hk Hnd].
    rewrite (IH (<[k := relatorio_de f p]> acc) Hnd);
      [|intros k' Hk'; rewrite lookup_insert_ne by (intros ->; contradiction);
        apply Hacc; right; exact Hk'|exact Hres].
    clear IH. split.
    + intros [Hl | (f' & p' & Hin & Hf & ->)].
      * apply lookup_insert_Some in Hl as [[<- <-] | [_ Hl]]; [|left; exact Hl].
        right. exists f, p. split; [left; reflexivity|]. split; auto.
      * right. exists f', p'. split; [right; exact Hin|]. split; auto.
    + intros [Hl | (f' & p' & [[= <- <-] | Hin] & Hf & ->)].
      * left. rewrite lookup_insert_ne; [exact Hl|].
        intros <-. rewrite (Hacc k) in Hl by (left; reflexivity). discriminate.
      * left. rewrite Ep in Hf. injection Hf as <-. apply lookup_insert_eq.
      * right. exists f', p'. split; [exact Hin|]. split; auto.
  - fold processar. intros Hres chave rel. cbn [List.map fst] in Hnd, Hacc.
    apply List.NoDup_cons_iff in Hnd as [Hk Hnd].
    rewrite (IH acc Hnd);
      [|intros k' Hk'; apply Hacc; right; exact Hk'|exact Hres].
    split.
    + intros [Hl | (f' & p' & Hin & Hf & ->)]; [left; exact Hl|].
      right. exists f', p'. split; [right; exact Hin|]. split; auto.
    + intros [Hl | (f' & p' & [[=] | Hin] & Hf & ->)]; [left; exact Hl|].
      right. exists f', p'. split; [exact Hin|]. split; auto.
Qed.

End Rodada1Facts.

(** X17.  [prepararRodada1], for the entries of [arquivos] (their keys
    distinct): it fails exactly when [processFile] rejects one of the
    files; otherwise [relatorios] has an entry exactly for the keys
    that hold a file, made of the three fields of the file and of what
    [processFile] returned for it, the keys with no file being skipped,
    and [fornecedor] is passed on unchanged.  With no [arquivos] the
    result has no report. *)
Theorem prepararRodada1_relatorios
    (FileInfo : Type) (originalname path mimetype : FileInfo -> jsval)
    (Processado : Type) (processFile : FileInfo -> option Processado)
    (fornecedor : jsval) (entradas : list (jsstring * option FileInfo)) :
  List.NoDup (List.map fst entradas) ->
  let rodada1 := prepararRodada1 FileInfo originalname path mimetype Processado processFile in
  (rodada1 fornecedor (Some entradas) = None <->
     exists chave f, In (chave, Some f) entradas /\ processFile f = None)
  /\ (forall r, rodada1 fornecedor (Some entradas) = Some r ->
        rodada1_fornecedor _ r = fornecedor
        /\ rodada1_status _ r = JS.lit "arquivos_processados"
        /\ forall chave rel,
             relatorios _ r !! chave = Some rel <->
             exists f p, In (chave, Some f) entradas /\ processFile f = Some p
               /\ rel = {| nomeOriginal := originalname f; caminho := path f;
                           relatorio_mimetype := mimetype f; processado := p |})
  /\ rodada1 fornecedor None
     = Some {| rodada1_fornecedor := fornecedor;
               rodada1_status := JS.lit "arquivos_processados";
               relatorios := ∅ |}.
Proof.
  intros Hnd rodada1. subst rodada1. unfold prepararRodada1.
  cbn [default from_option id]. split; [|split; [|reflexivity]].
  - rewrite <- (processar_arquivos_None FileInfo originalname path mimetype
                  Processado processFile entradas ∅).
    destruct (processar_arquivos _ _ _ _ _ _ entradas ∅); split; congruence.
  - intros r.
    destruct (processar_arquivos _ _ _ _ _ _ entradas ∅) as [res|] eqn:Ep; [|discriminate].
    intros [= <-]. cbn [rodada1_fornecedor rodada1_status relatorios].
    split; [reflexivity|]. split; [reflexivity|]. intros chave rel.
    rewrite (processar_arquivos_Some FileInfo originalname path mimetype
               Processado processFile entradas ∅ res Hnd (fun k _ => lookup_empty k) Ep).
    rewrite lookup_empty. split; [intros [H|H]; [discriminate|exact H]|auto].
Qed.

Lemma prepararRodada1_relatorios_witness :
  let processFile (f : jsstring) := if JS.includes f (JS.lit ".pdf") then Some f else None in
  prepararRodada1 jsstring Some Some (fun _ => None) jsstring processFile
    (Some (JS.lit "ACME"))
    (Some [(JS.lit "razao", Some (JS.lit "razao.pdf")); (JS.lit "balancete", None);
           (JS.lit "contas_pagar", Some (JS.lit "pagar.xls"))])
  = None.
Proof.
  intros processFile.
  apply (prepararRodada1_relatorios jsstring Some Some (fun _ => None) jsstring processFile).
  - repeat (apply List.NoDup_cons;
            [cbn [In List.map fst]; intros Hin;
             repeat (destruct Hin as [E | Hin]; [vm_compute in E; discriminate E|]);
             exact Hin|]).
    apply List.NoDup_nil.
  - exists (JS.lit "contas_pagar"), (JS.lit "pagar.xls").
    split; [right; right; left; reflexivity|vm_compute; reflexivity].
Defined.

(** ** Round 2 *)

Section Rodada2Facts.
Context `{UnicodeData}.
Variable Processado : Type.
Variables tipo preview conteudoTexto : Processado -> jsval.
Variable tamanhoTexto : Processado -> option number.
Variable Json : Type.
Variable JSON_parse : jsstring -> option Json.
Variable json_truthy : Json -> bool.

Let realizar :=
  realizarConciliacao Processado tipo preview conteudoTexto tamanhoTexto
    Json JSON_parse json_truthy.
Let razao := razaoTextoCompleto Processado preview conteudoTexto.
Let textos := textosCompletos Processado preview conteudoTexto.

(** The three ways [realizarConciliacao] goes. *)
Lemma realizarConciliacao_cases env cache fornecedor rel sim :
  (JS.falsy env = true
   /\ exists r, realizar env cache fornecedor rel sim = (Retorna r, cache)
        /\ status r = JS.lit "erro_openai" /\ entradaIA r = None
        /\ estrutura r = None /\ conciliacao_fornecedor r = fornecedor)
  \/ (JS.falsy env = false
      /\ fornecedorExisteNaRazao fornecedor (Some (razao rel)) = false
      /\ exists r, realizar env cache fornecedor rel sim
                   = (Retorna r, snd (getOpenAIClient env cache))
           /\ status r = JS.lit "conciliacao_gerada"
           /\ modelo r = Some (JS.lit "regra_local_sem_ia")
           /\ entradaIA r = None
           /\ estrutura r = Some (estrutura_fornecedor_ausente fornecedor)
           /\ conciliacao_fornecedor r = fornecedor)
  \/ (JS.falsy env = false
      /\ fornecedorExisteNaRazao fornecedor (Some (razao rel)) = true
      /\ exists cliente e,
           realizar env cache fornecedor rel sim
           = (Chama cliente e
                (concluir Json JSON_parse json_truthy fornecedor sim e),
              Some cliente)
           /\ fst (getOpenAIClient env cache) = Some cliente
           /\ entrada_fornecedor e = fornecedor
           /\ entrada_relatorios e
              = resumir Processado tipo preview conteudoTexto tamanhoTexto
                  <$> default ∅ rel
           /\ entrada_indicadoresFornecedor e
              = indicadoresFornecedor (montarIndicadoresFornecedor fornecedor (textos rel))
           /\ entrada_avaliacaoAutomaticaSaldo e
              = avaliacaoAutomaticaSaldo
                  (montarIndicadoresFornecedor fornecedor (textos rel))).
Proof.
  subst realizar razao textos. unfold realizarConciliacao, getOpenAIClient.
  destruct (JS.falsy env) eqn:Ef.
  - left. split; [reflexivity|]. eexists. repeat split.
  - right.
    destruct (fornecedorExisteNaRazao fornecedor
                (Some (razaoTextoCompleto Processado preview conteudoTexto rel))) eqn:Ep.
    + right. split; [reflexivity|]. split; [reflexivity|].
      destruct cache as [c|]; cbn [negb fst snd];
        eexists _, _; repeat split.
    + left. split; [reflexivity|]. split; [reflexivity|].
      destruct cache as [c|]; cbn [negb fst snd];
        eexists; repeat split.
Qed.

Lemma razao_vazia_ausente fornecedor rel :
  razao rel = [] -> fornecedorExisteNaRazao fornecedor (Some (razao rel)) = false.
Proof. intros ->. apply fornecedorExisteNaRazao_falsy. right. reflexivity. Qed.

Lemma fornecedor_vazio_ausente fornecedor d :
  normalizarTexto fornecedor = [] -> fornecedorExisteNaRazao fornecedor d = false.
Proof.
  intros E. apply not_true_is_false. intros Hp.
  apply fornecedorExisteNaRazao_true in Hp as [Hne _]. congruence.
Qed.

(** X18.  Without a key, without a vendor name that normalizes to
    something, or without ledger text (no reports at all, or a ledger
    with neither full text nor preview), [realizarConciliacao] returns
    without calling the service and without [entradaIA]: with status
    [erro_openai] when the key is missing, whatever the reports, and
    otherwise with the local diagnosis that the vendor is not in the
    ledger. *)
Theorem realizarConciliacao_sem_chamada env cache fornecedor rel sim :
  JS.falsy env = true \/ normalizarTexto fornecedor = [] \/ razao rel = [] \/ rel = None ->
  exists r,
    fst (realizar env cache fornecedor rel sim) = Retorna r
    /\ entradaIA r = None
    /\ status r = (if JS.falsy env then JS.lit "erro_openai"
                   else JS.lit "conciliacao_gerada")
    /\ (JS.falsy env = false ->
        modelo r = Some (JS.lit "regra_local_sem_ia")
        /\ estrutura r = Some (estrutura_fornecedor_ausente fornecedor)).
Proof.
  intros Hcause.
  destruct (realizarConciliacao_cases env cache fornecedor rel sim)
    as [(Ef & r & Er & Hs & Hi & _) | [(Ef & _ & r & Er & Hs & Hm & Hi & He & _)
                                      | (Ef & Hp & _)]].
  - exists r. rewrite Er, Ef. split; [reflexivity|]. split; [exact Hi|].
    split; [exact Hs|]. intros E. discriminate E.
  - exists r. rewrite Er, Ef. split; [reflexivity|]. split; [exact Hi|].
    split; [exact Hs|]. intros _. split; assumption.
  - exfalso. destruct Hcause as [Hc | [Hc | [Hc | Hc]]].
    + congruence.
    + rewrite (fornecedor_vazio_ausente _ _ Hc) in Hp. discriminate.
    + rewrite (razao_vazia_ausente _ _ Hc) in Hp. discriminate.
    + subst rel. rewrite razao_vazia_ausente in Hp by reflexivity. discriminate.
Qed.

(** X19.  When [realizarConciliacao] calls the service, the key is
    present, the vendor was found in the ledger text, the client is the
    cached one if there is one and a new one otherwise, the indicators
    sent are those of [montarIndicadoresFornecedor] on the complete
    texts (the ledger falling back to its preview, the other two
    reports not), the verdict sent is the one worded by the
    specification, and every [trechoConteudo] sent is the first 8000
    code units at most of the text of its report. *)
Theorem realizarConciliacao_chamada env cache fornecedor rel sim cliente e k :
  fst (realizar env cache fornecedor rel sim) = Chama cliente e k ->
  JS.falsy env = false
  /\ normalizarTexto fornecedor <> [] /\ razao rel <> []
  /\ fornecedorExisteNaRazao fornecedor (Some (razao rel)) = true
  /\ cliente = default {| apiKey := JS.to_string env |} cache
  /\ snd (realizar env cache fornecedor rel sim) = Some cliente
  /\ entrada_fornecedor e = fornecedor
  /\ entrada_indicadoresFornecedor e !! JS.lit "razao"
     = Some (indicador_de fornecedor (razao rel))
  /\ (forall chave, chave = JS.lit "balancete" \/ chave = JS.lit "contas_pagar" ->
        entrada_indicadoresFornecedor e !! chave
        = Some (indicador_de fornecedor
                  (JS.to_string
                     (ou (campo Processado conteudoTexto (processado_de Processado rel chave))
                         (Some [])))))
  /\ entrada_avaliacaoAutomaticaSaldo e
     = verdict (present (entrada_indicadoresFornecedor e))
         (pooled (entrada_indicadoresFornecedor e))
  /\ (forall chave res t,
        entrada_relatorios e !! chave = Some res -> trechoConteudo res = Some t ->
        Z.of_nat (length t) <= 8000
        /\ exists p, processado_de Processado rel chave = Some p
             /\ t = List.firstn (Z.to_nat 8000) (JS.to_string (conteudoTexto p)))
  /\ k = concluir Json JSON_parse json_truthy fornecedor sim e.
Proof.
  intros Hcall.
  destruct (realizarConciliacao_cases env cache fornecedor rel sim)
    as [(_ & r & Er & _) | [(_ & _ & r & Er & _)
                           | (Ef & Hp & c' & e' & Er & Hc & Hf & Hr & Hi & Ha)]];
    try (rewrite Er in Hcall; discriminate).
  rewrite Er in *. cbn [fst snd] in *. injection Hcall as <- <- <-.
  split; [exact Ef|].
  pose proof Hp as Hp'. apply fornecedorExisteNaRazao_true in Hp' as [Hnv _].
  split; [exact Hnv|]. split.
  { intros E. rewrite (razao_vazia_ausente _ _ E) in Hp. discriminate. }
  split; [exact Hp|]. split.
  { revert Hc. unfold getOpenAIClient. rewrite Ef.
    destruct cache; cbn [fst default from_option id]; congruence. }
  split; [reflexivity|]. split; [exact Hf|]. rewrite Hi, Ha.
  split; [|split; [|split; [|split; [|reflexivity]]]].
  - rewrite montar_lookup by (unfold chavesRelatorios; rewrite !elem_of_cons; tauto).
    subst textos razao. unfold textosCompletos.
    rewrite lookup_insert_ne by (vm_compute; discriminate).
    rewrite lookup_insert_ne by (vm_compute; discriminate).
    rewrite lookup_insert_eq. reflexivity.
  - intros chave [-> | ->];
      rewrite montar_lookup by (unfold chavesRelatorios; rewrite !elem_of_cons; tauto);
      subst textos; unfold textosCompletos.
    + rewrite lookup_insert_ne by (vm_compute; discriminate).
      rewrite lookup_insert_eq. reflexivity.
    + rewrite lookup_insert_eq. reflexivity.
  - apply montar_verdict.
  - intros chave res t Hres Ht. rewrite Hr, lookup_fmap in Hres.
    destruct (default ∅ rel !! chave) as [info|] eqn:Ei; [|discriminate].
    cbn [fmap option_fmap option_map] in Hres. injection Hres as <-.
    revert Ht. unfold resumir. cbn [trechoConteudo].
    destruct (JS.falsy (campo Processado conteudoTexto _)) eqn:Ec; [discriminate|].
    intros [= <-]. split.
    + pose proof (List.firstn_le_length (Z.to_nat 8000)
                    (JS.to_string (campo Processado conteudoTexto
                       match info with Some i => info_processado i | None => None end))).
      lia.
    + destruct info as [i|]; [|discriminate Ec].
      destruct (info_processado i) as [p|] eqn:Epr; [|discriminate Ec].
      exists p. split; [|reflexivity].
      unfold processado_de. destruct rel as [m|];
        cbn [default from_option id] in Ei; [|rewrite lookup_empty in Ei; discriminate].
      rewrite Ei. exact Epr.
Qed.

(** X20.  Whatever the service answers, a result of
    [realizarConciliacao] has one of three statuses, keeps the vendor
    name and the [simulacao] flag it was given, has a non-null
    [estrutura] whenever its status is [conciliacao_gerada], and has
    neither [entradaIA] nor [estrutura] when its status is
    [erro_openai]; a raw answer is kept without white space around
    it. *)
Theorem realizarConciliacao_resultados env cache fornecedor rel sim r :
  match fst (realizar env cache fornecedor rel sim) with
  | Retorna r' => r = r'
  | Chama _ _ k => exists resposta, r = k resposta
  end ->
  (status r = JS.lit "erro_openai" \/ status r = JS.lit "conciliacao_gerada"
   \/ status r = JS.lit "conciliacao_texto")
  /\ conciliacao_fornecedor r = fornecedor /\ simulacao r = sim
  /\ (status r = JS.lit "conciliacao_gerada" -> estrutura r <> None)
  /\ (status r = JS.lit "erro_openai" -> entradaIA r = None /\ estrutura r = None)
  /\ (status r = JS.lit "conciliacao_texto" ->
      entradaIA r <> None /\ modelo r = Some (JS.lit "gpt-4.1-mini"))
  /\ (forall raw, respostaBruta r = Some raw -> JS.trim raw = raw).
Proof.
  unfold realizar, realizarConciliacao, getOpenAIClient.
  assert (Hne1 : JS.lit "erro_openai" <> JS.lit "conciliacao_gerada")
    by (vm_compute; discriminate).
  assert (Hne2 : JS.lit "erro_openai" <> JS.lit "conciliacao_texto")
    by (vm_compute; discriminate).
  assert (Hne3 : JS.lit "conciliacao_gerada" <> JS.lit "conciliacao_texto")
    by (vm_compute; discriminate).
  assert (Htrim : forall content raw,
            Some (JS.to_string
                    (ou match content with Some c => Some (JS.trim c) | None => None end
                        (Some []))) = Some raw -> JS.trim raw = raw).
  { intros content raw [= <-]. destruct content as [s|]; [|reflexivity].
    unfold ou. destruct (JS.trim s) eqn:Et; cbn [JS.falsy JS.to_string];
      [reflexivity|rewrite <- Et; apply trim_idem]. }
  assert (Hlocal : JS.trim resposta_sem_ia = resposta_sem_ia)
    by (vm_compute; reflexivity).
  destruct (JS.falsy env).
  { cbn [fst]. intros ->. cbn.
    repeat split; auto; try congruence; intros; congruence. }
  destruct cache as [c|]; cbv beta iota zeta;
    (destruct (negb (fornecedorExisteNaRazao fornecedor _));
     [cbn [fst]; intros ->;
      cbn [status conciliacao_fornecedor simulacao estrutura entradaIA modelo
           respostaBruta];
      repeat split; auto; try congruence; try (intros; congruence);
      intros raw [= <-]; exact Hlocal|]);
    cbn [fst]; intros [resposta ->]; (destruct resposta as [m|content];
     [cbn; repeat split; auto; try congruence; intros; congruence|]);
    cbn [concluir]; (destruct (JSON_parse _) as [j|]; [destruct (json_truthy j)|]);
    cbn [status conciliacao_fornecedor simulacao estrutura entradaIA modelo
         respostaBruta option_map];
    (repeat split; auto; try congruence; try (intros; congruence));
    apply Htrim.
Qed.

End Rodada2Facts.

Lemma realizarConciliacao_sem_chamada_witness :
  exists r : Conciliacao jsstring,
    fst (realizarConciliacao jsstring (fun _ => None) (fun _ => None) Some (fun _ => None)
           jsstring Some (fun _ => true)
           None None (Some (JS.lit "ACME")) None false) = Retorna r
    /\ status r = JS.lit "erro_openai".
Proof.
  destruct (realizarConciliacao_sem_chamada (H := latin1)
              jsstring (fun _ => None) (fun _ => None) Some (fun _ => None)
              jsstring Some (fun _ => true)
              None None (Some (JS.lit "ACME")) None false (or_introl eq_refl))
    as (r & Hr & _ & Hs & _).
  exists r. split; [exact Hr|exact Hs].
Defined.

Lemma realizarConciliacao_chamada_witness :
  match fst (realizarConciliacao jsstring (fun _ => None) (fun _ => None) Some (fun _ => None)
               jsstring Some (fun _ => true)
               (Some (JS.lit "sk-test")) None (Some (JS.lit "ACME"))
               (Some {[ JS.lit "razao" :=
                          Some {| info_nomeOriginal := Some (JS.lit "razao.pdf");
                                  info_processado := Some (JS.lit "ACME LTDA 1.000,00") |} ]})
               false) with
  | Chama cliente e k => cliente = {| apiKey := JS.lit "sk-test" |}
  | Retorna _ => False
  end.
Proof.
  destruct (fst (realizarConciliacao jsstring (fun _ => None) (fun _ => None) Some
                   (fun _ => None) jsstring Some (fun _ => true)
                   (Some (JS.lit "sk-test")) None (Some (JS.lit "ACME"))
                   (Some {[ JS.lit "razao" :=
                              Some {| info_nomeOriginal := Some (JS.lit "razao.pdf");
                                      info_processado := Some (JS.lit "ACME LTDA 1.000,00") |} ]})
                   false)) as [r|cliente e k] eqn:E.
  - vm_compute in E. discriminate E.
  - apply (realizarConciliacao_chamada (H := latin1) _ _ _ _ _ _ _ _ _ _ _ _ _ _ _ _ E).
Defined.

Lemma realizarConciliacao_resultados_witness :
  match fst (realizarConciliacao jsstring (fun _ => None) (fun _ => None) Some (fun _ => None)
               jsstring (fun s => match s with 123 :: _ => Some s | _ => None end)
               (fun _ => true)
               (Some (JS.lit "sk-test")) None (Some (JS.lit "ACME"))
               (Some {[ JS.lit "razao" :=
                          Some {| info_nomeOriginal := Some (JS.lit "razao.pdf");
                                  info_processado := Some (JS.lit "ACME LTDA 1.000,00") |} ]})
               true) with
  | Chama _ _ k =>
      let r := k (chat_conteudo (Some (JS.lit "  Saldo confere. " ++ [10]))) in
      status r = JS.lit "conciliacao_texto"
      /\ respostaBruta r = Some (JS.lit "Saldo confere.")
      /\ conciliacao_fornecedor r = Some (JS.lit "ACME") /\ simulacao r = true
      /\ entradaIA r <> None /\ modelo r = Some (JS.lit "gpt-4.1-mini")
  | Retorna _ => False
  end.
Proof.
  pose proof (fun r =>
    realizarConciliacao_resultados (H := latin1)
      jsstring (fun _ => None) (fun _ => None) Some (fun _ => None)
      jsstring (fun s => match s with 123 :: _ => Some s | _ => None end)
      (fun _ => true)
      (Some (JS.lit "sk-test")) None (Some (JS.lit "ACME"))
      (Some {[ JS.lit "razao" :=
                 Some {| info_nomeOriginal := Some (JS.lit "razao.pdf");
                         info_processado := Some (JS.lit "ACME LTDA 1.000,00") |} ]})
      true r) as Hres.
  destruct (realizarConciliacao_cases (H := latin1)
              jsstring (fun _ => None) (fun _ => None) Some (fun _ => None)
              jsstring (fun s => match s with 123 :: _ => Some s | _ => None end)
              (fun _ => true)
              (Some (JS.lit "sk-test")) None (Some (JS.lit "ACME"))
              (Some {[ JS.lit "razao" :=
                         Some {| info_nomeOriginal := Some (JS.lit "razao.pdf");
                                 info_processado := Some (JS.lit "ACME LTDA 1.000,00") |} ]})
              true)
    as [(Ef & _) | [(_ & Hp & _) | (_ & _ & cliente & e & Er & _)]].
  - discriminate Ef.
  - vm_compute in Hp. discriminate Hp.
  - rewrite Er in Hres |- *. cbv beta iota delta [fst] in Hres |- *. intros r.
    destruct (Hres r (ex_intro _ _ eq_refl)) as (_ & Hf & Hs & _ & _ & Ht & _).
    assert (Hst : status r = JS.lit "conciliacao_texto"
                  /\ respostaBruta r = Some (JS.lit "Saldo confere."))
      by (split; vm_compute; reflexivity).
    destruct Hst as [Hst Hraw]. destruct (Ht Hst) as [Hi Hm].
    repeat (split; [assumption|]). assumption.
Defined.

(** ** The verdict, case by case *)

Section VerdictCases.
Import Number.


End VerdictCases.



(** ** Calls that can raise *)

Section ChamadaFacts.
Context `{UnicodeData}.
Variable max_argumentos : option Z.

Lemma spread_cabe {A} (f : list number -> A) args :
  (forall n, max_argumentos = Some n -> Z.of_nat (length args) <= n) ->
  spread max_argumentos f args = Normal (f args).
Proof.
  intros Hcabe. unfold spread. destruct max_argumentos as [n|]; [|reflexivity].
  destruct (Z.leb_spec (Z.of_nat (length args)) n) as [_|Hgt]; [reflexivity|].
  specialize (Hcabe n eq_refl). lia.
Qed.

(** With arguments that fit, the verdict is the one of [avaliar]. *)
Lemma avaliar_chamada_cabe o :
  ((2 <= length (obj_keys o))%nat ->
   forall n, max_argumentos = Some n ->
     Z.of_nat (length (List.flat_map (fun k => default [] (obj_get o k)) (obj_keys o)))
     <= n) ->
  avaliar_chamada max_argumentos o = Normal (avaliar o).
Proof.
  intros Hcabe. unfold avaliar_chamada, avaliar.
  destruct (Nat.leb_spec 2 (length (obj_keys o))) as [H2|H2]; [|reflexivity].
  rewrite !spread_cabe by exact (Hcabe H2). reflexivity.
Qed.

(** With more arguments than fit, the first of the two calls raises. *)
Lemma avaliar_chamada_excede o n :
  (2 <= length (obj_keys o))%nat -> max_argumentos = Some n ->
  n < Z.of_nat (length (List.flat_map (fun k => default [] (obj_get o k)) (obj_keys o))) ->
  avaliar_chamada max_argumentos o = Throw RangeError.
Proof.
  intros H2 Hmax Hgt. unfold avaliar_chamada, spread. rewrite Hmax.
  destruct (Nat.leb_spec 2 (length (obj_keys o))) as [_|H2']; [|lia].
  destruct (Z.leb_spec
              (Z.of_nat
                 (length (List.flat_map (fun k => default [] (obj_get o k)) (obj_keys o))))
              n) as [Hle|_]; [lia|reflexivity].
Qed.

(** [saldosNumericosPorRelatorio] at the end of the loop. *)
Lemma montar_saldos_numericos fornecedor textos :
  (List.fold_left (passo fornecedor textos) chavesRelatorios (∅, [])).2
  = saldos_numericos
      (balances (indicadoresFornecedor (montarIndicadoresFornecedor fornecedor textos)))
      chavesRelatorios.
Proof.
  unfold saldos_numericos, chavesRelatorios.
  cbn [List.flat_map]. unfold balances.
  rewrite !montar_lookup by (unfold chavesRelatorios; rewrite !elem_of_cons; tauto).
  cbn [default from_option id indicador_de saldosEncontrados].
  cbn [List.fold_left]. unfold passo.
  cbn [fst snd]. rewrite !List.length_map, List.app_nil_r.
  destruct (0 <? length (saldos_das_linhas _))%nat;
  destruct (0 <? length (saldos_das_linhas _))%nat;
  destruct (0 <? length (saldos_das_linhas _))%nat; reflexivity.
Qed.

Lemma saldos_numericos_NoDup fornecedor textos :
  List.NoDup
    (obj_keys
       (saldos_numericos
          (balances (indicadoresFornecedor (montarIndicadoresFornecedor fornecedor textos)))
          chavesRelatorios)).
Proof. rewrite saldos_numericos_keys. apply List.NoDup_filter, NoDup_chaves. Qed.

(** The values spread are the pooled balances. *)
Lemma montar_todosValores fornecedor textos :
  let o := (List.fold_left (passo fornecedor textos) chavesRelatorios (∅, [])).2 in
  let ind := indicadoresFornecedor (montarIndicadoresFornecedor fornecedor textos) in
  obj_keys o = present ind
  /\ List.flat_map (fun k => default [] (obj_get o k)) (obj_keys o) = pooled ind.
Proof.
  intros o ind. subst o. rewrite montar_saldos_numericos. fold ind. split.
  - apply saldos_numericos_keys.
  - rewrite obj_values by apply saldos_numericos_NoDup.
    apply saldos_numericos_values.
Qed.

(** A call with an object completes with the result of the function
    whenever the pooled balances fit in one call. *)
Lemma montar_chamada_cabe fornecedor textos :
  let ind := indicadoresFornecedor (montarIndicadoresFornecedor fornecedor textos) in
  ((2 <= length (present ind))%nat ->
   forall n, max_argumentos = Some n -> Z.of_nat (length (pooled ind)) <= n) ->
  montarIndicadoresFornecedor_chamada max_argumentos fornecedor (mapa_objeto textos)
  = Normal (montarIndicadoresFornecedor fornecedor textos).
Proof.
  intros ind Hcabe. unfold montarIndicadoresFornecedor_chamada.
  destruct (montar_todosValores fornecedor textos) as [Hk Hv].
  rewrite avaliar_chamada_cabe; [reflexivity|].
  rewrite Hv, Hk. exact Hcabe.
Qed.

(** It raises a RangeError when two sources or more have balances and
    the pool is beyond what one call takes. *)
Lemma montar_chamada_excede fornecedor textos n :
  let ind := indicadoresFornecedor (montarIndicadoresFornecedor fornecedor textos) in
  (2 <= length (present ind))%nat -> max_argumentos = Some n ->
  n < Z.of_nat (length (pooled ind)) ->
  montarIndicadoresFornecedor_chamada max_argumentos fornecedor (mapa_objeto textos)
  = Throw RangeError.
Proof.
  intros ind H2 Hmax Hgt. unfold montarIndicadoresFornecedor_chamada.
  destruct (montar_todosValores fornecedor textos) as [Hk Hv].
  rewrite (avaliar_chamada_excede _ n); [reflexivity| |exact Hmax|].
  - rewrite Hk. exact H2.
  - rewrite Hv. exact Hgt.
Qed.

(** The all-empty result has no pooled balance. *)
Lemma montar_chamada_vazio fornecedor textos :
  montarIndicadoresFornecedor fornecedor textos = resultado_vazio ->
  montarIndicadoresFornecedor_chamada max_argumentos fornecedor (mapa_objeto textos)
  = Normal resultado_vazio.
Proof.
  intros E. rewrite montar_chamada_cabe; [rewrite E; reflexivity|].
  rewrite E. intros H2. vm_compute in H2. lia.
Qed.

End ChamadaFacts.

(** C8.  A null or empty vendor name, or a null or empty document,
    gives [false] from [fornecedorExisteNaRazao] and no line from
    [extrairLinhasFornecedor]; [normalizarTexto] and
    [parseValorMonetario] answer the empty string and [null] on null
    and empty input; [montarIndicadoresFornecedor] on texts that are
    all empty or missing, or with a null or empty vendor name, returns
    an empty indicator for each source and the verdict
    [dados_insuficientes].  A call of [montarIndicadoresFornecedor]
    completes normally with that all-empty result when the mapping is
    left out, when the texts are all empty or missing, and when the
    vendor name is null or empty, whatever the engine; with an object
    for the mapping it completes normally, with the result of the
    function, whenever the balances pooled are no more than the
    arguments one call can take. *)
Theorem entradas_degeneradas `{UnicodeData} (max_argumentos : option Z)
    (v d : jsval) (textos : gmap jsstring jsstring) :
  (JS.falsy v = true \/ JS.falsy d = true ->
     fornecedorExisteNaRazao v d = false /\ extrairLinhasFornecedor d v = [])
  /\ (JS.falsy v = true -> normalizarTexto v = [] /\ parseValorMonetario v = None)
  /\ ((forall k, k ∈ chavesRelatorios -> default [] (textos !! k) = []) ->
      montarIndicadoresFornecedor v textos = resultado_vazio
      /\ montarIndicadoresFornecedor_chamada max_argumentos v (mapa_objeto textos)
         = Normal resultado_vazio)
  /\ (JS.falsy v = true ->
      montarIndicadoresFornecedor v textos = resultado_vazio
      /\ montarIndicadoresFornecedor_chamada max_argumentos v (mapa_objeto textos)
         = Normal resultado_vazio)
  /\ (forall k, k ∈ chavesRelatorios ->
        indicadoresFornecedor resultado_vazio !! k = Some indicador_vazio)
  /\ dom (indicadoresFornecedor resultado_vazio) = list_to_set chavesRelatorios
  /\ montarIndicadoresFornecedor_chamada max_argumentos v mapa_undefined
     = Normal resultado_vazio
  /\ ((forall n, max_argumentos = Some n ->
         Z.of_nat
           (length (pooled (indicadoresFornecedor (montarIndicadoresFornecedor v textos))))
         <= n) ->
      montarIndicadoresFornecedor_chamada max_argumentos v (mapa_objeto textos)
      = Normal (montarIndicadoresFornecedor v textos)).
Proof.
  assert (Hvazio : (forall k, k ∈ chavesRelatorios -> default [] (textos !! k) = []) ->
                   montarIndicadoresFornecedor v textos = resultado_vazio).
  { intros Hv. apply montar_sem_linhas. intros k Hk.
    rewrite (Hv k Hk). reflexivity. }
  assert (Hnome : JS.falsy v = true ->
                  montarIndicadoresFornecedor v textos = resultado_vazio).
  { intros Hf. apply montar_sem_linhas. intros k _.
    apply extrairLinhasFornecedor_falsy. left. exact Hf. }
  split; [|split; [|split; [|split; [|split; [|split; [|split]]]]]].
  - intros Hf. split.
    + apply fornecedorExisteNaRazao_falsy, Hf.
    + apply extrairLinhasFornecedor_falsy, Hf.
  - intros Hf. split; [apply normalizarTexto_falsy, Hf|].
    unfold parseValorMonetario. rewrite Hf. reflexivity.
  - intros Hv. split; [exact (Hvazio Hv)|].
    apply montar_chamada_vazio, Hvazio, Hv.
  - intros Hf. split; [exact (Hnome Hf)|].
    apply montar_chamada_vazio, Hnome, Hf.
  - intros k Hk.
    destruct (chave_cases k Hk) as [-> | [-> | ->]]; vm_compute; reflexivity.
  - vm_compute. reflexivity.
  - change (montarIndicadoresFornecedor_chamada max_argumentos v mapa_undefined)
      with (montarIndicadoresFornecedor_chamada max_argumentos v (mapa_objeto ∅)).
    apply montar_chamada_vazio, montar_sem_linhas. intros k _.
    rewrite lookup_empty. reflexivity.
  - intros Hcabe. apply montar_chamada_cabe. intros _. exact Hcabe.
Qed.

Lemma entradas_degeneradas_witness :
  let textos : gmap jsstring jsstring :=
    <[JS.lit "razao" := JS.lit "ACME LTDA 1.000,05"]>
      (<[JS.lit "balancete" := JS.lit "ACME LTDA 1.000,00"]> ∅) in
  montarIndicadoresFornecedor_chamada (Some 65535) (Some (JS.lit "ACME"))
    (mapa_objeto textos)
  = Normal (montarIndicadoresFornecedor (Some (JS.lit "ACME")) textos)
  /\ avaliacaoAutomaticaSaldo (montarIndicadoresFornecedor (Some (JS.lit "ACME")) textos)
     = saldos_iguais (Prim2SF 1000.02%float)
  /\ montarIndicadoresFornecedor_chamada (Some 65535) None (mapa_objeto textos)
     = Normal resultado_vazio.
Proof.
  intros textos.
  destruct (entradas_degeneradas (H := latin1) (Some 65535)
              (Some (JS.lit "ACME")) None textos)
    as (_ & _ & _ & _ & _ & _ & _ & Hcabe).
  destruct (entradas_degeneradas (H := latin1) (Some 65535)
              None None textos)
    as (_ & _ & _ & Hnome & _).
  split; [|split].
  - apply Hcabe. intros n [= <-]. vm_compute. discriminate.
  - vm_compute. reflexivity.
  - apply Hnome. reflexivity.
Defined.

Lemma montarIndicadoresFornecedor_null_lanca :
  montarIndicadoresFornecedor_chamada (H := latin1) None (Some (JS.lit "ACME")) mapa_null
  = Throw TypeError
  /\ ~ (exists r,
          montarIndicadoresFornecedor_chamada (H := latin1) None
            (Some (JS.lit "ACME")) mapa_null = Normal r).
Proof.
  split; [reflexivity|]. intros [r Hr]. discriminate Hr.
Qed.
